(** * nlp.py: the corpus aggregation and normalization pipeline of class [Text]

    A shallow embedding of [src/nlp.py] and the properties of its parsers,
    corpus store, feature deriver and top-k selection.

    Conventions of the embedding.
    - A Python [str] is a [string]; a character stands for the Unicode code
      point of the same number, so the texts covered are those over
      U+0000..U+00FF.  The character classes are Python's for that range.
    - A Python [dict] (and [Counter], and the [defaultdict] of the corpus) is
      an association list in insertion order without duplicate keys: the code
      depends on that order ([most_common] ties, [list(keys)[:k]],
      [' '.join(keys)]).
    - A raised exception is the [Err] branch of [result]; methods of [Text]
      that touch [self.data] thread the corpus explicitly.
    - The readability collaborators ([textstat]) are parameters; the numbers
      they and the parsers produce are rationals ([Q]), the faults of [/] are
      those of Python ([ZeroDivisionError] on a zero divisor). *)

From Stdlib Require Import List String Ascii Bool Arith NArith ZArith QArith.
From Stdlib Require Import Lia Permutation.
Import ListNotations.

Local Open Scope string_scope.
Local Open Scope list_scope.

(** ** Exceptions *)

Inductive exn : Type :=
| IOError
| TypeError
| AttributeError
| KeyError
| ValueError
| ZeroDivisionError
| UnboundLocalError
| PdfminerException.

Inductive result (A : Type) : Type :=
| Ok (a : A)
| Err (e : exn).

Arguments Ok {A} a.
Arguments Err {A} e.

Definition rbind {A B : Type} (m : result A) (f : A -> result B) : result B :=
  match m with
  | Ok a => f a
  | Err e => Err e
  end.

Notation "x <- m ;; k" := (rbind m (fun x => k))
  (at level 61, m at next level, right associativity).

(** ** Python strings over code points below 256 *)

Module PyStr.

Definition code (c : ascii) : N := N_of_ascii c.

Definition in_range (lo hi n : N) : bool := (N.leb lo n && N.leb n hi)%bool.

(** [str.isspace] on one character, as used by [str.split()] and
    [str.strip()] without arguments. *)
Definition is_space (c : ascii) : bool :=
  let n := code c in
  (in_range 9 13 n || in_range 28 32 n || N.eqb n 133 || N.eqb n 160)%bool.

(** [str.isalpha] on one character: general categories L*. *)
Definition is_alpha (c : ascii) : bool :=
  let n := code c in
  (in_range 65 90 n || in_range 97 122 n
   || N.eqb n 170 || N.eqb n 181 || N.eqb n 186
   || in_range 192 214 n || in_range 216 246 n || in_range 248 255 n)%bool.

(** Membership in [string.punctuation]. *)
Definition is_punct (c : ascii) : bool :=
  let n := code c in
  (in_range 33 47 n || in_range 58 64 n
   || in_range 91 96 n || in_range 123 126 n)%bool.

Definition lower_char (c : ascii) : ascii :=
  let n := code c in
  if (in_range 65 90 n || in_range 192 214 n || in_range 216 222 n)%bool
  then ascii_of_N (n + 32)
  else c.

Fixpoint map_str (f : ascii -> ascii) (s : string) : string :=
  match s with
  | EmptyString => EmptyString
  | String c s' => String (f c) (map_str f s')
  end.

Fixpoint filter_str (p : ascii -> bool) (s : string) : string :=
  match s with
  | EmptyString => EmptyString
  | String c s' => if p c then String c (filter_str p s') else filter_str p s'
  end.

Fixpoint all_str (p : ascii -> bool) (s : string) : bool :=
  match s with
  | EmptyString => true
  | String c s' => (p c && all_str p s')%bool
  end.

(** [s.lower()] *)
Definition lower (s : string) : string := map_str lower_char s.

(** [s.translate(str.maketrans('', '', string.punctuation))] *)
Definition remove_punctuation (s : string) : string :=
  filter_str (fun c => negb (is_punct c)) s.

(** [s.isalpha()]: false on the empty string. *)
Definition isalpha (s : string) : bool :=
  match s with
  | EmptyString => false
  | _ => all_str is_alpha s
  end.

(** Reverse of a string, for the accumulators below. *)
Fixpoint rev_append (s acc : string) : string :=
  match s with
  | EmptyString => acc
  | String c s' => rev_append s' (String c acc)
  end.

Definition rev (s : string) : string := rev_append s EmptyString.

(** [s.split()]: maximal runs of non-whitespace characters.  [cur] is the
    run being read, reversed. *)
Fixpoint split_aux (s cur : string) : list string :=
  match s with
  | EmptyString =>
      match cur with
      | EmptyString => []
      | _ => [rev cur]
      end
  | String c s' =>
      if is_space c
      then match cur with
           | EmptyString => split_aux s' EmptyString
           | _ => rev cur :: split_aux s' EmptyString
           end
      else split_aux s' (String c cur)
  end.

Definition split (s : string) : list string := split_aux s EmptyString.

(** Leading whitespace removed. *)
Fixpoint lstrip (s : string) : string :=
  match s with
  | EmptyString => EmptyString
  | String c s' => if is_space c then lstrip s' else s
  end.

(** [s.strip()] *)
Definition strip (s : string) : string := rev (lstrip (rev (lstrip s))).

(** The lines a text file yields when iterated: split after each line
    feed (the line feed stays at the end of its line). *)
Fixpoint lines_aux (s cur : string) : list string :=
  match s with
  | EmptyString =>
      match cur with
      | EmptyString => []
      | _ => [rev cur]
      end
  | String c s' =>
      if N.eqb (code c) 10
      then rev (String c cur) :: lines_aux s' EmptyString
      else lines_aux s' (String c cur)
  end.

Definition lines (s : string) : list string := lines_aux s EmptyString.

(** [sub in s] for two strings: [sub] occurs in [s] as a substring. *)
Fixpoint contains (sub s : string) : bool :=
  (String.prefix sub s
   || match s with
      | EmptyString => false
      | String _ s' => contains sub s'
      end)%bool.

(** [sep.join(ws)] *)
Fixpoint join (sep : string) (ws : list string) : string :=
  match ws with
  | [] => EmptyString
  | [w] => w
  | w :: ws' => w ++ sep ++ join sep ws'
  end.

(** Truth value of a string: non-empty. *)
Definition truthy (s : string) : bool :=
  match s with
  | EmptyString => false
  | _ => true
  end.

End PyStr.

(** ** Insertion-ordered dictionaries with string keys *)

Module Dict.

Section WithValue.

Context {V : Type}.

Definition t : Type := list (string * V).

Definition empty : t := [].

(** [d.get(k)]: [None] when the key is absent. *)
Fixpoint get (k : string) (d : t) : option V :=
  match d with
  | [] => None
  | (k', v) :: d' => if String.eqb k k' then Some v else get k d'
  end.

(** [d[k] = v]: an existing key keeps its position, a new key goes last. *)
Fixpoint set (k : string) (v : V) (d : t) : t :=
  match d with
  | [] => [(k, v)]
  | (k', v') :: d' =>
      if String.eqb k k' then (k', v) :: d' else (k', v') :: set k v d'
  end.

(** [k in d] *)
Definition mem (k : string) (d : t) : bool :=
  match get k d with
  | Some _ => true
  | None => false
  end.

Definition keys (d : t) : list string := map fst d.

Definition values (d : t) : list V := map snd d.

End WithValue.

Arguments t V : clear implicits.

End Dict.

(** ** Counter *)

(** A [Counter] maps a word to a Python int. *)
Definition counter : Type := Dict.t Z.

(** One step of [Counter.update] over an iterable:
    [mapping[elem] = mapping.get(elem, 0) + 1]. *)
Definition count_element (c : counter) (elem : string) : counter :=
  match Dict.get elem c with
  | Some n => Dict.set elem (n + 1)%Z c
  | None => Dict.set elem (0 + 1)%Z c
  end.

(** [Counter(words)] *)
Definition Counter (words : list string) : counter :=
  fold_left count_element words Dict.empty.

(** [sum(c.values())] *)
Definition total (c : counter) : Z :=
  fold_right Z.add 0%Z (Dict.values c).

(** Insertion of an item into a list sorted by decreasing count, ahead of
    the items that do not have a greater count. *)
Fixpoint insert_desc (x : string * Z) (l : list (string * Z)) : list (string * Z) :=
  match l with
  | [] => [x]
  | y :: l' =>
      if (snd x <? snd y)%Z then y :: insert_desc x l' else x :: l
  end.

(** [sorted(c.items(), key=itemgetter(1), reverse=True)]: a stable sort,
    items of equal count stay in insertion order. *)
Definition sorted_desc (c : counter) : list (string * Z) :=
  fold_right insert_desc [] c.

(** [c.most_common(k)], that is [heapq.nlargest(k, c.items(), key=count)]. *)
Definition most_common (k : Z) (c : counter) : list (string * Z) :=
  if (k <=? 0)%Z then [] else firstn (Z.to_nat k) (sorted_desc c).

(** [l[:k]] for a Python int [k]: a negative [k] counts from the end. *)
Definition slice_to {A : Type} (k : Z) (l : list A) : list A :=
  if (0 <=? k)%Z
  then firstn (Z.to_nat k) l
  else firstn (Z.to_nat (Z.of_nat (List.length l) + k)) l.

(** ** Values and arguments *)

(** The values the parsers of this module put in their result. *)
Inductive pyval : Type :=
| VInt (n : Z)
| VStr (s : string)
| VCounter (c : counter).

(** What callers pass as [stop_words]: a collection of words
    ([load_stop_words] returns a list) or a [str] (the driver passes the
    path of the stop-word file, which [pdf_parser] loads itself). *)
Inductive pyarg : Type :=
| AStr (s : string)
| AList (l : list string).

(** [word in stop_words]: membership in a collection, substring test on a
    [str]. *)
Definition py_in (word : string) (stop_words : pyarg) : bool :=
  match stop_words with
  | AList l => existsb (String.eqb word) l
  | AStr s => PyStr.contains word s
  end.

(** ** Files *)

(** What [open(path, 'r').read()] gives for a path ([None]: the file cannot
    be opened), and the pages [pdfplumber.open(path)] gives, each with the
    result of [extract_text()] ([None] for a page without text).  When
    [pdfplumber.open] gives no pages, [opens] tells why: either the file
    itself cannot be opened (an [OSError]), or it opens and is not a PDF
    ([pdfplumber] then raises its [PdfminerException]). *)
Record filesystem : Type := {
  text_file : string -> option string;
  pdf_pages : string -> option (list (option string));
  opens : string -> bool
}.

Definition LF : string := String (ascii_of_nat 10) EmptyString.

Definition open_read (fs : filesystem) (path : string) : result string :=
  match text_file fs path with
  | Some s => Ok s
  | None => Err IOError
  end.

Definition pdf_open (fs : filesystem) (path : string) : result (list (option string)) :=
  match pdf_pages fs path with
  | Some pages => Ok pages
  | None => if opens fs path then Err PdfminerException else Err IOError
  end.

(** ** The parsers of class [Text] *)

(** [load_stop_words]: the stripped non-blank lines of the file.  [open]
    rejects a path that is not a [str]. *)
Definition load_stop_words (fs : filesystem) (stopfile : pyarg) : result (list string) :=
  match stopfile with
  | AStr path =>
      content <- open_read fs path ;;
      Ok (map PyStr.strip
            (filter (fun line => PyStr.truthy (PyStr.strip line)) (PyStr.lines content)))
  | AList _ => Err TypeError
  end.

(** Lines 58 and 78:
    [[word for word in raw.split() if word.isalpha() and word not in stop_words]] *)
Definition keep_word (stop_words : pyarg) (word : string) : bool :=
  (PyStr.isalpha word && negb (py_in word stop_words))%bool.

Definition filter_words (raw : string) (stop_words : pyarg) : list string :=
  filter (keep_word stop_words) (PyStr.split raw).

(** Lines 48-51: the text of the pages that have some, each followed by a
    line feed. *)
Definition concat_pages (pages : list (option string)) : string :=
  fold_left
    (fun raw page =>
       match page with
       | Some text => if PyStr.truthy text then (raw ++ text ++ LF)%string else raw
       | None => raw
       end)
    pages EmptyString.

Definition pdf_parser (fs : filesystem) (filename : string) (stopfile : pyarg)
  : result (Dict.t pyval) :=
  sw <- load_stop_words fs stopfile ;;
  let stop_words := AList sw in
  pdf_file <- pdf_open fs filename ;;
  let num_pages := Z.of_nat (List.length pdf_file) in
  let raw := concat_pages pdf_file in
  let raw := PyStr.lower raw in
  let raw := PyStr.remove_punctuation raw in
  let words := filter_words raw stop_words in
  let wc := Counter words in
  let num_words := Z.of_nat (List.length words) in
  Ok [("wordcount", VCounter wc); ("num_words", VInt num_words);
      ("num_pages", VInt num_pages); ("raw_text", VStr raw)].

Definition simple_text_parser (fs : filesystem) (filename : string) (stop_words : pyarg)
  : result (Dict.t pyval) :=
  content <- open_read fs filename ;;
  let raw := PyStr.lower content in
  let raw := PyStr.remove_punctuation raw in
  let words := filter_words raw stop_words in
  let wc := Counter words in
  Ok [("wordcount", VCounter wc); ("num_words", VInt (Z.of_nat (List.length words)))].

(** ** The corpus store *)

(** [self.data = defaultdict(dict)]: statistic name, then document label. *)
Definition corpus : Type := Dict.t (Dict.t pyval).

(** Methods of [Text] read and write [self.data] and may raise. *)
Definition M (A : Type) : Type := corpus -> result A * corpus.

Definition ret {A : Type} (a : A) : M A := fun data => (Ok a, data).

Definition lift {A : Type} (r : result A) : M A := fun data => (r, data).

Definition bind {A B : Type} (m : M A) (f : A -> M B) : M B :=
  fun data =>
    match m data with
    | (Ok a, data') => f a data'
    | (Err e, data') => (Err e, data')
    end.

Notation "x <~ m ;; k" := (bind m (fun x => k))
  (at level 61, m at next level, right associativity).

(** [self.data[k]]: a missing statistic is created, empty, by the
    [defaultdict]. *)
Definition data_getitem (k : string) : M (Dict.t pyval) :=
  fun data =>
    match Dict.get k data with
    | Some d => (Ok d, data)
    | None => (Ok Dict.empty, Dict.set k Dict.empty data)
    end.

(** [self.data[k][label] = v] *)
Definition data_store (k label : string) (v : pyval) : M unit :=
  fun data =>
    match data_getitem k data with
    | (Ok inner, data') => (Ok tt, Dict.set k (Dict.set label v inner) data')
    | (Err e, data') => (Err e, data')
    end.

(** [d[k]] on a plain [dict] *)
Definition getitem {V : Type} (k : string) (d : Dict.t V) : result V :=
  match Dict.get k d with
  | Some v => Ok v
  | None => Err KeyError
  end.

(** ** Document registration *)

Definition parser_fn : Type := string -> pyarg -> result (Dict.t pyval).

(** A call of [self.simple_text_parser] with positional arguments [args]: the signature (line 69) has
    two required positional parameters, [filename] and [stop_words], and
    the call fails before the body runs when they are not both given. *)
Definition call_simple_text_parser (fs : filesystem) (args : list pyarg)
  : result (Dict.t pyval) :=
  match args with
  | [filename; stop_words] =>
      match filename with
      | AStr path => simple_text_parser fs path stop_words
      | AList _ => Err TypeError
      end
  | _ => Err TypeError
  end.

(** Lines 101-102: [for k, v in results.items(): self.data[k][label] = v] *)
Fixpoint store_results (label : string) (results : Dict.t pyval) : M unit :=
  match results with
  | [] => ret tt
  | (k, v) :: rest =>
      _ <~ data_store k label v ;;
      store_results label rest
  end.

(** Lines 89-90: the stop words given, or else those of [stop_words.txt]. *)
Definition stop_words_or_default (fs : filesystem) (stop_words : option pyarg)
  : result pyarg :=
  match stop_words with
  | None =>
      sw <- load_stop_words fs (AStr "stop_words.txt") ;;
      Ok (AList sw)
  | Some sw => Ok sw
  end.

Definition load_text (fs : filesystem) (filename : string) (label : option string)
    (stop_words : option pyarg) (parser : option parser_fn) : M unit :=
  stop_words <~ lift (stop_words_or_default fs stop_words) ;;
  results <~ lift match parser with
                  | None => call_simple_text_parser fs [AStr filename]
                  | Some parser => parser filename stop_words
                  end ;;
  let label := match label with
               | None => filename
               | Some l => l
               end in
  store_results label results.

(** ** Top-k selection of the Sankey adapter (lines 108-119) *)

(** [[word for word, _ in wordcount.most_common(k)]]; only a [Counter] has
    [most_common]. *)
Definition top_words_of (k : Z) (wordcount : pyval) : result (list string) :=
  match wordcount with
  | VCounter c => Ok (map fst (most_common k c))
  | _ => Err AttributeError
  end.

Fixpoint top_words_loop (k : Z) (files : list string)
    (top_words_per_file : Dict.t (list string)) : M (Dict.t (list string)) :=
  match files with
  | [] => ret top_words_per_file
  | label :: rest =>
      wordcounts <~ data_getitem "wordcount" ;;
      wordcount <~ lift (getitem label wordcounts) ;;
      top_words <~ lift (top_words_of k wordcount) ;;
      top_words_loop k rest (Dict.set label top_words top_words_per_file)
  end.

Definition sankey_top_words (word_list : option (list string)) (k : Z)
  : M (Dict.t (list string)) :=
  wordcounts <~ data_getitem "wordcount" ;;
  let files := Dict.keys wordcounts in
  match word_list with
  | None => top_words_loop k files Dict.empty
  | Some word_list =>
      ret (fold_left (fun d label => Dict.set label word_list d) files Dict.empty)
  end.

(** ** Feature deriver *)

(** The result of [get_features]: ['Word Count'] is what [dict.get] returned
    ([None] for an absent label). *)
Record features : Type := {
  Word_Count : option pyval;
  Grade_Level : Q;
  Polysyllable_Count : Z
}.

(** One row of [data] in [complexity_heatmap]:
    [[num_words, polysyllable_count, grade]]. *)
Definition row : Type := (option pyval * Z * Q)%type.

(** What is handed to the chart: [normalized_data], one row per document
    and one column per feature in the order word count, polysyllable count,
    grade level (the figure shows its transpose), and [labels]. *)
Record heatmap : Type := {
  normalized_data : list (Q * Q * Q);
  labels : list string
}.

(** [max(xs)]: the first greatest item; [ValueError] on an empty list. *)
Definition py_max (xs : list Q) : result Q :=
  match xs with
  | [] => Err ValueError
  | x :: rest =>
      Ok (fold_left (fun m y => match (y ?= m)%Q with Gt => y | _ => m end) rest x)
  end.

(** [a / b] on numbers. *)
Definition py_div (a b : Q) : result Q :=
  if Qeq_bool b 0 then Err ZeroDivisionError else Ok (a / b)%Q.

(** The word-count column as numbers.  An entry that is not a number (an
    absent [num_words], a string, a [Counter]) makes [max] or the first [/]
    of line 288 raise [TypeError], before any other division is tried. *)
Fixpoint word_count_column (data : list row) : result (list Q) :=
  match data with
  | [] => Ok []
  | (Some (VInt n), _, _) :: rest =>
      ns <- word_count_column rest ;;
      Ok (inject_Z n :: ns)
  | _ :: _ => Err TypeError
  end.

Definition polysyllable_column (data : list row) : list Q :=
  map (fun item : row => inject_Z (snd (fst item))) data.

Definition grade_column (data : list row) : list Q :=
  map (fun item : row => snd item) data.

(** Line 288, for one row. *)
Definition normalize_row (max_word_count max_polysyllable_count max_grade : Q)
    (num_words polysyllable_count grade : Q) : result (Q * Q * Q) :=
  a <- py_div num_words max_word_count ;;
  b <- py_div polysyllable_count max_polysyllable_count ;;
  c <- py_div grade max_grade ;;
  Ok (a, b, c).

Fixpoint normalize_rows (mw mp mg : Q) (ws ps gs : list Q) : result (list (Q * Q * Q)) :=
  match ws, ps, gs with
  | w :: ws', p :: ps', g :: gs' =>
      r <- normalize_row mw mp mg w p g ;;
      rs <- normalize_rows mw mp mg ws' ps' gs' ;;
      Ok (r :: rs)
  | _, _, _ => Ok []
  end.

(** Lines 283-290. *)
Definition normalize (data : list row) : result (list (Q * Q * Q)) :=
  ws <- word_count_column data ;;
  max_word_count <- py_max ws ;;
  max_polysyllable_count <- py_max (polysyllable_column data) ;;
  max_grade <- py_max (grade_column data) ;;
  normalize_rows max_word_count max_polysyllable_count max_grade
    ws (polysyllable_column data) (grade_column data).

(** [' '.join(wordcount.keys())]; only a [Counter] has [keys]. *)
Definition distinct_words_text (wordcount : pyval) : result string :=
  match wordcount with
  | VCounter c => Ok (PyStr.join " " (Dict.keys c))
  | _ => Err AttributeError
  end.

Section Collaborators.

(** [textstat.flesch_kincaid_grade] and [textstat.polysyllabcount]. *)
Variable flesch_kincaid_grade : string -> Q.
Variable polysyllabcount : string -> Z.

Definition get_flesch_kindcaid_grade (text : string) : Q :=
  flesch_kincaid_grade text.

Definition get_polysyllable_count (text : string) : Z :=
  polysyllabcount text.

Definition get_features (text : string) : M features :=
  wordcounts <~ data_getitem "wordcount" ;;
  let word_count := Dict.get text wordcounts in
  let grade_level := get_flesch_kindcaid_grade text in
  let polysyllable_count := get_polysyllable_count text in
  ret {| Word_Count := word_count;
         Grade_Level := grade_level;
         Polysyllable_Count := polysyllable_count |}.

(** Lines 273-279: the row of one label. *)
Definition gather_row (label : string) : M row :=
  wordcounts <~ data_getitem "wordcount" ;;
  wordcount <~ lift (getitem label wordcounts) ;;
  text <~ lift (distinct_words_text wordcount) ;;
  num_words_of <~ data_getitem "num_words" ;;
  let num_words := Dict.get label num_words_of in
  let grade := get_flesch_kindcaid_grade text in
  let polysyllable_count := get_polysyllable_count text in
  ret (num_words, polysyllable_count, grade).

(** The body of the loop of lines 272-290, run over the labels still to
    visit.  The normalization is inside the loop: it is redone on the rows
    gathered so far after each label, and a fault there ends the call. *)
Fixpoint heatmap_loop (todo : list string) (data : list row) (labels : list string)
    (normalized : option (list (Q * Q * Q)))
  : M (list string * option (list (Q * Q * Q))) :=
  match todo with
  | [] => ret (labels, normalized)
  | label :: rest =>
      item <~ gather_row label ;;
      let data := data ++ [item] in
      let labels := labels ++ [label] in
      normalized_data <~ lift (normalize data) ;;
      heatmap_loop rest data labels (Some normalized_data)
  end.

Definition complexity_heatmap (k : Z) : M heatmap :=
  wordcounts <~ data_getitem "wordcount" ;;
  let batch := slice_to k (Dict.keys wordcounts) in
  out <~ heatmap_loop batch [] [] None ;;
  match snd out with
  | None => lift (Err UnboundLocalError)
  | Some normalized_data =>
      ret {| normalized_data := normalized_data; labels := fst out |}
  end.

End Collaborators.

(** ** The links of the Sankey adapter (lines 122-133) *)

(** One link.  [sources], [targets] and [values] are appended to together:
    they are the three columns of the list of links. *)
Definition link : Type := (string * string * Z)%type.

Definition sources (links : list link) : list string :=
  map (fun l : link => fst (fst l)) links.

Definition targets (links : list link) : list string :=
  map (fun l : link => snd (fst l)) links.

Definition values (links : list link) : list Z :=
  map (fun l : link => snd l) links.

(** Lines 130-133 for one word: [if word in wordcount] and then
    [wordcount[word]].  On a [str] the test is a substring test and the
    subscript raises; an [int] is not a container. *)
Definition sankey_link (label : string) (wordcount : pyval) (word : string)
  : result (list link) :=
  match wordcount with
  | VCounter c =>
      match Dict.get word c with
      | Some n => Ok [(label, word, n)]
      | None => Ok []
      end
  | VStr s => if PyStr.contains word s then Err TypeError else Ok []
  | VInt _ => Err TypeError
  end.

Fixpoint links_of_words (label : string) (wordcount : pyval) (top_words : list string)
    (links : list link) : result (list link) :=
  match top_words with
  | [] => Ok links
  | word :: rest =>
      new <- sankey_link label wordcount word ;;
      links_of_words label wordcount rest (links ++ new)
  end.

(** Lines 126-133, over [self.data["wordcount"].items()]. *)
Fixpoint links_loop (items : Dict.t pyval) (top_words_per_file : Dict.t (list string))
    (links : list link) : result (list link) :=
  match items with
  | [] => Ok links
  | (label, wordcount) :: rest =>
      top_words <- getitem label top_words_per_file ;;
      links <- links_of_words label wordcount top_words links ;;
      links_loop rest top_words_per_file links
  end.

(** [wordcount_sankey] up to line 133.  What follows numbers the nodes in
    the iteration order of a [set] of strings, which is not fixed by the
    program. *)
Definition sankey_links (word_list : option (list string)) (k : Z) : M (list link) :=
  top_words_per_file <~ sankey_top_words word_list k ;;
  wordcounts <~ data_getitem "wordcount" ;;
  lift (links_loop wordcounts top_words_per_file []).

(** ** The frequency heatmap (lines 175-195) *)

(** [c.get(word, 0)] *)
Definition getd (word : string) (c : counter) : Z :=
  match Dict.get word c with
  | Some n => n
  | None => 0%Z
  end.

(** One step of [Counter.update] over a mapping:
    [self[elem] = count + self.get(elem, 0)]. *)
Definition update_item (self : counter) (item : string * Z) : counter :=
  Dict.set (fst item) (snd item + getd (fst item) self)%Z self.

(** [self.update(iterable)] of a [Counter]: a mapping is added item by item
    (copied when [self] is empty), the characters of a [str] are counted,
    an [int] is not iterable. *)
Definition counter_update (self : counter) (iterable : pyval) : result counter :=
  match iterable with
  | VCounter c =>
      match self with
      | [] => Ok c
      | _ => Ok (fold_left update_item c self)
      end
  | VStr s =>
      Ok (fold_left count_element
            (map (fun ch => String ch EmptyString) (list_ascii_of_string s)) self)
  | VInt _ => Err TypeError
  end.

(** [[f(x) for x in l]] for an [f] that reads the corpus. *)
Fixpoint mapM {A B : Type} (f : A -> M B) (l : list A) : M (list B) :=
  match l with
  | [] => ret []
  | x :: l' =>
      y <~ f x ;;
      ys <~ mapM f l' ;;
      ret (y :: ys)
  end.

(** Lines 180-182. *)
Fixpoint word_freq_loop (files : list string) (word_freq : counter) : M counter :=
  match files with
  | [] => ret word_freq
  | label :: rest =>
      wordcounts <~ data_getitem "wordcount" ;;
      wordcount <~ lift (getitem label wordcounts) ;;
      word_freq <~ lift (counter_update word_freq wordcount) ;;
      word_freq_loop rest word_freq
  end.

(** [self.data['wordcount'][file].get(word, 0)]; only a [Counter] has
    [get]. *)
Definition freq_cell (word file : string) : M Z :=
  wordcounts <~ data_getitem "wordcount" ;;
  wordcount <~ lift (getitem file wordcounts) ;;
  match wordcount with
  | VCounter c => ret (getd word c)
  | _ => lift (Err AttributeError)
  end.

(** The arguments of [go.Heatmap]: [z], [x] and [y]. *)
Record freq_heatmap : Type := {
  freq_matrix : list (list Z);
  freq_files : list string;
  freq_words : list string
}.

Definition frequency_heatmap (k : Z) : M freq_heatmap :=
  wordcounts <~ data_getitem "wordcount" ;;
  let files := Dict.keys wordcounts in
  word_freq <~ word_freq_loop files Dict.empty ;;
  let top_words := map fst (most_common k word_freq) in
  freq_matrix <~ mapM (fun word => mapM (fun file => freq_cell word file) files) top_words ;;
  ret {| freq_matrix := freq_matrix; freq_files := files; freq_words := top_words |}.

(** ** The bar chart grid (lines 206-234) *)

(** The arguments of one [fig.add_trace(go.Bar(x, y, name), row, col)]. *)
Record bar : Type := {
  bar_words : list string;
  bar_counts : list Z;
  bar_name : string;
  bar_row : Z;
  bar_col : Z
}.

(** The arguments of [make_subplots] and the traces added. *)
Record barchart : Type := {
  grid_rows : Z;
  grid_cols : Z;
  subplot_titles : list string;
  traces : list bar
}.

(** [wordcount.most_common(k)]; only a [Counter] has [most_common]. *)
Definition most_common_of (k : Z) (wordcount : pyval) : result (list (string * Z)) :=
  match wordcount with
  | VCounter c => Ok (most_common k c)
  | _ => Err AttributeError
  end.

(** Lines 220-234, for the files from index [idx] on. *)
Fixpoint barchart_loop (k cols idx : Z) (files : list string) (traces : list bar)
  : M (list bar) :=
  match files with
  | [] => ret traces
  | label :: rest =>
      let row := (idx / cols + 1)%Z in
      let col := (idx mod cols + 1)%Z in
      wordcounts <~ data_getitem "wordcount" ;;
      wordcount <~ lift (getitem label wordcounts) ;;
      top_words <~ lift (most_common_of k wordcount) ;;
      let words := map fst top_words in
      let counts := map snd top_words in
      barchart_loop k cols (idx + 1)%Z rest
        (traces ++ [{| bar_words := words; bar_counts := counts; bar_name := label;
                       bar_row := row; bar_col := col |}])
  end.

(** [make_subplots(rows=rows, cols=cols, ...)] (line 217) refuses a grid
    without rows or without columns: it raises [ValueError] unless both
    are positive. *)
Definition make_subplots (rows cols : Z) : result unit :=
  if ((rows <=? 0) || (cols <=? 0))%Z%bool then Err ValueError else Ok tt.

Definition frequency_barchart (k : Z) : M barchart :=
  wordcounts <~ data_getitem "wordcount" ;;
  let files := Dict.keys wordcounts in
  let num_files := Z.of_nat (List.length files) in
  let cols := 2%Z in
  let rows := ((num_files + 1) / cols)%Z in
  _ <~ lift (make_subplots rows cols) ;;
  traces <~ barchart_loop k cols 0%Z files [] ;;
  ret {| grid_rows := rows; grid_cols := cols; subplot_titles := files;
         traces := traces |}.

(** ** The driver (nlp_test.py, lines 17-31) *)

Definition screenplays : list (string * string) :=
  [("a_real_pain_screenplay.pdf", "A Real Pain");
   ("anatomy_of_a_fall_screenplay.pdf", "Anatomy of a Fall");
   ("anora_screenplay.pdf", "Anora");
   ("maestro_screenplay.pdf", "Maestro");
   ("may_december_screenplays.pdf", "May December");
   ("past_lives_screenplay.pdf", "Past Lives");
   ("september_5_screenplay.pdf", "September 5");
   ("the_brutalist_screenplay.pdf", "The Brutalist");
   ("the_holdovers_screenplay.pdf", "The Holdovers");
   ("the_substance_screenplay.pdf", "The Substance")].

(** Lines 30-31: each document is registered with [pdf_parser], the stop
    words being whatever the caller passes on. *)
Fixpoint load_all (fs : filesystem) (docs : list (string * string)) (stop_words : pyarg)
  : M unit :=
  match docs with
  | [] => ret tt
  | (filepath, label) :: rest =>
      _ <~ load_text fs filepath (Some label) (Some stop_words) (Some (pdf_parser fs)) ;;
      load_all fs rest stop_words
  end.

(** The driver passes the path of the stop-word file. *)
Definition driver_registration (fs : filesystem) : M unit :=
  load_all fs screenplays (AStr "stop_words.txt").

(** ** Readings of the corpus and of the results, for the statements *)

(** The value of [self.data[k]]: the recorded statistic, or the empty
    dictionary the [defaultdict] makes up. *)
Definition stat (data : corpus) (k : string) : Dict.t pyval :=
  match Dict.get k data with
  | Some d => d
  | None => Dict.empty
  end.

(** What the corpus records for a label under a statistic:
    [self.data[k].get(label)], without the side effect of the lookup. *)
Definition entry (data : corpus) (k label : string) : option pyval :=
  match Dict.get k data with
  | Some inner => Dict.get label inner
  | None => None
  end.

(** The registered documents, in registration order. *)
Definition documents (data : corpus) : list string :=
  match Dict.get "wordcount" data with
  | Some wordcounts => Dict.keys wordcounts
  | None => []
  end.

Fixpoint traverse {A B : Type} (f : A -> result B) (l : list A) : result (list B) :=
  match l with
  | [] => Ok []
  | x :: l' =>
      y <- f x ;;
      ys <- traverse f l' ;;
      Ok (y :: ys)
  end.

(** The row [complexity_heatmap] gathers for a label (lines 273-279), read
    off the corpus. *)
Definition row_of (grade : string -> Q) (poly : string -> Z) (data : corpus)
    (label : string) : result row :=
  wordcount <- getitem label (stat data "wordcount") ;;
  text <- distinct_words_text wordcount ;;
  Ok (Dict.get label (stat data "num_words"), poly text, grade text).

(** The labels of the batch, [list(self.data['wordcount'].keys())[:k]], and
    their rows. *)
Definition batch_labels (k : Z) (data : corpus) : list string :=
  slice_to k (documents data).

Definition batch_rows (grade : string -> Q) (poly : string -> Z) (k : Z)
    (data : corpus) : result (list row) :=
  traverse (row_of grade poly data) (batch_labels k data).

(** The characters of a string. *)
Definition chars (s : string) : list ascii := list_ascii_of_string s.

(** A token of [split]: not empty, no whitespace inside. *)
Definition is_token (w : string) : Prop :=
  w <> EmptyString /\ forall c, In c (chars w) -> PyStr.is_space c = false.

(** What it is to split on whitespace, said without a scan: nothing comes
    of the empty string, a leading whitespace character is skipped, a token
    alone is the one item, and a token followed by a whitespace character is
    the first item, the rest being split in the same way. *)
Definition splits_on_whitespace (f : string -> list string) : Prop :=
  f EmptyString = []
  /\ (forall c s, PyStr.is_space c = true -> f (String c s) = f s)
  /\ (forall w, is_token w -> f w = [w])
  /\ (forall w c s, is_token w -> PyStr.is_space c = true ->
                    f (w ++ String c s)%string = w :: f s).

(** Every count is at least one. *)
Definition positive (c : counter) : Prop :=
  Forall (fun item => (1 <= snd item)%Z) c.

(** The order of [sorted_desc]: counts never increase. *)
Fixpoint descending (l : list (string * Z)) : Prop :=
  match l with
  | [] => True
  | x :: l' =>
      match l' with
      | [] => True
      | y :: _ => (snd y <= snd x)%Z
      end /\ descending l'
  end.

(** The texts of the pages that have some, in page order. *)
Definition page_texts (pages : list (option string)) : list string :=
  flat_map
    (fun page : option string =>
       match page with
       | Some text => if PyStr.truthy text then [text] else []
       | None => []
       end)
    pages.

(** A corpus as the parsers of the class leave it: no label twice, and
    for each label a [Counter] without repeated keys or zero counts, and a
    ['num_words'] that is the sum of its counts. *)
Definition well_formed (data : corpus) : Prop :=
  NoDup (documents data)
  /\ forall label v,
       In (label, v) (stat data "wordcount") ->
       exists c : counter,
         v = VCounter c /\ NoDup (Dict.keys c) /\ positive c
         /\ entry data "num_words" label = Some (VInt (total c)).

(** The distinct words of a list, each at the place of its first
    occurrence; [seen] holds the words met before. *)
Fixpoint first_occurrences (seen words : list string) : list string :=
  match words with
  | [] => []
  | w :: rest =>
      if in_dec string_dec w seen
      then first_occurrences seen rest
      else w :: first_occurrences (seen ++ [w]) rest
  end.

(** A method keeps the records when, whatever it returns or raises, every
    statistic holds afterwards the labels and values it held before (a
    lookup may still have created an empty statistic). *)
Definition keeps_records {A : Type} (m : M A) : Prop :=
  forall (data : corpus) (k : string), stat (snd (m data)) k = stat data k.

(** The links of one document for a list of words: one for each word the
    document has, with its count. *)
Definition links_for (label : string) (c : counter) (words : list string) : list link :=
  flat_map
    (fun word =>
       match Dict.get word c with
       | Some n => [(label, word, n)]
       | None => []
       end)
    words.

(** The links of one document for its [k] most common words. *)
Definition top_links (k : Z) (item : string * pyval) : list link :=
  match snd item with
  | VCounter c => map (fun it : string * Z => (fst item, fst it, snd it)) (most_common k c)
  | _ => []
  end.

(** The links of one document for a given word list. *)
Definition word_list_links (word_list : list string) (item : string * pyval) : list link :=
  match snd item with
  | VCounter c => links_for (fst item) c word_list
  | _ => []
  end.

(** The count of a word in a registered document (0 when the document
    does not have it), and in the whole corpus. *)
Definition doc_count (data : corpus) (word label : string) : Z :=
  match entry data "wordcount" label with
  | Some (VCounter c) => getd word c
  | _ => 0%Z
  end.

Definition corpus_count (data : corpus) (word : string) : Z :=
  fold_right Z.add 0%Z (map (doc_count data word) (documents data)).

(** The bar chart of the document at index [idx], and those of a list of
    documents that starts at index [idx]. *)
Definition bar_of (data : corpus) (k idx : Z) (label : string) : bar :=
  let top_words :=
    match entry data "wordcount" label with
    | Some (VCounter c) => most_common k c
    | _ => []
    end in
  {| bar_words := map fst top_words;
     bar_counts := map snd top_words;
     bar_name := label;
     bar_row := (idx / 2 + 1)%Z;
     bar_col := (idx mod 2 + 1)%Z |}.

Fixpoint bars_from (data : corpus) (k idx : Z) (files : list string) : list bar :=
  match files with
  | [] => []
  | label :: rest => bar_of data k idx label :: bars_from data k (idx + 1)%Z rest
  end.

(** The statistics of a list hold the same labels, in the same order, as
    ['wordcount']. *)
Definition aligned (stats : list string) (data : corpus) : Prop :=
  forall s, In s stats -> Dict.keys (stat data s) = documents data.

(** ** Examples *)

(** A small file system for the examples. *)
Definition demo_fs : filesystem := {|
  text_file := fun path =>
    if String.eqb path "hello.txt" then Some "Hello, World! 123"
    else if String.eqb path "a.txt" then Some "the cat sat on the mat"
    else if String.eqb path "b.txt" then Some "a cat ran"
    else if String.eqb path "empty.txt" then Some ""
    else if String.eqb path "stop_words.txt" then Some ("the" ++ LF ++ "on" ++ LF)%string
    else None;
  pdf_pages := fun path =>
    if String.eqb path "script.pdf"
    then Some [Some "The Cat sat."; None; Some ""; Some "A cat ran, on the mat!"]
    else None;
  opens := fun path =>
    existsb (String.eqb path)
      ["hello.txt"; "a.txt"; "b.txt"; "empty.txt"; "stop_words.txt"; "script.pdf"]
|}.

(** Two registrations: a script under the label [H], then a text under its
    own path. *)
Definition demo_corpus : corpus :=
  snd (load_text demo_fs "b.txt" None (Some (AList []))
         (Some (simple_text_parser demo_fs))
         (snd (load_text demo_fs "script.pdf" (Some "H") (Some (AStr "stop_words.txt"))
                 (Some (pdf_parser demo_fs)) Dict.empty))).

(** One registered document: [a.txt] without the stop word [the]. *)
Definition single_corpus : corpus :=
  snd (load_text demo_fs "a.txt" None (Some (AList ["the"]))
         (Some (simple_text_parser demo_fs)) Dict.empty).

(** A stand-in for a readability collaborator that tells texts apart: the
    number of characters. *)
Definition count_chars (text : string) : Z := Z.of_nat (String.length text).

(** A file system in which every path opens as the same one-page script,
    one in which the fourth screenplay is missing, and one in which it is
    there and is not a PDF. *)
Definition driver_fs : filesystem := {|
  text_file := fun path =>
    if String.eqb path "stop_words.txt" then Some ("the" ++ LF ++ "on" ++ LF)%string
    else None;
  pdf_pages := fun _ => Some [Some "The cat sat on the mat."];
  opens := fun _ => true
|}.

Definition driver_fs_missing : filesystem := {|
  text_file := text_file driver_fs;
  pdf_pages := fun path =>
    if String.eqb path "maestro_screenplay.pdf" then None else pdf_pages driver_fs path;
  opens := fun path => negb (String.eqb path "maestro_screenplay.pdf")
|}.

Definition driver_fs_not_a_pdf : filesystem := {|
  text_file := text_file driver_fs;
  pdf_pages := pdf_pages driver_fs_missing;
  opens := fun _ => true
|}.

(** * Properties *)

(** ** Dictionaries *)

Section DictFacts.

Context {V : Type}.

Implicit Types (d : Dict.t V) (k : string) (v : V).

Lemma get_set_same k v d : Dict.get k (Dict.set k v d) = Some v.
Proof.
  induction d as [|[k' v'] d IH]; simpl.
  - now rewrite String.eqb_refl.
  - destruct (String.eqb k k') eqn:E; simpl; rewrite E; auto.
Qed.

Lemma get_set_other k k' v d :
  k <> k' -> Dict.get k' (Dict.set k v d) = Dict.get k' d.
Proof.
  intros Hne.
  induction d as [|[k0 v0] d IH]; simpl.
  - apply String.eqb_neq in Hne. rewrite String.eqb_sym in Hne. now rewrite Hne.
  - destruct (String.eqb k k0) eqn:E; simpl.
    + apply String.eqb_eq in E. subst k0.
      destruct (String.eqb k' k) eqn:E'; auto.
      apply String.eqb_eq in E'. congruence.
    + now rewrite IH.
Qed.

Lemma get_set k k' v d :
  Dict.get k' (Dict.set k v d) = if String.eqb k k' then Some v else Dict.get k' d.
Proof.
  destruct (String.eqb_spec k k') as [->|Hne].
  - apply get_set_same.
  - now apply get_set_other.
Qed.

Lemma get_None_keys k d : Dict.get k d = None <-> ~ In k (Dict.keys d).
Proof.
  induction d as [|[k' v'] d IH]; simpl.
  - tauto.
  - destruct (String.eqb_spec k k') as [->|Hne].
    + split; [discriminate | intros H; exfalso; apply H; now left].
    + rewrite IH. split; intros H; [intros [E|Hin]; [congruence | tauto] | tauto].
Qed.

Lemma get_Some_In k v d : Dict.get k d = Some v -> In (k, v) d.
Proof.
  induction d as [|[k' v'] d IH]; simpl; [discriminate|].
  destruct (String.eqb_spec k k') as [->|Hne].
  - intros [= ->]. now left.
  - intros H. right. auto.
Qed.

Lemma In_get_nodup k v d :
  NoDup (Dict.keys d) -> In (k, v) d -> Dict.get k d = Some v.
Proof.
  induction d as [|[k' v'] d IH]; simpl; [tauto|].
  intros Hnd [E|Hin].
  - injection E as -> ->. now rewrite String.eqb_refl.
  - inversion Hnd as [|? ? Hnotin Hnd']; subst.
    destruct (String.eqb_spec k k') as [->|Hne].
    + exfalso. apply Hnotin. change (In (fst (k', v)) (map fst d)). now apply in_map.
    + auto.
Qed.

Lemma keys_set k v d :
  Dict.keys (Dict.set k v d)
  = if Dict.mem k d then Dict.keys d else Dict.keys d ++ [k].
Proof.
  unfold Dict.mem.
  induction d as [|[k' v'] d IH]; simpl; [reflexivity|].
  destruct (String.eqb k k') eqn:E; simpl; [reflexivity|].
  rewrite IH. now destruct (Dict.get k d).
Qed.

Lemma in_keys_set k k' v d :
  In k' (Dict.keys (Dict.set k v d)) <-> k' = k \/ In k' (Dict.keys d).
Proof.
  rewrite keys_set. unfold Dict.mem.
  destruct (Dict.get k d) eqn:E.
  - split; [tauto|]. intros [->|H]; [|exact H].
    destruct (in_dec string_dec k (Dict.keys d)) as [Hin|Hnin]; [exact Hin|].
    apply get_None_keys in Hnin. congruence.
  - rewrite in_app_iff. simpl. intuition congruence.
Qed.

Lemma nodup_keys_set k v d :
  NoDup (Dict.keys d) -> NoDup (Dict.keys (Dict.set k v d)).
Proof.
  intros Hnd. rewrite keys_set. unfold Dict.mem.
  destruct (Dict.get k d) eqn:E; [exact Hnd|].
  apply get_None_keys in E.
  apply NoDup_app; [exact Hnd | repeat constructor; simpl; tauto | ].
  intros x Hx [<-|[]]. tauto.
Qed.

End DictFacts.

(** ** Counters *)

Lemma total_set (w : string) (n : Z) (c : counter) :
  total (Dict.set w n c)
  = (total c + n - match Dict.get w c with Some o => o | None => 0 end)%Z.
Proof.
  unfold total, Dict.values.
  induction c as [|[k v] c IH]; simpl; [lia|].
  destruct (String.eqb w k) eqn:E; simpl; [lia|].
  rewrite IH. lia.
Qed.

Lemma total_count_element (c : counter) (w : string) :
  total (count_element c w) = (total c + 1)%Z.
Proof.
  unfold count_element.
  destruct (Dict.get w c) eqn:E; rewrite total_set, E; lia.
Qed.

Lemma total_fold (words : list string) (c : counter) :
  total (fold_left count_element words c)
  = (total c + Z.of_nat (List.length words))%Z.
Proof.
  revert c.
  induction words as [|w words IH]; intros c; simpl List.length; simpl fold_left.
  - lia.
  - rewrite IH, total_count_element. lia.
Qed.

Lemma total_Counter (words : list string) :
  total (Counter words) = Z.of_nat (List.length words).
Proof. unfold Counter. now rewrite total_fold. Qed.

Lemma positive_set (w : string) (n : Z) (c : counter) :
  (1 <= n)%Z -> positive c -> positive (Dict.set w n c).
Proof.
  intros Hn. unfold positive.
  induction c as [|[k v] c IH]; simpl; intros Hc.
  - now repeat constructor.
  - inversion Hc; subst.
    destruct (String.eqb w k); constructor; auto.
Qed.

Lemma positive_get (w : string) (n : Z) (c : counter) :
  positive c -> Dict.get w c = Some n -> (1 <= n)%Z.
Proof.
  intros Hc Hg. apply get_Some_In in Hg.
  unfold positive in Hc. rewrite Forall_forall in Hc.
  exact (Hc _ Hg).
Qed.

Lemma positive_count_element (c : counter) (w : string) :
  positive c -> positive (count_element c w).
Proof.
  intros Hc. unfold count_element.
  destruct (Dict.get w c) eqn:E.
  - apply positive_set; [|exact Hc]. pose proof (positive_get _ _ _ Hc E). lia.
  - apply positive_set; [lia | exact Hc].
Qed.

Lemma keys_count_element (c : counter) (w w' : string) :
  In w' (Dict.keys (count_element c w)) <-> w' = w \/ In w' (Dict.keys c).
Proof.
  unfold count_element. destruct (Dict.get w c); apply in_keys_set.
Qed.

Lemma nodup_count_element (c : counter) (w : string) :
  NoDup (Dict.keys c) -> NoDup (Dict.keys (count_element c w)).
Proof.
  unfold count_element. destruct (Dict.get w c); apply nodup_keys_set.
Qed.

Lemma Counter_fold_invariants (words : list string) (c : counter) :
  positive c -> NoDup (Dict.keys c) ->
  let c' := fold_left count_element words c in
  positive c' /\ NoDup (Dict.keys c')
  /\ forall w, In w (Dict.keys c') <-> In w (Dict.keys c) \/ In w words.
Proof.
  revert c.
  induction words as [|w words IH]; intros c Hpos Hnd; simpl.
  - repeat split; auto; tauto.
  - destruct (IH (count_element c w)) as (Hp & Hn & Hk).
    + now apply positive_count_element.
    + now apply nodup_count_element.
    + repeat split; auto.
      * intros H. apply Hk in H. rewrite keys_count_element in H. intuition.
      * intros H. apply Hk. rewrite keys_count_element. intuition.
  Qed.

Lemma Counter_invariants (words : list string) :
  positive (Counter words) /\ NoDup (Dict.keys (Counter words))
  /\ forall w, In w (Dict.keys (Counter words)) <-> In w words.
Proof.
  destruct (Counter_fold_invariants words Dict.empty) as (Hp & Hn & Hk).
  - constructor.
  - constructor.
  - repeat split; auto.
    + intros H. apply Hk in H. simpl in H. tauto.
    + intros H. apply Hk. now right.
Qed.

(** The count of a word is the number of its occurrences. *)
Lemma get_fold_count (words : list string) (c : counter) (w : string) :
  Dict.get w (fold_left count_element words c)
  = match Dict.get w c, count_occ string_dec words w with
    | None, O => None
    | None, n => Some (Z.of_nat n)
    | Some m, n => Some (m + Z.of_nat n)%Z
    end.
Proof.
  revert c.
  induction words as [|x words IH]; intros c; simpl fold_left; simpl count_occ.
  - destruct (Dict.get w c); [f_equal; simpl; lia | reflexivity].
  - rewrite IH. unfold count_element.
    destruct (string_dec x w) as [->|Hne].
    + destruct (Dict.get w c) eqn:E; rewrite get_set_same.
      * f_equal. lia.
      * f_equal. lia.
    + destruct (Dict.get x c) eqn:E; rewrite get_set_other by exact Hne; reflexivity.
Qed.

Lemma get_Counter (words : list string) (w : string) :
  Dict.get w (Counter words)
  = match count_occ string_dec words w with
    | O => None
    | n => Some (Z.of_nat n)
    end.
Proof. unfold Counter. now rewrite get_fold_count. Qed.

(** ** Strings *)

Lemma lower_char_idempotent (c : ascii) :
  PyStr.lower_char (PyStr.lower_char c) = PyStr.lower_char c.
Proof. destruct c as [[] [] [] [] [] [] [] []]; reflexivity. Qed.

Lemma chars_lower (s : string) (c : ascii) :
  In c (chars (PyStr.lower s)) -> PyStr.lower_char c = c.
Proof.
  unfold PyStr.lower, chars.
  induction s as [|a s IH]; simpl; [tauto|].
  intros [<-|H]; [apply lower_char_idempotent | auto].
Qed.

Lemma chars_filter_str (p : ascii -> bool) (s : string) (c : ascii) :
  In c (chars (PyStr.filter_str p s)) <-> In c (chars s) /\ p c = true.
Proof.
  unfold chars.
  induction s as [|a s IH]; simpl; [tauto|].
  destruct (p a) eqn:E; simpl; rewrite IH; intuition congruence.
Qed.

Lemma chars_rev_append (s acc : string) (c : ascii) :
  In c (chars (PyStr.rev_append s acc)) <-> In c (chars s) \/ In c (chars acc).
Proof.
  unfold chars. revert acc.
  induction s as [|a s IH]; intros acc; simpl; [tauto|].
  rewrite IH. simpl. tauto.
Qed.

Lemma chars_rev_append_list (s acc : string) :
  chars (PyStr.rev_append s acc) = List.rev (chars s) ++ chars acc.
Proof.
  unfold chars. revert acc.
  induction s as [|a s IH]; intros acc; simpl; [reflexivity|].
  rewrite IH. simpl. now rewrite <- app_assoc.
Qed.

Lemma chars_rev (s : string) : chars (PyStr.rev s) = List.rev (chars s).
Proof. unfold PyStr.rev. rewrite chars_rev_append_list. simpl. now rewrite app_nil_r. Qed.

Lemma chars_inj (s t : string) : chars s = chars t -> s = t.
Proof.
  unfold chars. intros H.
  rewrite <- (string_of_list_ascii_of_string s), <- (string_of_list_ascii_of_string t).
  now rewrite H.
Qed.

Lemma append_empty_r (s : string) : (s ++ EmptyString)%string = s.
Proof. induction s as [|a s IH]; simpl; [reflexivity | now rewrite IH]. Qed.

Lemma append_assoc_str (s t u : string) :
  ((s ++ t) ++ u)%string = (s ++ (t ++ u))%string.
Proof. induction s as [|a s IH]; simpl; [reflexivity | now rewrite IH]. Qed.

Lemma rev_append_nonempty (s : string) (a : ascii) (acc : string) :
  PyStr.rev_append s (String a acc) <> EmptyString.
Proof.
  revert a acc. induction s as [|b s IH]; intros a acc; simpl; [discriminate | apply IH].
Qed.

Lemma split_aux_tokens (s cur : string) :
  (forall c, In c (chars cur) -> PyStr.is_space c = false) ->
  Forall is_token (PyStr.split_aux s cur).
Proof.
  revert cur.
  induction s as [|a s IH]; intros cur Hcur; simpl.
  - destruct cur as [|b cur]; constructor; [|constructor].
    split; [apply rev_append_nonempty|].
    intros c Hc. apply chars_rev_append in Hc. destruct Hc as [Hc|[]]. auto.
  - destruct (PyStr.is_space a) eqn:E.
    + destruct cur as [|b cur].
      * apply IH. intros c [].
      * constructor; [|apply IH; intros c []].
        split; [apply rev_append_nonempty|].
        intros c Hc. apply chars_rev_append in Hc. destruct Hc as [Hc|[]]. auto.
    + apply IH. intros c [<-|Hc]; auto.
Qed.

Lemma split_tokens (s : string) : Forall is_token (PyStr.split s).
Proof. apply split_aux_tokens. intros c []. Qed.

Lemma rev_rev (s : string) : PyStr.rev (PyStr.rev s) = s.
Proof. apply chars_inj. rewrite !chars_rev. apply rev_involutive. Qed.

Lemma rev_nonempty (w : string) : w <> EmptyString -> PyStr.rev w <> EmptyString.
Proof.
  destruct w as [|a w]; [congruence|].
  intros _. unfold PyStr.rev. simpl. apply rev_append_nonempty.
Qed.

Lemma chars_map_str (f : ascii -> ascii) (s : string) :
  chars (PyStr.map_str f s) = map f (chars s).
Proof.
  unfold chars. induction s as [|a s IH]; simpl; [reflexivity | now rewrite IH].
Qed.

Lemma chars_filter_str_list (p : ascii -> bool) (s : string) :
  chars (PyStr.filter_str p s) = filter p (chars s).
Proof.
  unfold chars. induction s as [|a s IH]; simpl; [reflexivity|].
  destruct (p a); simpl; now rewrite IH.
Qed.

Lemma chars_append (s t : string) : chars (s ++ t) = chars s ++ chars t.
Proof.
  unfold chars. induction s as [|a s IH]; simpl; [reflexivity | now rewrite IH].
Qed.

Lemma chars_length (s : string) : List.length (chars s) = String.length s.
Proof.
  unfold chars. induction s as [|a s IH]; simpl; [reflexivity | now rewrite IH].
Qed.

Lemma all_str_spec (p : ascii -> bool) (s : string) :
  PyStr.all_str p s = true <-> forall c, In c (chars s) -> p c = true.
Proof.
  unfold chars. induction s as [|a s IH]; simpl.
  - split; [intros _ c [] | reflexivity].
  - rewrite andb_true_iff, IH. split.
    + intros [Ha Hs] c [<-|Hc]; auto.
    + intros H. split; [apply H; now left | intros c Hc; apply H; now right].
Qed.

Lemma isalpha_spec (w : string) :
  PyStr.isalpha w = true
  <-> w <> EmptyString /\ forall c, In c (chars w) -> PyStr.is_alpha c = true.
Proof.
  destruct w as [|a w].
  - simpl. split; [discriminate | intros [H _]; congruence].
  - unfold PyStr.isalpha. rewrite all_str_spec. split.
    + intros H. split; [discriminate | exact H].
    + intros [_ H]. exact H.
Qed.

(** A run of characters that are not whitespace is read into the token in
    progress. *)
Lemma split_aux_run (w s cur : string) :
  (forall c, In c (chars w) -> PyStr.is_space c = false) ->
  PyStr.split_aux (w ++ s) cur = PyStr.split_aux s (PyStr.rev_append w cur).
Proof.
  unfold chars. revert cur.
  induction w as [|a w IH]; intros cur Hw; simpl; [reflexivity|].
  rewrite (Hw a (or_introl eq_refl)). apply IH.
  intros c Hc. apply Hw. now right.
Qed.

Lemma split_empty : PyStr.split EmptyString = [].
Proof. reflexivity. Qed.

Lemma split_space (c : ascii) (s : string) :
  PyStr.is_space c = true -> PyStr.split (String c s) = PyStr.split s.
Proof. intros H. unfold PyStr.split. simpl. now rewrite H. Qed.

Lemma split_token (w : string) : is_token w -> PyStr.split w = [w].
Proof.
  intros [Hne Hw]. unfold PyStr.split.
  rewrite <- (append_empty_r w) at 1.
  rewrite (split_aux_run w EmptyString EmptyString Hw). simpl.
  fold (PyStr.rev w).
  destruct (PyStr.rev w) eqn:E; [now apply rev_nonempty in E|].
  rewrite <- E, rev_rev. reflexivity.
Qed.

Lemma split_token_space (w : string) (c : ascii) (s : string) :
  is_token w -> PyStr.is_space c = true ->
  PyStr.split (w ++ String c s) = w :: PyStr.split s.
Proof.
  intros [Hne Hw] Hc. unfold PyStr.split.
  rewrite (split_aux_run w (String c s) EmptyString Hw). simpl. rewrite Hc.
  fold (PyStr.rev w).
  destruct (PyStr.rev w) eqn:E; [now apply rev_nonempty in E|].
  rewrite <- E, rev_rev. reflexivity.
Qed.

Lemma split_splits_on_whitespace : splits_on_whitespace PyStr.split.
Proof.
  split; [exact split_empty|].
  split; [exact split_space|].
  split; [exact split_token | exact split_token_space].
Qed.

(** Every string is empty, begins with a whitespace character, is a token,
    or is a token followed by a whitespace character and a rest. *)
Lemma token_decomposition (s : string) :
  s = EmptyString
  \/ (exists c s', s = String c s' /\ PyStr.is_space c = true)
  \/ is_token s
  \/ (exists w c s', s = (w ++ String c s')%string
                     /\ is_token w /\ PyStr.is_space c = true).
Proof.
  induction s as [|a s IH]; [now left|].
  right. destruct (PyStr.is_space a) eqn:Ea; [left; eauto|].
  right.
  assert (Hone : is_token (String a EmptyString)).
  { split; [discriminate|]. intros c [<-|[]]. exact Ea. }
  destruct IH as [->|[(c & s' & -> & Hc)|[[Hne Hs]|(w & c & s' & -> & [Hne Hw] & Hc)]]].
  - now left.
  - right. exists (String a EmptyString), c, s'. repeat split; auto; apply Hone.
  - left. split; [discriminate|]. intros c [<-|Hc]; auto.
  - right. exists (String a w), c, s'. split; [reflexivity|]. split; [|exact Hc].
    split; [discriminate|]. intros c' [<-|Hc']; auto.
Qed.

(** The four equations of [splits_on_whitespace] leave no choice. *)
Lemma splits_on_whitespace_unique (f : string -> list string) :
  splits_on_whitespace f -> forall s, f s = PyStr.split s.
Proof.
  intros (F0 & F1 & F2 & F3).
  assert (H : forall n s, (String.length s <= n)%nat -> f s = PyStr.split s).
  { induction n as [|n IH]; intros s Hlen.
    - destruct s; [|simpl in Hlen; lia]. rewrite F0. reflexivity.
    - destruct (token_decomposition s)
        as [->|[(c & s' & -> & Hc)|[Ht|(w & c & s' & -> & Ht & Hc)]]].
      + rewrite F0. reflexivity.
      + rewrite (F1 c s' Hc), (split_space c s' Hc). apply IH.
        simpl in Hlen. lia.
      + rewrite (F2 s Ht), (split_token s Ht). reflexivity.
      + rewrite (F3 w c s' Ht Hc), (split_token_space w c s' Ht Hc). f_equal.
        apply IH. rewrite <- chars_length, chars_append, length_app in Hlen.
        simpl in Hlen. rewrite chars_length in Hlen. rewrite <- chars_length. 
        change (chars (String c s')) with (c :: chars s') in Hlen.
        simpl in Hlen. lia. }
  intros s. apply (H (String.length s)). lia.
Qed.

Lemma existsb_eqb_In (w : string) (l : list string) :
  existsb (String.eqb w) l = true <-> In w l.
Proof.
  rewrite existsb_exists. split.
  - intros (x & Hx & E). apply String.eqb_eq in E. now subst.
  - intros H. exists w. split; [exact H | apply String.eqb_refl].
Qed.

Lemma filter_words_spec (raw : string) (stop_words : list string) (w : string) :
  In w (filter_words raw (AList stop_words))
  <-> In w (PyStr.split raw) /\ PyStr.isalpha w = true /\ ~ In w stop_words.
Proof.
  unfold filter_words, keep_word. rewrite filter_In, andb_true_iff, negb_true_iff.
  simpl py_in. pose proof (existsb_eqb_In w stop_words) as Hs.
  destruct (existsb (String.eqb w) stop_words).
  - split; intros (H1 & H2 & H3); [discriminate|].
    exfalso. apply H3, Hs. reflexivity.
  - split; intros (H1 & H2 & H3); repeat split; auto.
    intros Hin. apply Hs in Hin. discriminate.
Qed.

(** * The parsers *)

(** C1. For every document parsed by the plain-text parser or by the
    paginated parser, the counts of the returned ['wordcount'] map sum to
    the returned ['num_words']. *)
Theorem wordcount_sums_to_num_words :
  forall (fs : filesystem) (filename : string) (stop_words : pyarg)
         (results : Dict.t pyval),
    simple_text_parser fs filename stop_words = Ok results
    \/ pdf_parser fs filename stop_words = Ok results ->
    exists (wc : counter) (n : Z),
      Dict.get "wordcount" results = Some (VCounter wc)
      /\ Dict.get "num_words" results = Some (VInt n)
      /\ total wc = n.
Proof.
  intros fs filename stop_words results [H|H].
  - unfold simple_text_parser in H.
    destruct (open_read fs filename) as [content|e]; simpl in H; [|discriminate].
    injection H as <-.
    eexists. eexists. repeat split. apply total_Counter.
  - unfold pdf_parser in H.
    destruct (load_stop_words fs stop_words) as [sw|e]; simpl in H; [|discriminate].
    destruct (pdf_open fs filename) as [pages|e]; simpl in H; [|discriminate].
    injection H as <-.
    eexists. eexists. repeat split. apply total_Counter.
Qed.

Lemma wordcount_sums_to_num_words_witness :
  (exists (wc : counter) (n : Z),
      Dict.get "wordcount"
        [("wordcount", VCounter [("hello", 1%Z); ("world", 1%Z)]); ("num_words", VInt 2)]
      = Some (VCounter wc)
      /\ Dict.get "num_words"
           [("wordcount", VCounter [("hello", 1%Z); ("world", 1%Z)]); ("num_words", VInt 2)]
         = Some (VInt n)
      /\ total wc = n)
  /\ (exists (wc : counter) (n : Z),
      Dict.get "wordcount"
        [("wordcount", VCounter [("cat", 2%Z); ("sat", 1%Z); ("a", 1%Z); ("ran", 1%Z); ("mat", 1%Z)]);
         ("num_words", VInt 6); ("num_pages", VInt 4);
         ("raw_text", VStr ("the cat sat" ++ LF ++ "a cat ran on the mat" ++ LF)%string)]
      = Some (VCounter wc)
      /\ Dict.get "num_words"
        [("wordcount", VCounter [("cat", 2%Z); ("sat", 1%Z); ("a", 1%Z); ("ran", 1%Z); ("mat", 1%Z)]);
         ("num_words", VInt 6); ("num_pages", VInt 4);
         ("raw_text", VStr ("the cat sat" ++ LF ++ "a cat ran on the mat" ++ LF)%string)]
         = Some (VInt n)
      /\ total wc = n).
Proof.
  split.
  - apply (wordcount_sums_to_num_words demo_fs "hello.txt" (AList [])).
    left. vm_compute. reflexivity.
  - apply (wordcount_sums_to_num_words demo_fs "script.pdf" (AStr "stop_words.txt")).
    right. vm_compute. reflexivity.
Defined.

(** C10. For every document parsed by either parser, every entry of the
    returned ['wordcount'] map has a count of at least 1, no key occurs
    twice, and the keys are exactly the tokens that survived filtering
    (each with the number of its occurrences as count).  The surviving
    tokens are written out: the lowercased text without punctuation, split,
    and filtered by [keep_word]. *)
Theorem wordcount_keys_are_surviving_tokens :
  (forall (fs : filesystem) (filename : string) (stop_words : pyarg) (content : string),
      text_file fs filename = Some content ->
      let words :=
        filter_words (PyStr.remove_punctuation (PyStr.lower content)) stop_words in
      exists (results : Dict.t pyval) (wc : counter),
        simple_text_parser fs filename stop_words = Ok results
        /\ Dict.get "wordcount" results = Some (VCounter wc)
        /\ (forall w n, In (w, n) wc -> (1 <= n)%Z)
        /\ NoDup (Dict.keys wc)
        /\ (forall w, In w (Dict.keys wc) <-> In w words)
        /\ (forall w, In w words ->
                      Dict.get w wc = Some (Z.of_nat (count_occ string_dec words w))))
  /\
  (forall (fs : filesystem) (filename : string) (stopfile : pyarg)
          (sw : list string) (pages : list (option string)),
      load_stop_words fs stopfile = Ok sw ->
      pdf_pages fs filename = Some pages ->
      let words :=
        filter_words (PyStr.remove_punctuation (PyStr.lower (concat_pages pages)))
          (AList sw) in
      exists (results : Dict.t pyval) (wc : counter),
        pdf_parser fs filename stopfile = Ok results
        /\ Dict.get "wordcount" results = Some (VCounter wc)
        /\ (forall w n, In (w, n) wc -> (1 <= n)%Z)
        /\ NoDup (Dict.keys wc)
        /\ (forall w, In w (Dict.keys wc) <-> In w words)
        /\ (forall w, In w words ->
                      Dict.get w wc = Some (Z.of_nat (count_occ string_dec words w)))).
Proof.
  assert (Hcounter : forall words : list string,
             (forall w n, In (w, n) (Counter words) -> (1 <= n)%Z)
             /\ NoDup (Dict.keys (Counter words))
             /\ (forall w, In w (Dict.keys (Counter words)) <-> In w words)
             /\ (forall w, In w words ->
                   Dict.get w (Counter words)
                   = Some (Z.of_nat (count_occ string_dec words w)))).
  { intros words.
    destruct (Counter_invariants words) as (Hpos & Hnd & Hkeys).
    repeat split.
    - intros w n Hin. unfold positive in Hpos. rewrite Forall_forall in Hpos.
      exact (Hpos _ Hin).
    - exact Hnd.
    - apply Hkeys.
    - apply Hkeys.
    - intros w Hin. rewrite get_Counter.
      apply (count_occ_In string_dec) in Hin.
      destruct (count_occ string_dec words w); [lia | reflexivity]. }
  split.
  - intros fs filename stop_words content Hfile words.
    unfold simple_text_parser, open_read. rewrite Hfile. simpl.
    eexists. eexists. split; [reflexivity|]. split; [reflexivity|].
    apply Hcounter.
  - intros fs filename stopfile sw pages Hsw Hpdf words.
    unfold pdf_parser, pdf_open. rewrite Hsw, Hpdf. simpl.
    eexists. eexists. split; [reflexivity|]. split; [reflexivity|].
    apply Hcounter.
Qed.

Lemma wordcount_keys_are_surviving_tokens_witness :
  (exists (results : Dict.t pyval) (wc : counter),
      simple_text_parser demo_fs "a.txt" (AList ["the"]) = Ok results
      /\ Dict.get "wordcount" results = Some (VCounter wc)
      /\ (forall w n, In (w, n) wc -> (1 <= n)%Z)
      /\ NoDup (Dict.keys wc)
      /\ (forall w, In w (Dict.keys wc) <-> In w ["cat"; "sat"; "on"; "mat"])
      /\ (forall w, In w ["cat"; "sat"; "on"; "mat"] ->
            Dict.get w wc
            = Some (Z.of_nat (count_occ string_dec ["cat"; "sat"; "on"; "mat"] w))))
  /\
  (exists (results : Dict.t pyval) (wc : counter),
      pdf_parser demo_fs "script.pdf" (AStr "stop_words.txt") = Ok results
      /\ Dict.get "wordcount" results = Some (VCounter wc)
      /\ (forall w n, In (w, n) wc -> (1 <= n)%Z)
      /\ NoDup (Dict.keys wc)
      /\ (forall w, In w (Dict.keys wc) <-> In w ["cat"; "sat"; "a"; "cat"; "ran"; "mat"])
      /\ (forall w, In w ["cat"; "sat"; "a"; "cat"; "ran"; "mat"] ->
            Dict.get w wc
            = Some (Z.of_nat
                      (count_occ string_dec ["cat"; "sat"; "a"; "cat"; "ran"; "mat"] w)))).
Proof.
  split.
  - apply (proj1 wordcount_keys_are_surviving_tokens
             demo_fs "a.txt" (AList ["the"]) "the cat sat on the mat").
    reflexivity.
  - apply (proj2 wordcount_keys_are_surviving_tokens
             demo_fs "script.pdf" (AStr "stop_words.txt") ["the"; "on"]
             [Some "The Cat sat."; None; Some ""; Some "A cat ran, on the mat!"]).
    + vm_compute. reflexivity.
    + reflexivity.
Defined.

Lemma chars_lower_image (s : string) (c : ascii) :
  In c (chars s) -> In (PyStr.lower_char c) (chars (PyStr.lower s)).
Proof.
  unfold PyStr.lower, chars.
  induction s as [|a s IH]; simpl; [tauto|].
  intros [->|H]; [now left | right; auto].
Qed.

(** C7. The plain-text parser counts the tokens of the normalized text.
    The text is lowercased (no character is left that [lower] would change)
    and loses the characters of [string.punctuation] and nothing else: its
    characters are the lowercased characters of the content, in order,
    without those of [string.punctuation].  It is split on whitespace into
    non-empty runs without whitespace: [split] satisfies the four equations
    of [splits_on_whitespace], and it is the only function that does.  A
    token is kept iff it is alphabetic (not empty, letters only) and not
    among the stop words.  On ["Hello, World! 123"] with no stop word the
    tokens are [hello] and [world], and [num_words] is 2. *)
Theorem normalizer_contract :
  (forall (fs : filesystem) (filename content : string) (stop_words : list string),
      text_file fs filename = Some content ->
      let text := PyStr.remove_punctuation (PyStr.lower content) in
      let tokens := filter_words text (AList stop_words) in
      simple_text_parser fs filename (AList stop_words)
      = Ok [("wordcount", VCounter (Counter tokens));
            ("num_words", VInt (Z.of_nat (List.length tokens)))]
      /\ (forall c, In c (chars text) ->
                    PyStr.lower_char c = c /\ PyStr.is_punct c = false)
      /\ (forall c, In c (chars content) ->
                    PyStr.is_punct (PyStr.lower_char c) = false ->
                    In (PyStr.lower_char c) (chars text))
      /\ Forall is_token (PyStr.split text)
      /\ (forall w, In w tokens
                    <-> In w (PyStr.split text)
                        /\ PyStr.isalpha w = true /\ ~ In w stop_words)
      /\ chars text
         = filter (fun c => negb (PyStr.is_punct c))
             (map PyStr.lower_char (chars content))
      /\ tokens
         = filter (fun w => (PyStr.isalpha w
                             && negb (existsb (String.eqb w) stop_words))%bool)
             (PyStr.split text))
  /\ splits_on_whitespace PyStr.split
  /\ (forall f : string -> list string,
         splits_on_whitespace f -> forall s, f s = PyStr.split s)
  /\ (forall w, PyStr.isalpha w = true
                <-> w <> EmptyString
                    /\ forall c, In c (chars w) -> PyStr.is_alpha c = true)
  /\ PyStr.split (PyStr.remove_punctuation (PyStr.lower "Hello, World! 123"))
     = ["hello"; "world"; "123"]
  /\ filter_words (PyStr.remove_punctuation (PyStr.lower "Hello, World! 123")) (AList [])
     = ["hello"; "world"]
  /\ simple_text_parser demo_fs "hello.txt" (AList [])
     = Ok [("wordcount", VCounter [("hello", 1%Z); ("world", 1%Z)]);
           ("num_words", VInt 2)].
Proof.
  split; [|split; [exact split_splits_on_whitespace|];
           split; [exact splits_on_whitespace_unique|];
           split; [exact isalpha_spec|];
           split; [|split]; reflexivity].
  intros fs filename content stop_words Hfile text tokens.
  split; [|split; [|split; [|split; [|split; [|split]]]]].
  - unfold simple_text_parser, open_read. rewrite Hfile. reflexivity.
  - intros c Hc. unfold text, PyStr.remove_punctuation in Hc.
    apply chars_filter_str in Hc. destruct Hc as [Hc Hp].
    split; [eapply chars_lower; exact Hc | now apply negb_true_iff].
  - intros c Hc Hp. unfold text, PyStr.remove_punctuation.
    apply chars_filter_str. split; [now apply chars_lower_image | now rewrite Hp].
  - apply split_tokens.
  - intros w. apply filter_words_spec.
  - unfold text, PyStr.remove_punctuation, PyStr.lower.
    now rewrite chars_filter_str_list, chars_map_str.
  - reflexivity.
Qed.

Lemma normalizer_contract_witness :
  (let text := PyStr.remove_punctuation (PyStr.lower "the cat sat on the mat") in
   let tokens := filter_words text (AList ["the"]) in
   simple_text_parser demo_fs "a.txt" (AList ["the"])
   = Ok [("wordcount", VCounter (Counter tokens));
         ("num_words", VInt (Z.of_nat (List.length tokens)))]
   /\ (forall c, In c (chars text) ->
                 PyStr.lower_char c = c /\ PyStr.is_punct c = false)
   /\ (forall c, In c (chars "the cat sat on the mat") ->
                 PyStr.is_punct (PyStr.lower_char c) = false ->
                 In (PyStr.lower_char c) (chars text))
   /\ Forall is_token (PyStr.split text)
   /\ (forall w, In w tokens
                 <-> In w (PyStr.split text)
                     /\ PyStr.isalpha w = true /\ ~ In w ["the"])
   /\ chars text
      = filter (fun c => negb (PyStr.is_punct c))
          (map PyStr.lower_char (chars "the cat sat on the mat"))
   /\ tokens
      = filter (fun w => (PyStr.isalpha w
                          && negb (existsb (String.eqb w) ["the"]))%bool)
          (PyStr.split text))
  /\ (fun s => PyStr.split_aux s EmptyString) " The  cat " = PyStr.split " The  cat ".
Proof.
  split.
  - apply (proj1 normalizer_contract demo_fs "a.txt" "the cat sat on the mat" ["the"]).
    reflexivity.
  - apply (proj1 (proj2 (proj2 normalizer_contract))
             (fun s => PyStr.split_aux s EmptyString)).
    exact (proj1 (proj2 normalizer_contract)).
Defined.

(** * The corpus store *)

Lemma data_store_ok (k label : string) (v : pyval) (data : corpus) :
  fst (data_store k label v data) = Ok tt.
Proof.
  unfold data_store, data_getitem. now destruct (Dict.get k data).
Qed.

Lemma entry_data_store (k label : string) (v : pyval) (data : corpus) (k' l' : string) :
  entry (snd (data_store k label v data)) k' l'
  = if (String.eqb k k' && String.eqb label l')%bool then Some v else entry data k' l'.
Proof.
  unfold data_store, data_getitem, entry.
  destruct (Dict.get k data) as [inner|] eqn:E; simpl; rewrite !get_set.
  - destruct (String.eqb_spec k k') as [<-|Hk]; simpl.
    + rewrite get_set, E. reflexivity.
    + reflexivity.
  - destruct (String.eqb_spec k k') as [<-|Hk]; simpl.
    + simpl. rewrite (String.eqb_sym l' label), E.
      destruct (String.eqb label l'); reflexivity.
    + reflexivity.
Qed.

Lemma store_results_ok (label : string) (results : Dict.t pyval) (data : corpus) :
  fst (store_results label results data) = Ok tt.
Proof.
  revert data. induction results as [|[k v] rest IH]; intros data; simpl.
  - reflexivity.
  - unfold bind. pose proof (data_store_ok k label v data) as H.
    destruct (data_store k label v data) as [[[]|e] data']; simpl in H; [apply IH | discriminate].
Qed.

Lemma store_results_step (label k : string) (v : pyval) (rest : Dict.t pyval)
    (data : corpus) :
  store_results label ((k, v) :: rest) data
  = store_results label rest (snd (data_store k label v data)).
Proof.
  simpl. unfold bind. pose proof (data_store_ok k label v data) as H.
  destruct (data_store k label v data) as [[[]|e] data']; simpl in *; [reflexivity | discriminate].
Qed.

(** Other labels are not touched. *)
Lemma store_results_other (label : string) (results : Dict.t pyval) (data : corpus)
    (k l : string) :
  l <> label ->
  entry (snd (store_results label results data)) k l = entry data k l.
Proof.
  intros Hl. revert data.
  induction results as [|[k0 v0] rest IH]; intros data.
  - reflexivity.
  - rewrite store_results_step, IH, entry_data_store.
    destruct (String.eqb_spec label l) as [->|_]; [congruence|].
    now rewrite andb_false_r.
Qed.

(** Under the label, each statistic of the results is written and the
    others are left as they were. *)
Lemma store_results_same (label : string) (results : Dict.t pyval) (data : corpus)
    (k : string) :
  NoDup (Dict.keys results) ->
  entry (snd (store_results label results data)) k label
  = match Dict.get k results with
    | Some v => Some v
    | None => entry data k label
    end.
Proof.
  revert data.
  induction results as [|[k0 v0] rest IH]; intros data Hnd.
  - reflexivity.
  - simpl in Hnd. inversion Hnd as [|? ? Hnotin Hnd']; subst.
    rewrite store_results_step, IH by exact Hnd'.
    simpl Dict.get.
    destruct (String.eqb_spec k k0) as [->|Hk].
    + apply get_None_keys in Hnotin. rewrite Hnotin.
      rewrite entry_data_store, !String.eqb_refl. reflexivity.
    + destruct (Dict.get k rest); [reflexivity|].
      rewrite entry_data_store.
      destruct (String.eqb_spec k0 k) as [->|_]; [congruence | reflexivity].
Qed.

Lemma load_text_with_parser (fs : filesystem) (filename : string) (label : option string)
    (stop_words : option pyarg) (parser : parser_fn) (sw : pyarg)
    (results : Dict.t pyval) (data : corpus) :
  stop_words_or_default fs stop_words = Ok sw ->
  parser filename sw = Ok results ->
  load_text fs filename label stop_words (Some parser) data
  = store_results (match label with None => filename | Some l => l end) results data.
Proof.
  intros Hsw Hp. unfold load_text, bind, lift. rewrite Hsw, Hp. reflexivity.
Qed.

(** C6. Registering a document under a label, used before or not, records
    under that label every statistic the new parse produced, and leaves
    the entries of every other label unchanged under every statistic. *)
Theorem load_text_overwrites_label_only :
  forall (fs : filesystem) (filename : string) (label : option string)
         (stop_words : option pyarg) (parser : parser_fn) (sw : pyarg)
         (results : Dict.t pyval) (data : corpus),
    stop_words_or_default fs stop_words = Ok sw ->
    parser filename sw = Ok results ->
    NoDup (Dict.keys results) ->
    let name := match label with None => filename | Some l => l end in
    exists data' : corpus,
      load_text fs filename label stop_words (Some parser) data = (Ok tt, data')
      /\ (forall k v, Dict.get k results = Some v -> entry data' k name = Some v)
      /\ (forall k l, l <> name -> entry data' k l = entry data k l).
Proof.
  intros fs filename label stop_words parser sw results data Hsw Hp Hnd name.
  rewrite (load_text_with_parser _ _ _ _ _ _ _ _ Hsw Hp). fold name.
  exists (snd (store_results name results data)).
  split; [|split].
  - pose proof (store_results_ok name results data) as H.
    destruct (store_results name results data) as [[[]|e] d]; simpl in *;
      [reflexivity | discriminate].
  - intros k v Hk. rewrite store_results_same by exact Hnd. now rewrite Hk.
  - intros k l Hl. now apply store_results_other.
Qed.

(** A statistic the new parse did not produce keeps, under the label, the
    value of the earlier registration. *)
Lemma load_text_keeps_unproduced_statistics :
  forall (fs : filesystem) (filename : string) (label : option string)
         (stop_words : option pyarg) (parser : parser_fn) (sw : pyarg)
         (results : Dict.t pyval) (data : corpus) (k : string),
    stop_words_or_default fs stop_words = Ok sw ->
    parser filename sw = Ok results ->
    NoDup (Dict.keys results) ->
    Dict.get k results = None ->
    let name := match label with None => filename | Some l => l end in
    entry (snd (load_text fs filename label stop_words (Some parser) data)) k name
    = entry data k name.
Proof.
  intros fs filename label stop_words parser sw results data k Hsw Hp Hnd Hk name.
  rewrite (load_text_with_parser _ _ _ _ _ _ _ _ Hsw Hp). fold name.
  rewrite store_results_same by exact Hnd. now rewrite Hk.
Qed.

Lemma load_text_overwrites_label_only_witness :
  exists data' : corpus,
    load_text demo_fs "hello.txt" (Some "H") (Some (AList []))
      (Some (simple_text_parser demo_fs)) demo_corpus = (Ok tt, data')
    /\ (forall k v,
           Dict.get k [("wordcount", VCounter [("hello", 1%Z); ("world", 1%Z)]);
                       ("num_words", VInt 2)] = Some v ->
           entry data' k "H" = Some v)
    /\ (forall k l, l <> "H" -> entry data' k l = entry demo_corpus k l).
Proof.
  apply (load_text_overwrites_label_only demo_fs "hello.txt" (Some "H")
           (Some (AList [])) (simple_text_parser demo_fs) (AList [])
           [("wordcount", VCounter [("hello", 1%Z); ("world", 1%Z)]);
            ("num_words", VInt 2)] demo_corpus).
  - reflexivity.
  - reflexivity.
  - repeat constructor; simpl; intuition discriminate.
Defined.

(** C4. A registration without a parser calls [simple_text_parser] with the
    file name alone (line 93), which the two-parameter signature rejects:
    the call raises and nothing is merged into the corpus.  The fault is
    [TypeError], unless loading the default stop words already failed. *)
Theorem load_text_without_parser_raises :
  (forall (fs : filesystem) (filename : string) (label : option string)
          (stop_words : option pyarg) (data : corpus),
      load_text fs filename label stop_words None data
      = (Err match stop_words_or_default fs stop_words with
             | Ok _ => TypeError
             | Err e => e
             end,
         data))
  /\ load_text demo_fs "hello.txt" None None None Dict.empty
     = (Err TypeError, Dict.empty)
  /\ load_text demo_fs "hello.txt" (Some "H") (Some (AList [])) None demo_corpus
     = (Err TypeError, demo_corpus).
Proof.
  split; [|split; reflexivity].
  intros fs filename label stop_words data.
  unfold load_text, bind, lift.
  destruct (stop_words_or_default fs stop_words); reflexivity.
Qed.

(** * Top-k selection *)

Lemma insert_desc_perm (x : string * Z) (l : list (string * Z)) :
  Permutation (insert_desc x l) (x :: l).
Proof.
  induction l as [|y l IH]; simpl.
  - apply Permutation_refl.
  - destruct (snd x <? snd y)%Z.
    + apply perm_trans with (y :: x :: l); [now apply perm_skip | apply perm_swap].
    + apply Permutation_refl.
Qed.

Lemma sorted_desc_perm (c : counter) : Permutation (sorted_desc c) c.
Proof.
  unfold sorted_desc.
  induction c as [|x c IH]; simpl.
  - apply perm_nil.
  - apply perm_trans with (x :: fold_right insert_desc [] c).
    + apply insert_desc_perm.
    + now apply perm_skip.
Qed.

Lemma sorted_desc_length (c : counter) :
  List.length (sorted_desc c) = List.length c.
Proof. apply Permutation_length, sorted_desc_perm. Qed.

Lemma insert_desc_descending (x : string * Z) (l : list (string * Z)) :
  descending l -> descending (insert_desc x l).
Proof.
  induction l as [|y l IH]; simpl; [tauto|].
  intros [Hy Hl].
  destruct (snd x <? snd y)%Z eqn:E.
  - simpl. split; [|now apply IH].
    destruct l as [|z l]; simpl.
    + apply Z.ltb_lt in E. lia.
    + destruct (snd x <? snd z)%Z; [exact Hy | apply Z.ltb_lt in E; lia].
  - simpl. apply Z.ltb_ge in E. tauto.
Qed.

Lemma sorted_desc_descending (c : counter) : descending (sorted_desc c).
Proof.
  unfold sorted_desc.
  induction c as [|x c IH]; simpl; [exact I | now apply insert_desc_descending].
Qed.

Lemma most_common_all (k : Z) (c : counter) :
  (Z.of_nat (List.length c) <= k)%Z -> most_common k c = sorted_desc c.
Proof.
  intros Hk. unfold most_common.
  destruct (k <=? 0)%Z eqn:E.
  - apply Z.leb_le in E.
    destruct c as [|x c]; [reflexivity | simpl List.length in Hk; lia].
  - apply firstn_all2. rewrite sorted_desc_length. lia.
Qed.

Lemma slice_to_all {A : Type} (k : Z) (l : list A) :
  (Z.of_nat (List.length l) <= k)%Z -> slice_to k l = l.
Proof.
  intros Hk. unfold slice_to.
  destruct (0 <=? k)%Z eqn:E.
  - apply firstn_all2. lia.
  - apply Z.leb_gt in E. lia.
Qed.

Lemma data_getitem_present (k : string) (data : corpus) (d : Dict.t pyval) :
  Dict.get k data = Some d -> data_getitem k data = (Ok d, data).
Proof. intros H. unfold data_getitem. now rewrite H. Qed.

Lemma top_words_loop_spec (k : Z) (data : corpus) (wordcounts : Dict.t pyval)
    (files : list string) :
  Dict.get "wordcount" data = Some wordcounts ->
  (forall label, In label files ->
                 exists c, Dict.get label wordcounts = Some (VCounter c)) ->
  forall acc : Dict.t (list string),
  exists top_words_per_file : Dict.t (list string),
    top_words_loop k files acc data = (Ok top_words_per_file, data)
    /\ (forall label c,
           In label files ->
           Dict.get label wordcounts = Some (VCounter c) ->
           Dict.get label top_words_per_file = Some (map fst (most_common k c)))
    /\ (forall label,
           ~ In label files ->
           Dict.get label top_words_per_file = Dict.get label acc).
Proof.
  intros Hwc.
  induction files as [|label rest IH]; intros Hfiles acc.
  - exists acc. simpl. repeat split; tauto.
  - destruct (Hfiles label (or_introl eq_refl)) as [c Hc].
    destruct (IH (fun l Hl => Hfiles l (or_intror Hl))
                (Dict.set label (map fst (most_common k c)) acc))
      as (tw & Hrun & Hin & Hout).
    exists tw. split; [|split].
    + simpl. unfold bind, lift, getitem.
      rewrite (data_getitem_present _ _ _ Hwc), Hc. simpl. exact Hrun.
    + intros l c' [<-|Hl] Hc'.
      * destruct (in_dec string_dec label rest) as [Hr|Hr]; [now apply Hin|].
        rewrite (Hout _ Hr), get_set_same. congruence.
      * now apply Hin.
    + intros l Hl. simpl in Hl.
      rewrite Hout by tauto. apply get_set_other. intros ->. tauto.
Qed.

(** * The complexity heatmap *)

Lemma data_getitem_stat (k : string) (data : corpus) :
  exists data' : corpus,
    data_getitem k data = (Ok (stat data k), data')
    /\ forall k', stat data' k' = stat data k'.
Proof.
  unfold data_getitem, stat.
  destruct (Dict.get k data) as [d|] eqn:E.
  - exists data. split; reflexivity.
  - exists (Dict.set k Dict.empty data). split; [reflexivity|].
    intros k'. rewrite get_set.
    destruct (String.eqb_spec k k') as [<-|Hne]; [now rewrite E | reflexivity].
Qed.

Lemma data_getitem_recorded (k : string) (data : corpus) :
  exists data' : corpus,
    data_getitem k data = (Ok (stat data k), data')
    /\ Dict.get k data' = Some (stat data k).
Proof.
  unfold data_getitem, stat.
  destruct (Dict.get k data) as [d|] eqn:E.
  - exists data. split; [reflexivity | exact E].
  - exists (Dict.set k Dict.empty data). split; [reflexivity | apply get_set_same].
Qed.

Lemma documents_stat (data : corpus) :
  Dict.keys (stat data "wordcount") = documents data.
Proof. unfold documents, stat. now destruct (Dict.get "wordcount" data). Qed.

Section HeatmapFacts.

Variable grade : string -> Q.
Variable poly : string -> Z.

Lemma row_of_ext (d1 d2 : corpus) (label : string) :
  (forall k, stat d1 k = stat d2 k) -> row_of grade poly d1 label = row_of grade poly d2 label.
Proof. intros H. unfold row_of. now rewrite !H. Qed.

Lemma gather_row_spec (label : string) (data : corpus) :
  exists data' : corpus,
    gather_row grade poly label data = (row_of grade poly data label, data')
    /\ forall k, stat data' k = stat data k.
Proof.
  unfold gather_row, row_of, bind, lift.
  destruct (data_getitem_stat "wordcount" data) as (d1 & -> & H1).
  destruct (getitem label (stat data "wordcount")) as [wordcount|e]; simpl;
    [|exists d1; split; [reflexivity | exact H1]].
  destruct (distinct_words_text wordcount) as [text|e]; simpl;
    [|exists d1; split; [reflexivity | exact H1]].
  destruct (data_getitem_stat "num_words" d1) as (d2 & -> & H2).
  exists d2. split.
  - unfold ret, get_flesch_kindcaid_grade, get_polysyllable_count. now rewrite H1.
  - intros k. now rewrite H2, H1.
Qed.

Lemma heatmap_loop_labels (todo : list string) :
  forall (data : list row) (labels : list string) (normalized : option (list (Q * Q * Q)))
         (c c' : corpus) (out : list string * option (list (Q * Q * Q))),
    heatmap_loop grade poly todo data labels normalized c = (Ok out, c') ->
    fst out = labels ++ todo.
Proof.
  induction todo as [|label rest IH]; intros data labels normalized c c' out H.
  - simpl in H. injection H as <- _. simpl. now rewrite app_nil_r.
  - simpl in H. unfold bind, lift in H.
    destruct (gather_row grade poly label c) as [[item|e] c1]; [|discriminate].
    destruct (normalize (data ++ [item])) as [n|e]; [|discriminate].
    apply IH in H. rewrite H, <- app_assoc. reflexivity.
Qed.

Lemma complexity_heatmap_unfold (k : Z) (data : corpus) :
  exists data1 : corpus,
    (forall key, stat data1 key = stat data key)
    /\ complexity_heatmap grade poly k data
       = match heatmap_loop grade poly (batch_labels k data) [] [] None data1 with
         | (Ok out, data2) =>
             match snd out with
             | None => (Err UnboundLocalError, data2)
             | Some normalized_data =>
                 (Ok {| normalized_data := normalized_data; labels := fst out |}, data2)
             end
         | (Err e, data2) => (Err e, data2)
         end.
Proof.
  unfold complexity_heatmap, bind.
  destruct (data_getitem_stat "wordcount" data) as (d1 & -> & H1).
  exists d1. split; [exact H1|].
  rewrite documents_stat. fold (batch_labels k data).
  destruct (heatmap_loop grade poly (batch_labels k data) [] [] None d1) as [[out|e] d2];
    [|reflexivity].
  destruct (snd out); reflexivity.
Qed.

End HeatmapFacts.

Lemma sankey_top_words_all (k : Z) (data : corpus) :
  (forall label v,
      In (label, v) (stat data "wordcount") ->
      exists c, v = VCounter c /\ (Z.of_nat (List.length c) <= k)%Z) ->
  exists (top_words_per_file : Dict.t (list string)) (data' : corpus),
    sankey_top_words None k data = (Ok top_words_per_file, data')
    /\ forall label c,
         Dict.get label (stat data "wordcount") = Some (VCounter c) ->
         Dict.get label top_words_per_file = Some (map fst (sorted_desc c)).
Proof.
  intros Hwc.
  destruct (data_getitem_recorded "wordcount" data) as (d1 & Hget & Hrec).
  destruct (top_words_loop_spec k d1 (stat data "wordcount")
              (Dict.keys (stat data "wordcount")) Hrec) with (acc := @Dict.empty (list string))
    as (tw & Hrun & Hin & _).
  - intros label Hl.
    destruct (Dict.get label (stat data "wordcount")) as [v|] eqn:E.
    + destruct (Hwc label v (get_Some_In _ _ _ E)) as (c & -> & _). now exists c.
    + apply get_None_keys in E. contradiction.
  - exists tw, d1. split.
    + unfold sankey_top_words, bind. rewrite Hget. exact Hrun.
    + intros label c Hc.
      destruct (Hwc label _ (get_Some_In _ _ _ Hc)) as (c' & [= <-] & Hk).
      rewrite <- (most_common_all k c Hk). apply Hin; [|exact Hc].
      destruct (in_dec string_dec label (Dict.keys (stat data "wordcount"))) as [H|H];
        [exact H|].
      apply get_None_keys in H. congruence.
Qed.

(** ** Normalization *)

Lemma py_div_zero (a b : Q) : (b == 0)%Q -> py_div a b = Err ZeroDivisionError.
Proof.
  intros H. unfold py_div. apply Qeq_bool_iff in H. now rewrite H.
Qed.

Lemma py_div_nonzero (a b : Q) : ~ (b == 0)%Q -> py_div a b = Ok (a / b)%Q.
Proof.
  intros H. unfold py_div.
  destruct (Qeq_bool b 0) eqn:E; [|reflexivity].
  apply Qeq_bool_iff in E. contradiction.
Qed.

Lemma py_div_outcome (a b : Q) :
  (exists q, py_div a b = Ok q) \/ py_div a b = Err ZeroDivisionError.
Proof.
  unfold py_div. destruct (Qeq_bool b 0); [now right | left; eauto].
Qed.

Lemma normalize_row_outcome (mw mp mg w p g : Q) :
  (exists r, normalize_row mw mp mg w p g = Ok r)
  \/ normalize_row mw mp mg w p g = Err ZeroDivisionError.
Proof.
  unfold normalize_row.
  destruct (py_div_outcome w mw) as [[a ->]| ->]; [|now right].
  destruct (py_div_outcome p mp) as [[b ->]| ->]; [|now right].
  destruct (py_div_outcome g mg) as [[c ->]| ->]; [|now right].
  left. simpl. eauto.
Qed.

Lemma normalize_row_zero (mw mp mg w p g : Q) :
  (mw == 0 \/ mp == 0 \/ mg == 0)%Q ->
  normalize_row mw mp mg w p g = Err ZeroDivisionError.
Proof.
  intros H. unfold normalize_row.
  destruct (py_div_outcome w mw) as [[a Ha]|Ha]; rewrite Ha; [|reflexivity].
  destruct (py_div_outcome p mp) as [[b Hb]|Hb]; rewrite Hb; [|reflexivity].
  destruct (py_div_outcome g mg) as [[c Hc]|Hc]; rewrite Hc; [|reflexivity].
  exfalso. destruct H as [H|[H|H]].
  - rewrite (py_div_zero _ _ H) in Ha. discriminate.
  - rewrite (py_div_zero _ _ H) in Hb. discriminate.
  - rewrite (py_div_zero _ _ H) in Hc. discriminate.
Qed.

Lemma normalize_rows_outcome (mw mp mg : Q) (ws ps gs : list Q) :
  (exists rs, normalize_rows mw mp mg ws ps gs = Ok rs)
  \/ normalize_rows mw mp mg ws ps gs = Err ZeroDivisionError.
Proof.
  revert ps gs.
  induction ws as [|w ws IH]; intros ps gs; simpl; [left; eauto|].
  destruct ps as [|p ps]; [left; eauto|].
  destruct gs as [|g gs]; [left; eauto|].
  destruct (normalize_row_outcome mw mp mg w p g) as [[r ->]| ->]; [|now right].
  destruct (IH ps gs) as [[rs ->]| ->]; [left; simpl; eauto | now right].
Qed.

Lemma word_count_column_length (data : list row) (ws : list Q) :
  word_count_column data = Ok ws -> List.length ws = List.length data.
Proof.
  revert ws.
  induction data as [|[[[[n|s|c]|] p] g] data IH]; intros ws H; simpl in H;
    try discriminate.
  - now injection H as <-.
  - destruct (word_count_column data) as [ns|e]; simpl in H; [|discriminate].
    injection H as <-. simpl. f_equal. now apply IH.
Qed.

Lemma word_count_column_prefix (d1 d2 : list row) (ws : list Q) :
  word_count_column (d1 ++ d2) = Ok ws -> exists ws1, word_count_column d1 = Ok ws1.
Proof.
  revert ws.
  induction d1 as [|[[[[n|s|c]|] p] g] d1 IH]; intros ws H; simpl in *;
    try discriminate.
  - eauto.
  - destruct (word_count_column (d1 ++ d2)) as [ns|e] eqn:E; simpl in H; [|discriminate].
    destruct (IH _ eq_refl) as [ws1 ->]. simpl. eauto.
Qed.

Lemma py_max_nonempty (xs : list Q) :
  xs <> [] -> exists m, py_max xs = Ok m.
Proof. destruct xs; [congruence | simpl; eauto]. Qed.

Lemma py_max_Ok_nonempty (xs : list Q) (m : Q) : py_max xs = Ok m -> xs <> [].
Proof. destruct xs; [discriminate | discriminate]. Qed.

(** With numbers in the word-count column, normalization gives a matrix or
    raises [ZeroDivisionError], nothing else. *)
Lemma normalize_outcome (data : list row) (ws : list Q) :
  word_count_column data = Ok ws ->
  data <> [] ->
  (exists rs, normalize data = Ok rs) \/ normalize data = Err ZeroDivisionError.
Proof.
  intros Hws Hne. unfold normalize. rewrite Hws. simpl.
  destruct (py_max_nonempty ws) as [mw ->].
  { intros ->. apply word_count_column_length in Hws. destruct data; [congruence | discriminate]. }
  destruct (py_max_nonempty (polysyllable_column data)) as [mp ->].
  { destruct data; [congruence | discriminate]. }
  destruct (py_max_nonempty (grade_column data)) as [mg ->].
  { destruct data; [congruence | discriminate]. }
  simpl. apply normalize_rows_outcome.
Qed.

(** A column whose maximum is zero makes the first division by it raise. *)
Lemma normalize_zero_max (data : list row) (ws : list Q) (mw mp mg : Q) :
  word_count_column data = Ok ws ->
  py_max ws = Ok mw ->
  py_max (polysyllable_column data) = Ok mp ->
  py_max (grade_column data) = Ok mg ->
  (mw == 0 \/ mp == 0 \/ mg == 0)%Q ->
  normalize data = Err ZeroDivisionError.
Proof.
  intros Hws Hmw Hmp Hmg Hzero. unfold normalize.
  rewrite Hws. simpl. rewrite Hmw. simpl. rewrite Hmp. simpl. rewrite Hmg. simpl.
  destruct data as [|[[nw p] g] data]; [discriminate|].
  destruct ws as [|w ws]; [discriminate|].
  simpl. now rewrite normalize_row_zero.
Qed.

Section HeatmapLoop.

Variable grade : string -> Q.
Variable poly : string -> Z.

(** The loop normalizes after each label.  When the rows of the labels still
    to visit are gathered without fault, the word counts are numbers and the
    normalization of all the rows raises [ZeroDivisionError], so does the
    loop: at the last label, or earlier on a shorter prefix. *)
Lemma heatmap_loop_zero_division (data0 : corpus) (todo : list string) :
  forall (rows data : list row) (labels : list string)
         (normalized : option (list (Q * Q * Q))) (c : corpus) (ws : list Q),
    (forall k, stat c k = stat data0 k) ->
    traverse (row_of grade poly data0) todo = Ok rows ->
    rows <> [] ->
    word_count_column (data ++ rows) = Ok ws ->
    normalize (data ++ rows) = Err ZeroDivisionError ->
    fst (heatmap_loop grade poly todo data labels normalized c) = Err ZeroDivisionError.
Proof.
  induction todo as [|label rest IH];
    intros rows data labels normalized c ws Hc Hrows Hne Hws Hfault.
  - simpl in Hrows. injection Hrows as <-. congruence.
  - simpl in Hrows.
    destruct (row_of grade poly data0 label) as [item|e] eqn:Hitem; simpl in Hrows;
      [|discriminate].
    destruct (traverse (row_of grade poly data0) rest) as [rows'|e] eqn:Hrest;
      simpl in Hrows; [|discriminate].
    injection Hrows as <-.
    simpl. unfold bind, lift.
    destruct (gather_row_spec grade poly label c) as (c1 & -> & Hc1).
    rewrite (row_of_ext grade poly c data0 label Hc), Hitem.
    assert (Happ : data ++ item :: rows' = (data ++ [item]) ++ rows')
      by (rewrite <- app_assoc; reflexivity).
    rewrite Happ in Hws, Hfault.
    destruct (word_count_column_prefix _ _ _ Hws) as [ws1 Hws1].
    destruct (normalize_outcome (data ++ [item]) ws1 Hws1) as [[rs Hrs]|Hrs].
    { destruct data; discriminate. }
    + rewrite Hrs.
      destruct rows' as [|item' rows'].
      * rewrite app_nil_r in Hfault. congruence.
      * apply (IH (item' :: rows') (data ++ [item]) _ _ c1 ws).
        -- intros k. now rewrite Hc1.
        -- reflexivity.
        -- discriminate.
        -- exact Hws.
        -- exact Hfault.
    + rewrite Hrs. reflexivity.
Qed.

Lemma complexity_heatmap_zero_division (k : Z) (data : corpus) (rows : list row)
    (ws : list Q) (mw mp mg : Q) :
  batch_rows grade poly k data = Ok rows ->
  word_count_column rows = Ok ws ->
  py_max ws = Ok mw ->
  py_max (polysyllable_column rows) = Ok mp ->
  py_max (grade_column rows) = Ok mg ->
  (mw == 0 \/ mp == 0 \/ mg == 0)%Q ->
  fst (complexity_heatmap grade poly k data) = Err ZeroDivisionError.
Proof.
  intros Hrows Hws Hmw Hmp Hmg Hzero.
  destruct (complexity_heatmap_unfold grade poly k data) as (d1 & Hd1 & ->).
  pose proof (heatmap_loop_zero_division data (batch_labels k data) rows [] [] None d1 ws
                Hd1 Hrows) as H.
  simpl app in H.
  assert (Hne : rows <> []).
  { intros ->. apply py_max_Ok_nonempty in Hmw. simpl in Hws. injection Hws as <-.
    congruence. }
  specialize (H Hne Hws (normalize_zero_max rows ws mw mp mg Hws Hmw Hmp Hmg Hzero)).
  destruct (heatmap_loop grade poly (batch_labels k data) [] [] None d1) as [[out|e] d2];
    simpl in H; [discriminate|].
  injection H as ->. reflexivity.
Qed.

Lemma inject_Z_nonzero (n : Z) : n <> 0%Z -> ~ (inject_Z n == 0)%Q.
Proof. intros Hn H. unfold Qeq in H. simpl in H. lia. Qed.

Lemma Qdiv_self (x : Q) : ~ (x == 0)%Q -> (x / x == 1)%Q.
Proof. intros H. unfold Qdiv. now apply Qmult_inv_r. Qed.

Lemma complexity_heatmap_single (k : Z) (data : corpus) (label : string)
    (n p : Z) (g : Q) :
  batch_labels k data = [label] ->
  row_of grade poly data label = Ok (Some (VInt n), p, g) ->
  n <> 0%Z -> p <> 0%Z -> ~ (g == 0)%Q ->
  exists data' : corpus,
    complexity_heatmap grade poly k data
    = (Ok {| normalized_data :=
               [((inject_Z n / inject_Z n)%Q, (inject_Z p / inject_Z p)%Q, (g / g)%Q)];
             labels := [label] |},
       data').
Proof.
  intros Hbatch Hrow Hn Hp Hg.
  destruct (complexity_heatmap_unfold grade poly k data) as (d1 & Hd1 & ->).
  rewrite Hbatch. simpl. unfold bind, lift.
  destruct (gather_row_spec grade poly label d1) as (d2 & -> & _).
  rewrite (row_of_ext grade poly d1 data label Hd1), Hrow.
  unfold normalize. simpl. unfold normalize_row.
  rewrite (py_div_nonzero _ _ (inject_Z_nonzero n Hn)).
  rewrite (py_div_nonzero _ _ (inject_Z_nonzero p Hp)).
  rewrite (py_div_nonzero _ _ Hg).
  simpl. exists d2. reflexivity.
Qed.

End HeatmapLoop.

(** A batch of two documents without any polysyllabic word: the
    polysyllable column is all zeros, and the call raises
    [ZeroDivisionError] instead of giving a column of zeros. *)
Lemma zero_polysyllable_batch_raises :
  batch_rows (fun _ => 5%Q) (fun _ => 0%Z) 10 demo_corpus
  = Ok [(Some (VInt 6), 0%Z, 5%Q); (Some (VInt 3), 0%Z, 5%Q)]
  /\ py_max (polysyllable_column [(Some (VInt 6), 0%Z, 5%Q); (Some (VInt 3), 0%Z, 5%Q)])
     = Ok 0%Q
  /\ complexity_heatmap (fun _ => 5%Q) (fun _ => 0%Z) 10 demo_corpus
     = (Err ZeroDivisionError, demo_corpus).
Proof.
  split; [|split]; vm_compute; reflexivity.
Qed.

(** C2, as the code has it.  The normalization has no guard: when the rows
    of the batch are gathered, the word counts are numbers, and the maximum
    of some column is zero, the division by that maximum raises
    [ZeroDivisionError], which ends [complexity_heatmap]; no normalized
    value is produced. *)
Theorem zero_maximum_raises_zero_division :
  forall (grade : string -> Q) (poly : string -> Z) (k : Z) (data : corpus)
         (rows : list row) (ws : list Q) (mw mp mg : Q),
    batch_rows grade poly k data = Ok rows ->
    word_count_column rows = Ok ws ->
    py_max ws = Ok mw ->
    py_max (polysyllable_column rows) = Ok mp ->
    py_max (grade_column rows) = Ok mg ->
    (mw == 0 \/ mp == 0 \/ mg == 0)%Q ->
    normalize rows = Err ZeroDivisionError
    /\ fst (complexity_heatmap grade poly k data) = Err ZeroDivisionError.
Proof.
  intros grade poly k data rows ws mw mp mg Hrows Hws Hmw Hmp Hmg Hzero.
  split.
  - exact (normalize_zero_max rows ws mw mp mg Hws Hmw Hmp Hmg Hzero).
  - exact (complexity_heatmap_zero_division grade poly k data rows ws mw mp mg
             Hrows Hws Hmw Hmp Hmg Hzero).
Qed.

Lemma zero_maximum_raises_zero_division_witness :
  normalize [(Some (VInt 6), 0%Z, 5%Q); (Some (VInt 3), 0%Z, 5%Q)]
  = Err ZeroDivisionError
  /\ fst (complexity_heatmap (fun _ => 5%Q) (fun _ => 0%Z) 10 demo_corpus)
     = Err ZeroDivisionError.
Proof.
  apply (zero_maximum_raises_zero_division (fun _ => 5%Q) (fun _ => 0%Z) 10 demo_corpus
           [(Some (VInt 6), 0%Z, 5%Q); (Some (VInt 3), 0%Z, 5%Q)]
           [inject_Z 6; inject_Z 3] (inject_Z 6) (inject_Z 0) 5%Q).
  - vm_compute. reflexivity.
  - reflexivity.
  - reflexivity.
  - reflexivity.
  - reflexivity.
  - right. left. reflexivity.
Defined.

(** The normalization runs inside the loop, on the rows gathered so far.
    Here the first document has no polysyllabic word and the second has
    two: no column of the whole batch has a zero maximum, and the call
    still raises, at the first label. *)
Lemma prefix_normalization_raises_early :
  batch_rows (fun _ => 5%Q) (fun text => if String.eqb text "a cat ran" then 2%Z else 0%Z)
    10 demo_corpus
  = Ok [(Some (VInt 6), 0%Z, 5%Q); (Some (VInt 3), 2%Z, 5%Q)]
  /\ py_max (polysyllable_column [(Some (VInt 6), 0%Z, 5%Q); (Some (VInt 3), 2%Z, 5%Q)])
     = Ok (inject_Z 2)
  /\ complexity_heatmap (fun _ => 5%Q)
       (fun text => if String.eqb text "a cat ran" then 2%Z else 0%Z) 10 demo_corpus
     = (Err ZeroDivisionError, demo_corpus).
Proof.
  split; [|split]; vm_compute; reflexivity.
Qed.

(** A batch of one document without any polysyllabic word: the call raises
    [ZeroDivisionError] instead of giving 1 in every dimension. *)
Lemma single_document_zero_feature_raises :
  batch_labels 10 single_corpus = ["a.txt"]
  /\ row_of (fun _ => 5%Q) (fun _ => 0%Z) single_corpus "a.txt"
     = Ok (Some (VInt 4), 0%Z, 5%Q)
  /\ complexity_heatmap (fun _ => 5%Q) (fun _ => 0%Z) 10 single_corpus
     = (Err ZeroDivisionError, single_corpus).
Proof.
  split; [|split]; vm_compute; reflexivity.
Qed.

(** C3, as the code has it.  For a batch of exactly one registered document
    whose word count (an integer), polysyllable count and grade level are
    all different from zero, the normalization gives one row, with the
    value 1 in each of the three dimensions. *)
Theorem single_document_batch_normalizes_to_one :
  forall (grade : string -> Q) (poly : string -> Z) (k : Z) (data : corpus)
         (label : string) (n p : Z) (g : Q),
    batch_labels k data = [label] ->
    row_of grade poly data label = Ok (Some (VInt n), p, g) ->
    n <> 0%Z -> p <> 0%Z -> ~ (g == 0)%Q ->
    exists (a b c : Q) (data' : corpus),
      complexity_heatmap grade poly k data
      = (Ok {| normalized_data := [(a, b, c)]; labels := [label] |}, data')
      /\ (a == 1)%Q /\ (b == 1)%Q /\ (c == 1)%Q.
Proof.
  intros grade poly k data label n p g Hbatch Hrow Hn Hp Hg.
  destruct (complexity_heatmap_single grade poly k data label n p g Hbatch Hrow Hn Hp Hg)
    as (data' & Hrun).
  exists (inject_Z n / inject_Z n)%Q, (inject_Z p / inject_Z p)%Q, (g / g)%Q, data'.
  split; [exact Hrun|].
  repeat split; apply Qdiv_self; auto using inject_Z_nonzero.
Qed.

Lemma single_document_batch_normalizes_to_one_witness :
  exists (a b c : Q) (data' : corpus),
    complexity_heatmap (fun _ => 7 # 2) (fun _ => 2%Z) 10 single_corpus
    = (Ok {| normalized_data := [(a, b, c)]; labels := ["a.txt"] |}, data')
    /\ (a == 1)%Q /\ (b == 1)%Q /\ (c == 1)%Q.
Proof.
  apply (single_document_batch_normalizes_to_one (fun _ => 7 # 2) (fun _ => 2%Z) 10
           single_corpus "a.txt" 4%Z 2%Z (7 # 2)).
  - vm_compute. reflexivity.
  - vm_compute. reflexivity.
  - lia.
  - lia.
  - intros H. unfold Qeq in H. simpl in H. lia.
Defined.

(** * The feature deriver *)

Lemma get_features_run (grade : string -> Q) (poly : string -> Z) (text : string)
    (data : corpus) :
  exists data' : corpus,
    get_features grade poly text data
    = (Ok {| Word_Count := Dict.get text (stat data "wordcount");
             Grade_Level := grade text;
             Polysyllable_Count := poly text |},
       data')
    /\ forall k, stat data' k = stat data k.
Proof.
  unfold get_features, bind.
  destruct (data_getitem_stat "wordcount" data) as (d1 & -> & H1).
  exists d1. split; [reflexivity | exact H1].
Qed.

(** A label that was never registered: [get_features] returns, with [None]
    for the word count. *)
Lemma get_features_unknown_label_returns :
  Dict.get "Unknown" (stat demo_corpus "wordcount") = None
  /\ get_features (fun _ => 5%Q) (fun _ => 0%Z) "Unknown" demo_corpus
     = (Ok {| Word_Count := None; Grade_Level := 5%Q; Polysyllable_Count := 0%Z |},
        demo_corpus).
Proof.
  split; vm_compute; reflexivity.
Qed.

(** C5, as the code has it.  For a label that is not registered,
    [get_features] raises nothing: the lookup is a [dict.get], and the
    record it returns has [None] as word count. *)
Theorem get_features_unregistered_label :
  forall (grade : string -> Q) (poly : string -> Z) (label : string) (data : corpus),
    ~ In label (documents data) ->
    exists (f : features) (data' : corpus),
      get_features grade poly label data = (Ok f, data')
      /\ Word_Count f = None.
Proof.
  intros grade poly label data Hnot.
  destruct (get_features_run grade poly label data) as (data' & Hrun & _).
  eexists. exists data'. split; [exact Hrun|].
  simpl. apply get_None_keys. now rewrite documents_stat.
Qed.

Lemma get_features_unregistered_label_witness :
  exists (f : features) (data' : corpus),
    get_features (fun _ => 5%Q) (fun _ => 0%Z) "Unknown" demo_corpus = (Ok f, data')
    /\ Word_Count f = None.
Proof.
  apply (get_features_unregistered_label (fun _ => 5%Q) (fun _ => 0%Z) "Unknown"
           demo_corpus).
  vm_compute. intros [H|[H|[]]]; discriminate.
Defined.

(** C9. [get_features] hands its argument, the label, to both readability
    collaborators: the scores returned are those of the label's own
    characters, whatever the corpus holds.  For the label [H] of the demo
    corpus they are the scores of the string [H], while the heatmap path
    scores the distinct words of the document joined by spaces. *)
Theorem get_features_scores_the_label :
  (forall (grade : string -> Q) (poly : string -> Z) (text : string) (data : corpus),
      exists data' : corpus,
        get_features grade poly text data
        = (Ok {| Word_Count := entry data "wordcount" text;
                 Grade_Level := grade text;
                 Polysyllable_Count := poly text |},
           data'))
  /\ fst (get_features (fun s => inject_Z (count_chars s)) count_chars "H" demo_corpus)
     = Ok {| Word_Count :=
               Some (VCounter [("cat", 2%Z); ("sat", 1%Z); ("a", 1%Z); ("ran", 1%Z);
                               ("mat", 1%Z)]);
             Grade_Level := inject_Z (count_chars "H");
             Polysyllable_Count := count_chars "H" |}
  /\ row_of (fun s => inject_Z (count_chars s)) count_chars demo_corpus "H"
     = Ok (Some (VInt 6), count_chars "cat sat a ran mat",
           inject_Z (count_chars "cat sat a ran mat"))
  /\ count_chars "H" <> count_chars "cat sat a ran mat".
Proof.
  split; [|split; [|split]].
  - intros grade poly text data.
    destruct (get_features_run grade poly text data) as (data' & Hrun & _).
    exists data'. rewrite Hrun. unfold entry, stat.
    destruct (Dict.get "wordcount" data); reflexivity.
  - vm_compute. reflexivity.
  - vm_compute. reflexivity.
  - vm_compute. discriminate.
Qed.

(** * Further properties of the parsers *)

(** ** Stop words *)

Lemma lstrip_head (s : string) (c : ascii) (rest : list ascii) :
  chars (PyStr.lstrip s) = c :: rest -> PyStr.is_space c = false.
Proof.
  unfold chars.
  induction s as [|a s IH]; simpl; [discriminate|].
  destruct (PyStr.is_space a) eqn:E; [exact IH|].
  simpl. intros [= <- _]. exact E.
Qed.

Lemma lstrip_suffix (s : string) :
  exists pre : list ascii, chars s = pre ++ chars (PyStr.lstrip s).
Proof.
  unfold chars.
  induction s as [|a s [pre IH]]; simpl.
  - now exists [].
  - destruct (PyStr.is_space a).
    + exists (a :: pre). simpl. now rewrite IH.
    + now exists [].
Qed.

Lemma strip_ends (s : string) :
  (forall c rest, chars (PyStr.strip s) = c :: rest -> PyStr.is_space c = false)
  /\ (forall init c, chars (PyStr.strip s) = init ++ [c] -> PyStr.is_space c = false).
Proof.
  unfold PyStr.strip.
  set (t := PyStr.lstrip s).
  set (u := PyStr.lstrip (PyStr.rev t)).
  rewrite chars_rev.
  split.
  - intros c rest H.
    destruct (lstrip_suffix (PyStr.rev t)) as [pre Hpre]. fold u in Hpre.
    rewrite chars_rev in Hpre.
    (* the first character of the result is the last of [u], which is the
       last of the reversed [t], that is the first of [t] *)
    assert (Hu : chars u = List.rev rest ++ [c]).
    { rewrite <- (rev_involutive (chars u)), H. reflexivity. }
    rewrite Hu, app_assoc in Hpre.
    apply (f_equal (@List.rev ascii)) in Hpre.
    rewrite rev_involutive, rev_app_distr in Hpre. simpl in Hpre.
    exact (lstrip_head s c _ Hpre).
  - intros init c H.
    assert (Hu : chars u = c :: List.rev init).
    { rewrite <- (rev_involutive (chars u)), H, rev_app_distr. reflexivity. }
    exact (lstrip_head (PyStr.rev t) c _ Hu).
Qed.

Lemma truthy_nonempty (s : string) : PyStr.truthy s = true -> s <> EmptyString.
Proof. destruct s; [discriminate | discriminate]. Qed.

(** X1. Every word [load_stop_words] returns is a stripped, non-blank line:
    it is not empty and neither begins nor ends with a whitespace
    character. *)
Theorem load_stop_words_stripped :
  forall (fs : filesystem) (stopfile : pyarg) (stop_words : list string) (w : string),
    load_stop_words fs stopfile = Ok stop_words ->
    In w stop_words ->
    w <> EmptyString
    /\ (forall c rest, chars w = c :: rest -> PyStr.is_space c = false)
    /\ (forall init c, chars w = init ++ [c] -> PyStr.is_space c = false).
Proof.
  intros fs stopfile stop_words w Hload Hin.
  unfold load_stop_words in Hload.
  destruct stopfile as [path|l]; [|discriminate].
  destruct (open_read fs path) as [content|e]; simpl in Hload; [|discriminate].
  injection Hload as <-.
  apply in_map_iff in Hin. destruct Hin as (line & <- & Hline).
  apply filter_In in Hline. destruct Hline as [_ Htruthy].
  split; [now apply truthy_nonempty|].
  apply strip_ends.
Qed.

Lemma load_stop_words_stripped_witness :
  "the" <> EmptyString
  /\ (forall c rest, chars "the" = c :: rest -> PyStr.is_space c = false)
  /\ (forall init c, chars "the" = init ++ [c] -> PyStr.is_space c = false).
Proof.
  apply (load_stop_words_stripped demo_fs (AStr "stop_words.txt") ["the"; "on"] "the").
  - vm_compute. reflexivity.
  - simpl. tauto.
Defined.

Lemma split_aux_chars (s cur w : string) (c : ascii) :
  In w (PyStr.split_aux s cur) -> In c (chars w) ->
  In c (chars s) \/ In c (chars cur).
Proof.
  revert cur.
  induction s as [|a s IH]; intros cur Hw Hc; simpl in Hw.
  - destruct cur as [|b cur]; [contradiction|].
    destruct Hw as [<-|[]]. unfold PyStr.rev in Hc.
    apply chars_rev_append in Hc. destruct Hc as [Hc|[]]. now right.
  - destruct (PyStr.is_space a).
    + destruct cur as [|b cur].
      * destruct (IH _ Hw Hc) as [H|[]]. left. now right.
      * destruct Hw as [<-|Hw].
        -- unfold PyStr.rev in Hc. apply chars_rev_append in Hc.
           destruct Hc as [Hc|[]]. now right.
        -- destruct (IH _ Hw Hc) as [H|[]]. left. now right.
    + destruct (IH _ Hw Hc) as [H|[<-|H]].
      * left. now right.
      * left. now left.
      * now right.
Qed.

Lemma split_chars (s w : string) (c : ascii) :
  In w (PyStr.split s) -> In c (chars w) -> In c (chars s).
Proof.
  intros Hw Hc. destruct (split_aux_chars s EmptyString w c Hw Hc) as [H|[]]. exact H.
Qed.

Lemma map_str_fixed (f : ascii -> ascii) (w : string) :
  (forall c, In c (chars w) -> f c = c) -> PyStr.map_str f w = w.
Proof.
  unfold chars.
  induction w as [|a w IH]; intros H; simpl; [reflexivity|].
  rewrite (H a (or_introl eq_refl)), IH; [reflexivity|].
  intros c Hc. apply H. now right.
Qed.

(** The tokens of a normalized text are unchanged by [lower]. *)
Lemma normalized_token_lower (content w : string) :
  In w (PyStr.split (PyStr.remove_punctuation (PyStr.lower content))) ->
  PyStr.lower w = w.
Proof.
  intros Hw. apply map_str_fixed. intros c Hc.
  pose proof (split_chars _ _ _ Hw Hc) as H.
  apply chars_filter_str in H. destruct H as [H _].
  exact (chars_lower _ _ H).
Qed.

(** X2. The stop words are compared as they are with the lowercased tokens:
    a stop word that [lower] would change (it has an uppercase letter), or
    that is not alphabetic, filters nothing.  With or without it, the
    normalizer keeps the same tokens and the plain-text parser returns the
    same result. *)
Theorem stop_word_not_lowercase_filters_nothing :
  forall (fs : filesystem) (filename content s : string) (stop_words : list string),
    PyStr.lower s <> s \/ PyStr.isalpha s = false ->
    filter_words (PyStr.remove_punctuation (PyStr.lower content)) (AList (s :: stop_words))
    = filter_words (PyStr.remove_punctuation (PyStr.lower content)) (AList stop_words)
    /\ simple_text_parser fs filename (AList (s :: stop_words))
       = simple_text_parser fs filename (AList stop_words).
Proof.
  intros fs filename content s stop_words Hs.
  assert (Hfilter : forall text : string,
             filter_words (PyStr.remove_punctuation (PyStr.lower text))
               (AList (s :: stop_words))
             = filter_words (PyStr.remove_punctuation (PyStr.lower text))
                 (AList stop_words)).
  { intros text. unfold filter_words. apply filter_ext_in.
    intros w Hw. unfold keep_word. simpl py_in.
    destruct (PyStr.isalpha w) eqn:Ha; [|reflexivity].
    destruct (String.eqb_spec w s) as [->|Hne]; [|reflexivity].
    exfalso. destruct Hs as [Hs|Hs]; [|congruence].
    apply Hs. exact (normalized_token_lower text s Hw). }
  split; [apply Hfilter|].
  unfold simple_text_parser.
  destruct (open_read fs filename) as [raw|e]; simpl; [|reflexivity].
  now rewrite Hfilter.
Qed.

Lemma stop_word_not_lowercase_filters_nothing_witness :
  filter_words (PyStr.remove_punctuation (PyStr.lower "The cat sat on the mat"))
    (AList ["The"; "on"])
  = filter_words (PyStr.remove_punctuation (PyStr.lower "The cat sat on the mat"))
      (AList ["on"])
  /\ simple_text_parser demo_fs "a.txt" (AList ["The"; "on"])
     = simple_text_parser demo_fs "a.txt" (AList ["on"]).
Proof.
  apply (stop_word_not_lowercase_filters_nothing demo_fs "a.txt" "The cat sat on the mat"
           "The" ["on"]).
  left. vm_compute. discriminate.
Defined.

(** ** The paginated parser *)

Lemma concat_empty_cons (x : string) (xs : list string) :
  String.concat EmptyString (x :: xs) = (x ++ String.concat EmptyString xs)%string.
Proof.
  destruct xs as [|y ys]; simpl; [now rewrite append_empty_r | reflexivity].
Qed.

Lemma concat_empty_app (xs ys : list string) :
  String.concat EmptyString (xs ++ ys)
  = (String.concat EmptyString xs ++ String.concat EmptyString ys)%string.
Proof.
  induction xs as [|x xs IH]; [reflexivity|].
  change ((x :: xs) ++ ys) with (x :: (xs ++ ys)).
  now rewrite !concat_empty_cons, IH, append_assoc_str.
Qed.

Lemma concat_pages_fold (pages : list (option string)) (raw : string) :
  fold_left
    (fun raw page =>
       match page with
       | Some text => if PyStr.truthy text then (raw ++ text ++ LF)%string else raw
       | None => raw
       end)
    pages raw
  = (raw ++ String.concat EmptyString
              (map (fun text => (text ++ LF)%string) (page_texts pages)))%string.
Proof.
  revert raw.
  induction pages as [|page pages IH]; intros raw.
  - simpl. now rewrite append_empty_r.
  - simpl fold_left. rewrite IH. unfold page_texts. simpl flat_map.
    destruct page as [text|]; [|reflexivity].
    destruct (PyStr.truthy text); [|reflexivity].
    rewrite map_app, concat_empty_app. simpl map.
    change (String.concat EmptyString [(text ++ LF)%string]) with (text ++ LF)%string.
    now rewrite !append_assoc_str.
Qed.

Lemma concat_pages_texts (pages : list (option string)) :
  concat_pages pages
  = String.concat EmptyString (map (fun text => (text ++ LF)%string) (page_texts pages)).
Proof. unfold concat_pages. now rewrite concat_pages_fold. Qed.

(** X3. The paginated parser is the plain-text parser applied to the texts
    of the pages: with the stop words of the stop file, it gives the
    ['wordcount'] and ['num_words'] the plain-text parser gives on a file
    holding the text of each page that has some, each followed by a line
    feed.  Pages without text add nothing to them, but are counted in
    ['num_pages']; ['raw_text'] is that file's text, lowercased and without
    punctuation, and the counts are those of its filtered tokens. *)
Theorem pdf_parser_agrees_with_simple_text_parser :
  forall (fs fs' : filesystem) (filename txt : string) (stopfile : pyarg)
         (sw : list string) (pages : list (option string)),
    load_stop_words fs stopfile = Ok sw ->
    pdf_pages fs filename = Some pages ->
    text_file fs' txt
    = Some (String.concat EmptyString
              (map (fun text => (text ++ LF)%string) (page_texts pages))) ->
    exists (r r' : Dict.t pyval) (raw : string),
      pdf_parser fs filename stopfile = Ok r
      /\ simple_text_parser fs' txt (AList sw) = Ok r'
      /\ Dict.get "wordcount" r = Dict.get "wordcount" r'
      /\ Dict.get "num_words" r = Dict.get "num_words" r'
      /\ Dict.get "num_pages" r = Some (VInt (Z.of_nat (List.length pages)))
      /\ Dict.get "raw_text" r = Some (VStr raw)
      /\ raw = PyStr.remove_punctuation
                 (PyStr.lower
                    (String.concat EmptyString
                       (map (fun text => (text ++ LF)%string) (page_texts pages))))
      /\ Dict.get "wordcount" r = Some (VCounter (Counter (filter_words raw (AList sw)))).
Proof.
  intros fs fs' filename txt stopfile sw pages Hsw Hpdf Htxt.
  unfold pdf_parser, simple_text_parser, pdf_open, open_read.
  rewrite Hsw, Hpdf, Htxt. simpl rbind.
  rewrite concat_pages_texts.
  eexists. eexists. eexists.
  split; [reflexivity|]. split; [reflexivity|].
  repeat split; reflexivity.
Qed.

Lemma pdf_parser_agrees_with_simple_text_parser_witness :
  exists (r r' : Dict.t pyval) (raw : string),
    pdf_parser demo_fs "script.pdf" (AStr "stop_words.txt") = Ok r
    /\ simple_text_parser
         {| text_file := fun _ =>
              Some ("The Cat sat." ++ LF ++ "A cat ran, on the mat!" ++ LF)%string;
            pdf_pages := fun _ => None;
            opens := fun _ => true |}
         "script.txt" (AList ["the"; "on"]) = Ok r'
    /\ Dict.get "wordcount" r = Dict.get "wordcount" r'
    /\ Dict.get "num_words" r = Dict.get "num_words" r'
    /\ Dict.get "num_pages" r
       = Some (VInt (Z.of_nat
            (List.length [Some "The Cat sat."; None; Some ""; Some "A cat ran, on the mat!"])))
    /\ Dict.get "raw_text" r = Some (VStr raw)
    /\ raw = PyStr.remove_punctuation
               (PyStr.lower
                  (String.concat EmptyString
                     (map (fun text => (text ++ LF)%string)
                        (page_texts [Some "The Cat sat."; None; Some "";
                                     Some "A cat ran, on the mat!"]))))
    /\ Dict.get "wordcount" r
       = Some (VCounter (Counter (filter_words raw (AList ["the"; "on"])))).
Proof.
  apply (pdf_parser_agrees_with_simple_text_parser demo_fs
           {| text_file := fun _ =>
                Some ("The Cat sat." ++ LF ++ "A cat ran, on the mat!" ++ LF)%string;
              pdf_pages := fun _ => None;
              opens := fun _ => true |}
           "script.pdf" "script.txt" (AStr "stop_words.txt") ["the"; "on"]
           [Some "The Cat sat."; None; Some ""; Some "A cat ran, on the mat!"]).
  - vm_compute. reflexivity.
  - reflexivity.
  - vm_compute. reflexivity.
Defined.

(** * Further properties of the registration *)

(** X4. A registration that raises leaves the corpus as it was: every
    fault (an unreadable file, a rejected argument, a parser that raises)
    comes before the first write of lines 101-102. *)
Theorem load_text_failure_keeps_corpus :
  forall (fs : filesystem) (filename : string) (label : option string)
         (stop_words : option pyarg) (parser : option parser_fn)
         (data data' : corpus) (e : exn),
    load_text fs filename label stop_words parser data = (Err e, data') ->
    data' = data.
Proof.
  intros fs filename label stop_words parser data data' e H.
  unfold load_text, bind, lift in H.
  destruct (stop_words_or_default fs stop_words) as [sw|e1];
    [|now injection H as _ <-].
  destruct (match parser with
            | Some parser0 => parser0 filename sw
            | None => call_simple_text_parser fs [AStr filename]
            end) as [results|e2]; [|now injection H as _ <-].
  pose proof (store_results_ok
                (match label with Some l => l | None => filename end) results data) as Hok.
  rewrite H in Hok. discriminate.
Qed.

Lemma load_text_failure_keeps_corpus_witness :
  fst (load_text demo_fs "missing.pdf" (Some "H") (Some (AStr "stop_words.txt"))
         (Some (pdf_parser demo_fs)) demo_corpus) = Err IOError
  /\ snd (load_text demo_fs "missing.pdf" (Some "H") (Some (AStr "stop_words.txt"))
            (Some (pdf_parser demo_fs)) demo_corpus) = demo_corpus.
Proof.
  split; [vm_compute; reflexivity|].
  apply (load_text_failure_keeps_corpus demo_fs "missing.pdf" (Some "H")
           (Some (AStr "stop_words.txt")) (Some (pdf_parser demo_fs))
           demo_corpus _ IOError).
  vm_compute. reflexivity.
Defined.

(** X5. With [stop_words] left out, [load_text] loads the default list and
    passes that list on; [pdf_parser] takes its second argument for a path
    and opens it, which raises.  So registering with [pdf_parser] and
    without [stop_words] always raises ([TypeError], or [IOError] when
    [stop_words.txt] cannot be read), and registers nothing. *)
Theorem load_text_pdf_parser_needs_stop_file :
  forall (fs : filesystem) (filename : string) (label : option string) (data : corpus),
    load_text fs filename label None (Some (pdf_parser fs)) data
    = (Err match text_file fs "stop_words.txt" with
           | Some _ => TypeError
           | None => IOError
           end,
       data).
Proof.
  intros fs filename label data.
  unfold load_text, bind, lift, stop_words_or_default, load_stop_words, open_read.
  destruct (text_file fs "stop_words.txt") as [content|]; reflexivity.
Qed.

(** ** Well-formed corpora *)

Lemma entry_stat (data : corpus) (k label : string) :
  entry data k label = Dict.get label (stat data k).
Proof. unfold entry, stat. now destruct (Dict.get k data). Qed.

Lemma stat_data_store (k label : string) (v : pyval) (data : corpus) (k' : string) :
  stat (snd (data_store k label v data)) k'
  = if String.eqb k k' then Dict.set label v (stat data k) else stat data k'.
Proof.
  unfold data_store, data_getitem, stat.
  destruct (Dict.get k data) as [inner|] eqn:E; simpl; rewrite !get_set.
  - destruct (String.eqb_spec k k') as [<-|Hk]; reflexivity.
  - destruct (String.eqb_spec k k') as [<-|Hk]; reflexivity.
Qed.

Lemma stat_store_results (label : string) (results : Dict.t pyval) (data : corpus)
    (k : string) :
  NoDup (Dict.keys results) ->
  stat (snd (store_results label results data)) k
  = match Dict.get k results with
    | Some v => Dict.set label v (stat data k)
    | None => stat data k
    end.
Proof.
  revert data.
  induction results as [|[k0 v0] rest IH]; intros data Hnd.
  - reflexivity.
  - simpl in Hnd. inversion Hnd as [|? ? Hnotin Hnd']; subst.
    rewrite store_results_step, IH by exact Hnd'.
    simpl Dict.get.
    destruct (String.eqb_spec k k0) as [->|Hk].
    + apply get_None_keys in Hnotin. rewrite Hnotin.
      rewrite stat_data_store, String.eqb_refl. reflexivity.
    + rewrite !stat_data_store.
      destruct (String.eqb_spec k0 k) as [->|_]; [congruence|].
      reflexivity.
Qed.

Lemma In_set_nodup {V : Type} (k l : string) (v w : V) (d : Dict.t V) :
  NoDup (Dict.keys d) ->
  In (l, w) (Dict.set k v d) ->
  (l = k /\ w = v) \/ (l <> k /\ In (l, w) d).
Proof.
  intros Hnd Hin.
  apply (In_get_nodup l w (Dict.set k v d) (nodup_keys_set k v d Hnd)) in Hin.
  rewrite get_set in Hin.
  destruct (String.eqb_spec k l) as [->|Hne].
  - left. split; [reflexivity | congruence].
  - right. split; [congruence | now apply get_Some_In].
Qed.

(** What the two parsers of the class return. *)
Lemma class_parser_results (fs : filesystem) (parser : parser_fn) (filename : string)
    (sw : pyarg) (results : Dict.t pyval) :
  parser = simple_text_parser fs \/ parser = pdf_parser fs ->
  parser filename sw = Ok results ->
  NoDup (Dict.keys results)
  /\ exists words : list string,
       Dict.get "wordcount" results = Some (VCounter (Counter words))
       /\ Dict.get "num_words" results = Some (VInt (Z.of_nat (List.length words))).
Proof.
  intros [->| ->] H.
  - unfold simple_text_parser in H.
    destruct (open_read fs filename) as [content|e]; simpl in H; [|discriminate].
    injection H as <-. split.
    + repeat constructor; simpl; intuition discriminate.
    + eexists. split; reflexivity.
  - unfold pdf_parser in H.
    destruct (load_stop_words fs sw) as [l|e]; simpl in H; [|discriminate].
    destruct (pdf_open fs filename) as [pages|e]; simpl in H; [|discriminate].
    injection H as <-. split.
    + repeat constructor; simpl; intuition discriminate.
    + eexists. split; reflexivity.
Qed.

Lemma load_text_run (fs : filesystem) (filename : string) (label : option string)
    (stop_words : option pyarg) (parser : parser_fn) (data data' : corpus) :
  load_text fs filename label stop_words (Some parser) data = (Ok tt, data') ->
  exists (sw : pyarg) (results : Dict.t pyval),
    stop_words_or_default fs stop_words = Ok sw
    /\ parser filename sw = Ok results
    /\ data' = snd (store_results (match label with None => filename | Some l => l end)
                      results data).
Proof.
  intros H. unfold load_text, bind, lift in H.
  destruct (stop_words_or_default fs stop_words) as [sw|e]; [|discriminate].
  destruct (parser filename sw) as [results|e] eqn:Hp; [|discriminate].
  exists sw, results. repeat split; [exact Hp|]. now rewrite H.
Qed.

Lemma load_text_well_formed_step :
  forall (fs : filesystem) (filename : string) (label : option string)
         (stop_words : option pyarg) (parser : parser_fn) (data data' : corpus),
    parser = simple_text_parser fs \/ parser = pdf_parser fs ->
    well_formed data ->
    load_text fs filename label stop_words (Some parser) data = (Ok tt, data') ->
    let name := match label with None => filename | Some l => l end in
    well_formed data'
    /\ documents data'
       = if Dict.mem name (stat data "wordcount")
         then documents data
         else documents data ++ [name].
Proof.
  intros fs filename label stop_words parser data data' Hparser [Hnd Hwf] Hrun name.
  destruct (load_text_run _ _ _ _ _ _ _ Hrun) as (sw & results & _ & Hp & ->).
  fold name.
  destruct (class_parser_results fs parser filename sw results Hparser Hp)
    as (Hkeys & words & Hwc & Hnw).
  assert (Hstat : stat (snd (store_results name results data)) "wordcount"
                  = Dict.set name (VCounter (Counter words)) (stat data "wordcount")).
  { rewrite stat_store_results by exact Hkeys. now rewrite Hwc. }
  unfold well_formed. rewrite <- !documents_stat, Hstat.
  rewrite <- documents_stat in Hnd.
  split; [split|].
  - now apply nodup_keys_set.
  - intros l v Hin.
    destruct (In_set_nodup _ _ _ _ _ Hnd Hin) as [[-> ->]|[Hne Hin']].
    + exists (Counter words).
      destruct (Counter_invariants words) as (Hpos & Hndc & _).
      repeat split; auto.
      rewrite store_results_same by exact Hkeys.
      now rewrite Hnw, total_Counter.
    + destruct (Hwf l v Hin') as (c & -> & Hc1 & Hc2 & Hc3).
      exists c. repeat split; auto.
      now rewrite store_results_other.
  - apply keys_set.
Qed.

(** X6. Registering a document with one of the two parsers of the class
    keeps the corpus well formed, and the documents in registration order:
    a new label goes last, a label used before keeps its place. *)
Theorem load_text_keeps_well_formed :
  forall (fs : filesystem) (filename : string) (label : option string)
         (stop_words : option pyarg) (parser : parser_fn) (data data' : corpus),
    parser = simple_text_parser fs \/ parser = pdf_parser fs ->
    well_formed data ->
    load_text fs filename label stop_words (Some parser) data = (Ok tt, data') ->
    let name := match label with None => filename | Some l => l end in
    well_formed data'
    /\ documents data'
       = if Dict.mem name (stat data "wordcount")
         then documents data
         else documents data ++ [name].
Proof.
  intros fs filename label stop_words parser data data' Hparser Hwf Hrun name.
  destruct (load_text_well_formed_step fs filename label stop_words parser data data'
              Hparser Hwf Hrun) as [Hwf' Hdocs].
  split; [exact Hwf' | exact Hdocs].
Qed.

Lemma well_formed_empty : well_formed Dict.empty.
Proof.
  split; [constructor|]. intros label v [].
Qed.

Lemma well_formed_demo_corpus : well_formed demo_corpus.
Proof.
  apply (load_text_well_formed_step demo_fs "b.txt" None (Some (AList []))
           (simple_text_parser demo_fs)
           (snd (load_text demo_fs "script.pdf" (Some "H") (Some (AStr "stop_words.txt"))
                   (Some (pdf_parser demo_fs)) Dict.empty))
           demo_corpus).
  - now left.
  - apply (load_text_well_formed_step demo_fs "script.pdf" (Some "H")
             (Some (AStr "stop_words.txt")) (pdf_parser demo_fs) Dict.empty).
    + now right.
    + exact well_formed_empty.
    + vm_compute. reflexivity.
  - vm_compute. reflexivity.
Qed.

Lemma load_text_keeps_well_formed_witness :
  well_formed single_corpus
  /\ documents single_corpus
     = if Dict.mem "a.txt" (stat Dict.empty "wordcount")
       then documents Dict.empty
       else documents Dict.empty ++ ["a.txt"].
Proof.
  apply (load_text_keeps_well_formed demo_fs "a.txt" None (Some (AList ["the"]))
           (simple_text_parser demo_fs) Dict.empty single_corpus).
  - now left.
  - exact well_formed_empty.
  - vm_compute. reflexivity.
Defined.

(** ** The driver *)

Lemma load_text_pdf_succeeds (fs : filesystem) (filepath label : string) (stop : pyarg)
    (sw : list string) (pages : list (option string)) (data : corpus) :
  load_stop_words fs stop = Ok sw ->
  pdf_pages fs filepath = Some pages ->
  exists data' : corpus,
    load_text fs filepath (Some label) (Some stop) (Some (pdf_parser fs)) data
    = (Ok tt, data').
Proof.
  intros Hsw Hpdf.
  assert (Hp : exists results, pdf_parser fs filepath stop = Ok results).
  { unfold pdf_parser, pdf_open. rewrite Hsw, Hpdf. simpl. eauto. }
  destruct Hp as [results Hp].
  exists (snd (store_results label results data)).
  transitivity (store_results label results data);
    [exact (load_text_with_parser fs filepath (Some label) (Some stop) (pdf_parser fs)
              stop results data eq_refl Hp)|].
  pose proof (store_results_ok label results data) as Hok.
  destruct (store_results label results data) as [[[]|e] d']; simpl in Hok;
    [reflexivity | discriminate].
Qed.

Lemma load_text_pdf_missing (fs : filesystem) (filepath label : string) (stop : pyarg)
    (sw : list string) (data : corpus) :
  load_stop_words fs stop = Ok sw ->
  pdf_pages fs filepath = None ->
  load_text fs filepath (Some label) (Some stop) (Some (pdf_parser fs)) data
  = (Err (if opens fs filepath then PdfminerException else IOError), data).
Proof.
  intros Hsw Hpdf.
  unfold load_text, bind, lift, stop_words_or_default, pdf_parser, pdf_open.
  rewrite Hsw, Hpdf. simpl. destruct (opens fs filepath); reflexivity.
Qed.

Lemma mem_false_keys {V : Type} (k : string) (d : Dict.t V) :
  ~ In k (Dict.keys d) -> Dict.mem k d = false.
Proof.
  intros H. unfold Dict.mem. apply get_None_keys in H. now rewrite H.
Qed.

(** Registering readable documents under fresh, distinct labels. *)
Lemma load_all_registers (fs : filesystem) (stop : pyarg) (sw : list string)
    (docs : list (string * string)) :
  load_stop_words fs stop = Ok sw ->
  (forall filepath label,
      In (filepath, label) docs -> exists pages, pdf_pages fs filepath = Some pages) ->
  NoDup (map snd docs) ->
  forall data : corpus,
    well_formed data ->
    (forall label, In label (map snd docs) -> ~ In label (documents data)) ->
    exists data' : corpus,
      load_all fs docs stop data = (Ok tt, data')
      /\ well_formed data'
      /\ documents data' = documents data ++ map snd docs.
Proof.
  intros Hsw.
  induction docs as [|[filepath label] rest IH]; intros Hopen Hnd data Hwf Hfresh.
  - exists data. simpl. rewrite app_nil_r.
    split; [reflexivity | split; [exact Hwf | reflexivity]].
  - destruct (Hopen filepath label (or_introl eq_refl)) as [pages Hpages].
    destruct (load_text_pdf_succeeds fs filepath label stop sw pages data Hsw Hpages)
      as [d1 Hd1].
    destruct (load_text_well_formed_step fs filepath (Some label) (Some stop)
                (pdf_parser fs) data d1 (or_intror eq_refl) Hwf Hd1) as [Hwf1 Hdocs1].
    rewrite mem_false_keys in Hdocs1
      by (rewrite documents_stat; apply Hfresh; now left).
    simpl in Hnd. inversion Hnd as [|? ? Hnotin Hnd']; subst.
    destruct (IH (fun f l H => Hopen f l (or_intror H)) Hnd' d1 Hwf1) as (d2 & Hrun & Hwf2 & Hdocs2).
    + intros l Hl. rewrite Hdocs1, in_app_iff. simpl.
      intros [H|[<-|[]]]; [|contradiction].
      apply (Hfresh l); [now right | exact H].
    + exists d2. split; [|split; [exact Hwf2|]].
      * simpl. unfold bind. rewrite Hd1. exact Hrun.
      * rewrite Hdocs2, Hdocs1, <- app_assoc. reflexivity.
Qed.

(** X7. When the stop-word file and the ten screenplays can be read, the
    driver registers all ten: the corpus is well formed and its documents
    are the ten labels of the driver, in the driver's order. *)
Theorem driver_registers_screenplays :
  forall (fs : filesystem) (sw : list string),
    load_stop_words fs (AStr "stop_words.txt") = Ok sw ->
    (forall filepath label,
        In (filepath, label) screenplays ->
        exists pages, pdf_pages fs filepath = Some pages) ->
    exists data' : corpus,
      driver_registration fs Dict.empty = (Ok tt, data')
      /\ well_formed data'
      /\ documents data'
         = ["A Real Pain"; "Anatomy of a Fall"; "Anora"; "Maestro"; "May December";
            "Past Lives"; "September 5"; "The Brutalist"; "The Holdovers";
            "The Substance"].
Proof.
  intros fs sw Hsw Hopen.
  destruct (load_all_registers fs (AStr "stop_words.txt") sw screenplays Hsw Hopen)
    with (data := @Dict.empty (Dict.t pyval)) as (data' & Hrun & Hwf & Hdocs).
  - repeat constructor; simpl; intuition discriminate.
  - exact well_formed_empty.
  - intros label _ [].
  - exists data'. split; [exact Hrun | split; [exact Hwf | exact Hdocs]].
Qed.

Lemma driver_registers_screenplays_witness :
  exists data' : corpus,
    driver_registration driver_fs Dict.empty = (Ok tt, data')
    /\ well_formed data'
    /\ documents data'
       = ["A Real Pain"; "Anatomy of a Fall"; "Anora"; "Maestro"; "May December";
          "Past Lives"; "September 5"; "The Brutalist"; "The Holdovers";
          "The Substance"].
Proof.
  apply (driver_registers_screenplays driver_fs ["the"; "on"]).
  - vm_compute. reflexivity.
  - intros filepath label _. eexists. reflexivity.
Defined.

Lemma load_all_app (fs : filesystem) (stop : pyarg) (pre rest : list (string * string))
    (data : corpus) :
  load_all fs (pre ++ rest) stop data
  = match load_all fs pre stop data with
    | (Ok _, d) => load_all fs rest stop d
    | (Err e, d) => (Err e, d)
    end.
Proof.
  revert data.
  induction pre as [|[filepath label] pre IH]; intros data; simpl.
  - reflexivity.
  - unfold bind.
    destruct (load_text fs filepath (Some label) (Some stop) (Some (pdf_parser fs)) data)
      as [[[]|e] d]; [apply IH | reflexivity].
Qed.

(** X8. The registration loop of the driver stops at the first document
    that [pdfplumber] cannot open.  It raises [IOError] when the file
    itself cannot be opened (it is missing), and [pdfplumber]'s
    [PdfminerException] when the file opens and is not a PDF; in both
    cases the corpus then holds the documents before that one, and no
    other. *)
Theorem load_all_stops_at_unreadable_document :
  forall (fs : filesystem) (stop : pyarg) (sw : list string)
         (pre post : list (string * string)) (filepath label : string) (data : corpus),
    load_stop_words fs stop = Ok sw ->
    (forall f l, In (f, l) pre -> exists pages, pdf_pages fs f = Some pages) ->
    pdf_pages fs filepath = None ->
    NoDup (map snd pre) ->
    well_formed data ->
    (forall l, In l (map snd pre) -> ~ In l (documents data)) ->
    exists data' : corpus,
      load_all fs (pre ++ (filepath, label) :: post) stop data
      = (Err (if opens fs filepath then PdfminerException else IOError), data')
      /\ well_formed data'
      /\ documents data' = documents data ++ map snd pre.
Proof.
  intros fs stop sw pre post filepath label data Hsw Hopen Hmissing Hnd Hwf Hfresh.
  destruct (load_all_registers fs stop sw pre Hsw Hopen Hnd data Hwf Hfresh)
    as (d1 & Hrun & Hwf1 & Hdocs1).
  exists d1. split; [|split; [exact Hwf1 | exact Hdocs1]].
  rewrite load_all_app, Hrun. simpl. unfold bind.
  now rewrite (load_text_pdf_missing fs filepath label stop sw d1 Hsw Hmissing).
Qed.

Lemma load_all_stops_at_unreadable_document_witness :
  (exists data' : corpus,
      load_all driver_fs_missing
        ([("a_real_pain_screenplay.pdf", "A Real Pain");
          ("anatomy_of_a_fall_screenplay.pdf", "Anatomy of a Fall");
          ("anora_screenplay.pdf", "Anora")]
         ++ ("maestro_screenplay.pdf", "Maestro")
            :: [("may_december_screenplays.pdf", "May December");
                ("past_lives_screenplay.pdf", "Past Lives");
                ("september_5_screenplay.pdf", "September 5");
                ("the_brutalist_screenplay.pdf", "The Brutalist");
                ("the_holdovers_screenplay.pdf", "The Holdovers");
                ("the_substance_screenplay.pdf", "The Substance")])
        (AStr "stop_words.txt") Dict.empty
      = (Err (if opens driver_fs_missing "maestro_screenplay.pdf"
              then PdfminerException else IOError), data')
      /\ well_formed data'
      /\ documents data'
         = documents Dict.empty
           ++ map snd [("a_real_pain_screenplay.pdf", "A Real Pain");
                       ("anatomy_of_a_fall_screenplay.pdf", "Anatomy of a Fall");
                       ("anora_screenplay.pdf", "Anora")])
  /\ (exists data' : corpus,
        load_all driver_fs_not_a_pdf
          ([("a_real_pain_screenplay.pdf", "A Real Pain")]
           ++ ("maestro_screenplay.pdf", "Maestro") :: [])
          (AStr "stop_words.txt") Dict.empty
        = (Err (if opens driver_fs_not_a_pdf "maestro_screenplay.pdf"
                then PdfminerException else IOError), data')
        /\ well_formed data'
        /\ documents data'
           = documents Dict.empty
             ++ map snd [("a_real_pain_screenplay.pdf", "A Real Pain")])
  /\ opens driver_fs_missing "maestro_screenplay.pdf" = false
  /\ opens driver_fs_not_a_pdf "maestro_screenplay.pdf" = true.
Proof.
  split; [|split; [|split; reflexivity]].
  - apply (load_all_stops_at_unreadable_document driver_fs_missing
             (AStr "stop_words.txt") ["the"; "on"]).
    + vm_compute. reflexivity.
    + intros f l Hin. simpl in Hin.
      destruct Hin as [E|[E|[E|[]]]]; injection E as <- <-; eexists; reflexivity.
    + reflexivity.
    + repeat constructor; simpl; intuition discriminate.
    + exact well_formed_empty.
    + intros l _ [].
  - apply (load_all_stops_at_unreadable_document driver_fs_not_a_pdf
             (AStr "stop_words.txt") ["the"; "on"]).
    + vm_compute. reflexivity.
    + intros f l Hin. simpl in Hin.
      destruct Hin as [E|[]]; injection E as <- <-; eexists; reflexivity.
    + reflexivity.
    + repeat constructor; simpl; intuition discriminate.
    + exact well_formed_empty.
    + intros l _ [].
Defined.

(** * Further properties of top-k selection *)

Lemma descending_tail (x : string * Z) (l : list (string * Z)) :
  descending (x :: l) -> descending l.
Proof. simpl. tauto. Qed.

Lemma descending_head (x : string * Z) (l : list (string * Z)) :
  descending (x :: l) -> forall y, In y l -> (snd y <= snd x)%Z.
Proof.
  revert x.
  induction l as [|z l IH]; intros x Hd y Hy; [contradiction|].
  destruct Hd as [Hzx Hd].
  destruct Hy as [<-|Hy]; [exact Hzx|].
  pose proof (IH z Hd y Hy). lia.
Qed.

Lemma descending_app (l1 l2 : list (string * Z)) :
  descending (l1 ++ l2) ->
  forall x y, In x l1 -> In y l2 -> (snd y <= snd x)%Z.
Proof.
  induction l1 as [|a l1 IH]; intros Hd x y Hx Hy; [contradiction|].
  change ((a :: l1) ++ l2) with (a :: (l1 ++ l2)) in Hd.
  destruct Hx as [<-|Hx].
  - apply (descending_head a (l1 ++ l2) Hd). apply in_or_app. now right.
  - apply IH; auto. exact (descending_tail _ _ Hd).
Qed.

Lemma descending_firstn (n : nat) (l : list (string * Z)) :
  descending l -> descending (firstn n l).
Proof.
  revert l.
  induction n as [|n IH]; intros l Hd; [exact I|].
  destruct l as [|x l]; [exact I|].
  simpl firstn. destruct Hd as [Hx Hd]. split; [|now apply IH].
  destruct l as [|y l]; [destruct n; exact I|].
  destruct n; [exact I | exact Hx].
Qed.

(** The sort is stable: the items of any given count stay in insertion
    order. *)
Lemma insert_desc_filter (n : Z) (x : string * Z) (l : list (string * Z)) :
  filter (fun y => (snd y =? n)%Z) (insert_desc x l)
  = filter (fun y => (snd y =? n)%Z) (x :: l).
Proof.
  induction l as [|y l IH]; [reflexivity|].
  simpl insert_desc.
  destruct (snd x <? snd y)%Z eqn:E; [|reflexivity].
  simpl filter in *. rewrite IH.
  apply Z.ltb_lt in E.
  destruct (snd x =? n)%Z eqn:Ex; [|reflexivity].
  apply Z.eqb_eq in Ex.
  destruct (snd y =? n)%Z eqn:Ey; [|reflexivity].
  apply Z.eqb_eq in Ey. lia.
Qed.

Lemma sorted_desc_stable (n : Z) (c : counter) :
  filter (fun y => (snd y =? n)%Z) (sorted_desc c)
  = filter (fun y => (snd y =? n)%Z) c.
Proof.
  unfold sorted_desc.
  induction c as [|x c IH]; [reflexivity|].
  simpl fold_right. rewrite insert_desc_filter. simpl. now rewrite IH.
Qed.

Lemma filter_firstn_prefix {A : Type} (p : A -> bool) (n : nat) (l : list A) :
  exists m : nat, filter p (firstn n l) = firstn m (filter p l).
Proof.
  revert l.
  induction n as [|n IH]; intros l; [now exists O|].
  destruct l as [|x l]; [now exists O|].
  destruct (IH l) as [m Hm]. simpl.
  destruct (p x); [exists (S m); simpl; now rewrite Hm | now exists m].
Qed.

(** X9. [most_common k] returns the [k] greatest counts (all of them when
    there are fewer, none when [k] is not positive), greatest first: no
    item left out has a greater count than an item returned, and among
    items of the same count the ones inserted first are returned, in
    insertion order. *)
Theorem most_common_is_top_k :
  forall (k : Z) (c : counter),
    List.length (most_common k c) = Nat.min (Z.to_nat k) (List.length c)
    /\ descending (most_common k c)
    /\ (exists rest : list (string * Z),
           Permutation (most_common k c ++ rest) c
           /\ forall x y, In x (most_common k c) -> In y rest -> (snd y <= snd x)%Z)
    /\ forall n : Z,
         exists m : nat,
           filter (fun y => (snd y =? n)%Z) (most_common k c)
           = firstn m (filter (fun y => (snd y =? n)%Z) c).
Proof.
  intros k c. unfold most_common.
  destruct (k <=? 0)%Z eqn:E.
  - apply Z.leb_le in E.
    replace (Z.to_nat k) with O by lia.
    split; [reflexivity|]. split; [exact I|]. split.
    + exists c. split; [apply Permutation_refl | intros x y []].
    + intros n. now exists O.
  - split; [|split; [|split]].
    + rewrite length_firstn, sorted_desc_length. reflexivity.
    + apply descending_firstn, sorted_desc_descending.
    + exists (skipn (Z.to_nat k) (sorted_desc c)). split.
      * rewrite firstn_skipn. apply sorted_desc_perm.
      * apply descending_app. rewrite firstn_skipn. apply sorted_desc_descending.
    + intros n.
      destruct (filter_firstn_prefix (fun y => (snd y =? n)%Z) (Z.to_nat k) (sorted_desc c))
        as [m Hm].
      exists m. now rewrite Hm, sorted_desc_stable.
Qed.

Lemma keys_count_element_eq (c : counter) (w : string) :
  Dict.keys (count_element c w)
  = if in_dec string_dec w (Dict.keys c) then Dict.keys c else Dict.keys c ++ [w].
Proof.
  unfold count_element.
  destruct (in_dec string_dec w (Dict.keys c)) as [Hin|Hnin].
  - destruct (Dict.get w c) eqn:E.
    + rewrite keys_set. unfold Dict.mem. now rewrite E.
    + apply get_None_keys in E. contradiction.
  - apply get_None_keys in Hnin. rewrite Hnin, keys_set. unfold Dict.mem. now rewrite Hnin.
Qed.

Lemma keys_fold_count (words : list string) (c : counter) :
  Dict.keys (fold_left count_element words c)
  = Dict.keys c ++ first_occurrences (Dict.keys c) words.
Proof.
  revert c.
  induction words as [|w words IH]; intros c; simpl.
  - now rewrite app_nil_r.
  - rewrite IH, keys_count_element_eq.
    destruct (in_dec string_dec w (Dict.keys c)); [reflexivity|].
    now rewrite <- app_assoc.
Qed.

(** X10. The keys of [Counter(words)] are the distinct words in the order
    of their first occurrence.  With the stable order of [most_common],
    words of equal count are therefore ranked by first appearance in the
    document; and the text the complexity heatmap scores for a document
    is these distinct words, joined by single spaces. *)
Theorem Counter_keys_in_first_occurrence_order :
  forall words : list string,
    Dict.keys (Counter words) = first_occurrences [] words
    /\ distinct_words_text (VCounter (Counter words))
       = Ok (PyStr.join " " (first_occurrences [] words))
    /\ forall n : Z,
         map fst (filter (fun y => (snd y =? n)%Z) (sorted_desc (Counter words)))
         = filter (fun w => (getd w (Counter words) =? n)%Z) (first_occurrences [] words).
Proof.
  intros words.
  assert (Hkeys : Dict.keys (Counter words) = first_occurrences [] words).
  { unfold Counter. now rewrite keys_fold_count. }
  split; [exact Hkeys|]. split.
  - simpl. now rewrite Hkeys.
  - intros n. rewrite sorted_desc_stable, <- Hkeys.
    destruct (Counter_invariants words) as (_ & Hnd & _).
    revert Hnd. generalize (Counter words). intros c.
    induction c as [|[w m] c IH]; intros Hnd; [reflexivity|].
    inversion Hnd as [|? ? Hnotin Hnd']; subst.
    simpl. unfold getd at 1. simpl. rewrite String.eqb_refl.
    assert (Hrest : filter (fun w0 => (getd w0 ((w, m) :: c) =? n)%Z) (Dict.keys c)
                    = filter (fun w0 => (getd w0 c =? n)%Z) (Dict.keys c)).
    { apply filter_ext_in. intros w0 Hw0. unfold getd. simpl.
      destruct (String.eqb_spec w0 w) as [->|_]; [contradiction | reflexivity]. }
    fold (Dict.keys c). rewrite Hrest, <- (IH Hnd').
    destruct (m =? n)%Z; reflexivity.
Qed.

(** * The adapters only read *)

Lemma keeps_ret {A : Type} (a : A) : keeps_records (ret a).
Proof. intros data k. reflexivity. Qed.

Lemma keeps_lift {A : Type} (r : result A) : keeps_records (lift r).
Proof. intros data k. reflexivity. Qed.

Lemma keeps_bind {A B : Type} (m : M A) (f : A -> M B) :
  keeps_records m -> (forall a, keeps_records (f a)) -> keeps_records (bind m f).
Proof.
  intros Hm Hf data k. unfold bind.
  specialize (Hm data k).
  destruct (m data) as [[a|e] d1]; simpl in *.
  - now rewrite (Hf a d1 k).
  - exact Hm.
Qed.

Lemma keeps_data_getitem (key : string) : keeps_records (data_getitem key).
Proof.
  intros data k.
  destruct (data_getitem_stat key data) as (d1 & -> & H). apply H.
Qed.

Lemma keeps_mapM {A B : Type} (f : A -> M B) (l : list A) :
  (forall a, keeps_records (f a)) -> keeps_records (mapM f l).
Proof.
  intros Hf. induction l as [|x l IH]; simpl.
  - apply keeps_ret.
  - apply keeps_bind; [apply Hf|]. intros y.
    apply keeps_bind; [exact IH|]. intros ys. apply keeps_ret.
Qed.

Lemma keeps_top_words_loop (k : Z) (files : list string) :
  forall acc, keeps_records (top_words_loop k files acc).
Proof.
  induction files as [|label rest IH]; intros acc; simpl.
  - apply keeps_ret.
  - apply keeps_bind; [apply keeps_data_getitem|]. intros wordcounts.
    apply keeps_bind; [apply keeps_lift|]. intros wordcount.
    apply keeps_bind; [apply keeps_lift|]. intros top_words. apply IH.
Qed.

Lemma keeps_sankey_top_words (word_list : option (list string)) (k : Z) :
  keeps_records (sankey_top_words word_list k).
Proof.
  unfold sankey_top_words.
  apply keeps_bind; [apply keeps_data_getitem|]. intros wordcounts.
  destruct word_list; [apply keeps_ret | apply keeps_top_words_loop].
Qed.

Lemma keeps_sankey_links (word_list : option (list string)) (k : Z) :
  keeps_records (sankey_links word_list k).
Proof.
  unfold sankey_links.
  apply keeps_bind; [apply keeps_sankey_top_words|]. intros tw.
  apply keeps_bind; [apply keeps_data_getitem|]. intros wordcounts.
  apply keeps_lift.
Qed.

Lemma keeps_word_freq_loop (files : list string) :
  forall word_freq, keeps_records (word_freq_loop files word_freq).
Proof.
  induction files as [|label rest IH]; intros word_freq; simpl.
  - apply keeps_ret.
  - apply keeps_bind; [apply keeps_data_getitem|]. intros wordcounts.
    apply keeps_bind; [apply keeps_lift|]. intros wordcount.
    apply keeps_bind; [apply keeps_lift|]. intros wf. apply IH.
Qed.

Lemma keeps_freq_cell (word file : string) : keeps_records (freq_cell word file).
Proof.
  unfold freq_cell.
  apply keeps_bind; [apply keeps_data_getitem|]. intros wordcounts.
  apply keeps_bind; [apply keeps_lift|]. intros wordcount.
  destruct wordcount; [apply keeps_lift | apply keeps_lift | apply keeps_ret].
Qed.

Lemma keeps_frequency_heatmap (k : Z) : keeps_records (frequency_heatmap k).
Proof.
  unfold frequency_heatmap.
  apply keeps_bind; [apply keeps_data_getitem|]. intros wordcounts.
  apply keeps_bind; [apply keeps_word_freq_loop|]. intros word_freq.
  apply keeps_bind; [|intros z; apply keeps_ret].
  apply keeps_mapM. intros word. apply keeps_mapM. intros file. apply keeps_freq_cell.
Qed.

Lemma keeps_barchart_loop (k cols : Z) (files : list string) :
  forall idx traces, keeps_records (barchart_loop k cols idx files traces).
Proof.
  induction files as [|label rest IH]; intros idx traces; simpl.
  - apply keeps_ret.
  - apply keeps_bind; [apply keeps_data_getitem|]. intros wordcounts.
    apply keeps_bind; [apply keeps_lift|]. intros wordcount.
    apply keeps_bind; [apply keeps_lift|]. intros top_words. apply IH.
Qed.

Lemma keeps_frequency_barchart (k : Z) : keeps_records (frequency_barchart k).
Proof.
  unfold frequency_barchart.
  apply keeps_bind; [apply keeps_data_getitem|]. intros wordcounts.
  apply keeps_bind; [apply keeps_lift|]. intros _.
  apply keeps_bind; [apply keeps_barchart_loop|]. intros traces. apply keeps_ret.
Qed.

Section KeepsFeatures.

Variable grade : string -> Q.
Variable poly : string -> Z.

Lemma keeps_get_features (text : string) : keeps_records (get_features grade poly text).
Proof.
  unfold get_features.
  apply keeps_bind; [apply keeps_data_getitem|]. intros wordcounts. apply keeps_ret.
Qed.

Lemma keeps_gather_row (label : string) : keeps_records (gather_row grade poly label).
Proof.
  unfold gather_row.
  apply keeps_bind; [apply keeps_data_getitem|]. intros wordcounts.
  apply keeps_bind; [apply keeps_lift|]. intros wordcount.
  apply keeps_bind; [apply keeps_lift|]. intros text.
  apply keeps_bind; [apply keeps_data_getitem|]. intros nw. apply keeps_ret.
Qed.

Lemma keeps_heatmap_loop (todo : list string) :
  forall data labels normalized,
    keeps_records (heatmap_loop grade poly todo data labels normalized).
Proof.
  induction todo as [|label rest IH]; intros data labels normalized; simpl.
  - apply keeps_ret.
  - apply keeps_bind; [apply keeps_gather_row|]. intros item.
    apply keeps_bind; [apply keeps_lift|]. intros n. apply IH.
Qed.

Lemma keeps_complexity_heatmap (k : Z) : keeps_records (complexity_heatmap grade poly k).
Proof.
  unfold complexity_heatmap.
  apply keeps_bind; [apply keeps_data_getitem|]. intros wordcounts.
  apply keeps_bind; [apply keeps_heatmap_loop|]. intros out.
  destruct (snd out); [apply keeps_ret | apply keeps_lift].
Qed.

End KeepsFeatures.

(** X11. The four adapters and [get_features] only read the corpus:
    whether they return or raise, every statistic holds afterwards the
    same labels, in the same order, with the same values, so the recorded
    entries and the list of documents are unchanged.  (Their lookups in
    [self.data] can still create an empty statistic.) *)
Theorem adapters_keep_records :
  forall (grade : string -> Q) (poly : string -> Z) (word_list : option (list string))
         (k : Z) (text : string) (data : corpus),
    let unchanged (data' : corpus) :=
      (forall s, stat data' s = stat data s)
      /\ (forall s label, entry data' s label = entry data s label)
      /\ documents data' = documents data in
    unchanged (snd (sankey_links word_list k data))
    /\ unchanged (snd (frequency_heatmap k data))
    /\ unchanged (snd (frequency_barchart k data))
    /\ unchanged (snd (get_features grade poly text data))
    /\ unchanged (snd (complexity_heatmap grade poly k data)).
Proof.
  intros grade poly word_list k text data unchanged.
  assert (H : forall data', (forall s, stat data' s = stat data s) -> unchanged data').
  { intros data' Hs. split; [exact Hs|]. split.
    - intros s label. now rewrite !entry_stat, Hs.
    - now rewrite <- !documents_stat, Hs. }
  split; [apply H; intros s; apply keeps_sankey_links|].
  split; [apply H; intros s; apply keeps_frequency_heatmap|].
  split; [apply H; intros s; apply keeps_frequency_barchart|].
  split; [apply H; intros s; apply keeps_get_features|].
  apply H; intros s; apply keeps_complexity_heatmap.
Qed.

(** * Further properties of the complexity heatmap *)

Section HeatmapOutcome.

Variable grade : string -> Q.
Variable poly : string -> Z.

(** With the rows gathered and numbers as word counts, the loop either
    raises [ZeroDivisionError] or ends with the normalization of all the
    rows. *)
Lemma heatmap_loop_outcome (data0 : corpus) (todo : list string) :
  forall (rows data : list row) (labels : list string)
         (normalized : option (list (Q * Q * Q))) (c : corpus) (ws : list Q),
    (forall k, stat c k = stat data0 k) ->
    traverse (row_of grade poly data0) todo = Ok rows ->
    rows <> [] ->
    word_count_column (data ++ rows) = Ok ws ->
    fst (heatmap_loop grade poly todo data labels normalized c) = Err ZeroDivisionError
    \/ exists (n : list (Q * Q * Q)) (c' : corpus),
         heatmap_loop grade poly todo data labels normalized c
         = (Ok (labels ++ todo, Some n), c')
         /\ normalize (data ++ rows) = Ok n.
Proof.
  induction todo as [|label rest IH];
    intros rows data labels normalized c ws Hc Hrows Hne Hws.
  - simpl in Hrows. injection Hrows as <-. congruence.
  - simpl in Hrows.
    destruct (row_of grade poly data0 label) as [item|e] eqn:Hitem; simpl in Hrows;
      [|discriminate].
    destruct (traverse (row_of grade poly data0) rest) as [rows'|e] eqn:Hrest;
      simpl in Hrows; [|discriminate].
    injection Hrows as <-.
    simpl. unfold bind, lift.
    destruct (gather_row_spec grade poly label c) as (c1 & -> & Hc1).
    rewrite (row_of_ext grade poly c data0 label Hc), Hitem.
    assert (Happ : data ++ item :: rows' = (data ++ [item]) ++ rows')
      by (rewrite <- app_assoc; reflexivity).
    rewrite Happ in Hws. rewrite Happ.
    destruct (word_count_column_prefix _ _ _ Hws) as [ws1 Hws1].
    destruct (normalize_outcome (data ++ [item]) ws1 Hws1) as [[rs Hrs]|Hrs].
    { destruct data; discriminate. }
    + rewrite Hrs.
      destruct rows' as [|item' rows'].
      * right. simpl in Hrest. destruct rest as [|l' rest'].
        -- exists rs, c1. simpl. rewrite app_nil_r. split; [reflexivity | exact Hrs].
        -- simpl in Hrest.
           destruct (row_of grade poly data0 l'); simpl in Hrest; [|discriminate].
           destruct (traverse (row_of grade poly data0) rest'); discriminate.
      * destruct (IH (item' :: rows') (data ++ [item]) (labels ++ [label]) (Some rs) c1 ws)
          as [H|(n & c' & Hrun & Hn)].
        -- intros k. now rewrite Hc1.
        -- reflexivity.
        -- discriminate.
        -- exact Hws.
        -- left. exact H.
        -- right. exists n, c'. split; [|exact Hn].
           rewrite Hrun, <- app_assoc. reflexivity.
    + rewrite Hrs. left. reflexivity.
Qed.

Lemma complexity_heatmap_outcome (k : Z) (data : corpus) (rows : list row) (ws : list Q) :
  batch_rows grade poly k data = Ok rows ->
  rows <> [] ->
  word_count_column rows = Ok ws ->
  fst (complexity_heatmap grade poly k data) = Err ZeroDivisionError
  \/ exists (n : list (Q * Q * Q)) (data' : corpus),
       complexity_heatmap grade poly k data
       = (Ok {| normalized_data := n; labels := batch_labels k data |}, data')
       /\ normalize rows = Ok n.
Proof.
  intros Hrows Hne Hws.
  destruct (complexity_heatmap_unfold grade poly k data) as (d1 & Hd1 & ->).
  destruct (heatmap_loop_outcome data (batch_labels k data) rows [] [] None d1 ws
              Hd1 Hrows Hne Hws) as [H|(n & c' & Hrun & Hn)].
  - left.
    destruct (heatmap_loop grade poly (batch_labels k data) [] [] None d1) as [[out|e] d2];
      simpl in H; [discriminate|].
    injection H as ->. reflexivity.
  - right. exists n, c'. rewrite Hrun. simpl. split; [reflexivity | exact Hn].
Qed.

Lemma complexity_heatmap_empty_batch (k : Z) (data : corpus) :
  batch_labels k data = [] ->
  fst (complexity_heatmap grade poly k data) = Err UnboundLocalError.
Proof.
  intros Hb.
  destruct (complexity_heatmap_unfold grade poly k data) as (d1 & _ & ->).
  rewrite Hb. reflexivity.
Qed.

End HeatmapOutcome.

Lemma total_nonneg (c : counter) : positive c -> (0 <= total c)%Z.
Proof.
  unfold positive, total, Dict.values.
  induction c as [|[w n] c IH]; intros H; simpl; [lia|].
  inversion H; subst. simpl in *. specialize (IH H3). lia.
Qed.

Lemma slice_to_incl {A : Type} (k : Z) (l : list A) (x : A) :
  In x (slice_to k l) -> In x l.
Proof.
  assert (Hfirst : forall n, In x (firstn n l) -> In x l).
  { intros n H. rewrite <- (firstn_skipn n l). apply in_or_app. now left. }
  unfold slice_to. destruct (0 <=? k)%Z; apply Hfirst.
Qed.

(** On a well-formed corpus every row is gathered, with the recorded
    [num_words], a number that is not negative. *)
Lemma well_formed_rows (grade : string -> Q) (poly : string -> Z) (data : corpus)
    (batch : list string) :
  well_formed data ->
  (forall label, In label batch -> In label (documents data)) ->
  exists (rows : list row) (ws : list Q),
    traverse (row_of grade poly data) batch = Ok rows
    /\ word_count_column rows = Ok ws
    /\ List.length rows = List.length batch
    /\ Forall (fun w => 0 <= w)%Q ws
    /\ Forall (fun r : row =>
                 exists (label : string) (c : counter),
                   In label batch
                   /\ entry data "wordcount" label = Some (VCounter c)
                   /\ fst (fst r) = Some (VInt (total c))
                   /\ snd (fst r) = poly (PyStr.join " " (Dict.keys c))
                   /\ snd r = grade (PyStr.join " " (Dict.keys c)))
         rows.
Proof.
  intros [Hnd Hwf].
  induction batch as [|label rest IH]; intros Hin.
  - exists [], []. repeat split; constructor.
  - destruct (IH (fun l H => Hin l (or_intror H)))
      as (rows & ws & Hrows & Hws & Hlen & Hpos & Hcol).
    pose proof (Hin label (or_introl eq_refl)) as Hl.
    rewrite <- documents_stat in Hl.
    destruct (Dict.get label (stat data "wordcount")) as [v|] eqn:Hv;
      [|apply get_None_keys in Hv; contradiction].
    destruct (Hwf label v (get_Some_In _ _ _ Hv)) as (c & -> & Hndc & Hposc & Hnw).
    rewrite entry_stat in Hnw.
    exists ((Some (VInt (total c)),
             poly (PyStr.join " " (Dict.keys c)),
             grade (PyStr.join " " (Dict.keys c))) :: rows),
           (inject_Z (total c) :: ws).
    split; [|split; [|split; [|split]]].
    + simpl. unfold row_of at 1, getitem. rewrite Hv, Hnw. simpl. now rewrite Hrows.
    + simpl. now rewrite Hws.
    + simpl. now rewrite Hlen.
    + constructor; [|exact Hpos].
      pose proof (total_nonneg c Hposc). unfold Qle. simpl. lia.
    + constructor.
      * exists label, c. simpl. rewrite entry_stat. repeat split; auto.
      * apply Forall_forall. intros r Hr. rewrite Forall_forall in Hcol.
        destruct (Hcol r Hr) as (l & c' & Hl' & H').
        exists l, c'. split; [now right | exact H'].
Qed.

Lemma normalize_rows_spec (mw mp mg : Q) (ws ps gs : list Q) (rs : list (Q * Q * Q)) :
  List.length ps = List.length ws ->
  List.length gs = List.length ws ->
  normalize_rows mw mp mg ws ps gs = Ok rs ->
  rs = map (fun t : Q * (Q * Q) =>
              ((fst t / mw)%Q, (fst (snd t) / mp)%Q, (snd (snd t) / mg)%Q))
         (combine ws (combine ps gs))
  /\ (ws <> [] -> ~ (mw == 0)%Q /\ ~ (mp == 0)%Q /\ ~ (mg == 0)%Q).
Proof.
  revert ps gs rs.
  induction ws as [|w ws IH]; intros ps gs rs Hp Hg H.
  - simpl in H. injection H as <-. split; [reflexivity | congruence].
  - destruct ps as [|p ps]; [discriminate|].
    destruct gs as [|g gs]; [discriminate|].
    simpl in H. unfold normalize_row in H.
    unfold py_div in H.
    destruct (Qeq_bool mw 0) eqn:Ew; [discriminate|].
    destruct (Qeq_bool mp 0) eqn:Ep; [discriminate|].
    destruct (Qeq_bool mg 0) eqn:Eg; [discriminate|].
    simpl in H.
    destruct (normalize_rows mw mp mg ws ps gs) as [rs'|e] eqn:E; [|discriminate].
    simpl in H. injection H as <-.
    simpl in Hp, Hg. injection Hp as Hp. injection Hg as Hg.
    destruct (IH ps gs rs' Hp Hg E) as [-> _].
    split; [reflexivity|].
    intros _. repeat split; now apply Qeq_bool_neq.
Qed.

Lemma normalize_spec (data : list row) (rs : list (Q * Q * Q)) :
  normalize data = Ok rs ->
  exists (ws : list Q) (mw mp mg : Q),
    word_count_column data = Ok ws
    /\ py_max ws = Ok mw
    /\ py_max (polysyllable_column data) = Ok mp
    /\ py_max (grade_column data) = Ok mg
    /\ rs = map (fun t : Q * (Q * Q) =>
                   ((fst t / mw)%Q, (fst (snd t) / mp)%Q, (snd (snd t) / mg)%Q))
              (combine ws (combine (polysyllable_column data) (grade_column data)))
    /\ ~ (mw == 0)%Q /\ ~ (mp == 0)%Q /\ ~ (mg == 0)%Q.
Proof.
  intros H. unfold normalize in H.
  destruct (word_count_column data) as [ws|e] eqn:Hws; [|discriminate]. simpl in H.
  destruct (py_max ws) as [mw|e] eqn:Hmw; [|discriminate]. simpl in H.
  destruct (py_max (polysyllable_column data)) as [mp|e] eqn:Hmp; [|discriminate].
  simpl in H.
  destruct (py_max (grade_column data)) as [mg|e] eqn:Hmg; [|discriminate].
  simpl in H.
  pose proof (word_count_column_length data ws Hws) as Hlen.
  destruct (normalize_rows_spec mw mp mg ws (polysyllable_column data)
              (grade_column data) rs) as [Hrs Hnz].
  - unfold polysyllable_column. now rewrite length_map.
  - unfold grade_column. now rewrite length_map.
  - exact H.
  - exists ws, mw, mp, mg. repeat split; auto; apply Hnz; now apply (py_max_Ok_nonempty ws mw).
Qed.

Lemma normalize_length (data : list row) (rs : list (Q * Q * Q)) :
  normalize data = Ok rs -> List.length rs = List.length data.
Proof.
  intros H.
  destruct (normalize_spec data rs H) as (ws & mw & mp & mg & Hws & _ & _ & _ & -> & _).
  pose proof (word_count_column_length data ws Hws) as Hlen.
  rewrite length_map, !length_combine.
  unfold polysyllable_column, grade_column. rewrite !length_map. lia.
Qed.

(** X12. On a well-formed corpus (one built with the parsers of the class)
    [complexity_heatmap] never raises for a value of the wrong type or a
    missing key.  With an empty batch it raises [UnboundLocalError]; with a
    batch it either raises [ZeroDivisionError] or returns the labels of the
    batch and one normalized row for each. *)
Theorem complexity_heatmap_on_well_formed_corpus :
  forall (grade : string -> Q) (poly : string -> Z) (k : Z) (data : corpus),
    well_formed data ->
    (batch_labels k data = []
     /\ fst (complexity_heatmap grade poly k data) = Err UnboundLocalError)
    \/ (batch_labels k data <> []
        /\ fst (complexity_heatmap grade poly k data) = Err ZeroDivisionError)
    \/ (batch_labels k data <> []
        /\ exists (n : list (Q * Q * Q)) (data' : corpus),
             complexity_heatmap grade poly k data
             = (Ok {| normalized_data := n; labels := batch_labels k data |}, data')
             /\ List.length n = List.length (batch_labels k data)).
Proof.
  intros grade poly k data Hwf.
  destruct (batch_labels k data) as [|label rest] eqn:Hb.
  - left. split; [reflexivity|]. now apply complexity_heatmap_empty_batch.
  - right.
    destruct (well_formed_rows grade poly data (batch_labels k data) Hwf)
      as (rows & ws & Hrows & Hws & Hlen & _).
    { intros l Hl. exact (slice_to_incl k _ l Hl). }
    assert (Hne : rows <> []).
    { intros ->. rewrite Hb in Hlen. discriminate. }
    destruct (complexity_heatmap_outcome grade poly k data rows ws Hrows Hne Hws)
      as [H|(n & d' & Hrun & Hn)].
    + left. split; [discriminate | exact H].
    + right. split; [discriminate|]. exists n, d'. rewrite <- Hb.
      split; [exact Hrun|].
      now rewrite (normalize_length rows n Hn).
Qed.

Lemma complexity_heatmap_on_well_formed_corpus_witness :
  (batch_labels 10 single_corpus = []
   /\ fst (complexity_heatmap (fun _ => 5%Q) (fun _ => 0%Z) 10 single_corpus)
      = Err UnboundLocalError)
  \/ (batch_labels 10 single_corpus <> []
      /\ fst (complexity_heatmap (fun _ => 5%Q) (fun _ => 0%Z) 10 single_corpus)
         = Err ZeroDivisionError)
  \/ (batch_labels 10 single_corpus <> []
      /\ exists (n : list (Q * Q * Q)) (data' : corpus),
           complexity_heatmap (fun _ => 5%Q) (fun _ => 0%Z) 10 single_corpus
           = (Ok {| normalized_data := n; labels := batch_labels 10 single_corpus |}, data')
           /\ List.length n = List.length (batch_labels 10 single_corpus)).
Proof.
  apply (complexity_heatmap_on_well_formed_corpus (fun _ => 5%Q) (fun _ => 0%Z) 10
           single_corpus).
  apply (load_text_well_formed_step demo_fs "a.txt" None (Some (AList ["the"]))
           (simple_text_parser demo_fs) Dict.empty single_corpus).
  - now left.
  - exact well_formed_empty.
  - vm_compute. reflexivity.
Defined.

(** X13. With nothing selected, [complexity_heatmap] raises
    [UnboundLocalError]: that is so when no document is registered, when
    [k] is 0, and when [k] is negative and drops as many documents from the
    end as there are. *)
Theorem complexity_heatmap_empty_selection :
  forall (grade : string -> Q) (poly : string -> Z) (k : Z) (data : corpus),
    documents data = [] \/ k = 0%Z
    \/ (k + Z.of_nat (List.length (documents data)) <= 0)%Z ->
    batch_labels k data = []
    /\ fst (complexity_heatmap grade poly k data) = Err UnboundLocalError.
Proof.
  intros grade poly k data H.
  assert (Hb : batch_labels k data = []).
  { unfold batch_labels, slice_to.
    destruct H as [->|[->|H]].
    - destruct (0 <=? k)%Z; apply firstn_nil.
    - reflexivity.
    - destruct (0 <=? k)%Z eqn:E.
      + apply Z.leb_le in E.
        destruct (documents data) as [|d ds]; [apply firstn_nil|].
        simpl List.length in H. assert (k = 0%Z) as -> by lia. reflexivity.
      + replace (Z.to_nat (Z.of_nat (List.length (documents data)) + k)) with O by lia.
        reflexivity. }
  split; [exact Hb | now apply complexity_heatmap_empty_batch].
Qed.

Lemma complexity_heatmap_empty_selection_witness :
  batch_labels (-2) demo_corpus = []
  /\ fst (complexity_heatmap (fun _ => 5%Q) (fun _ => 1%Z) (-2) demo_corpus)
     = Err UnboundLocalError.
Proof.
  apply (complexity_heatmap_empty_selection (fun _ => 5%Q) (fun _ => 1%Z) (-2) demo_corpus).
  right. right. vm_compute. discriminate.
Defined.

Lemma py_max_fold_spec (rest : list Q) (m0 : Q) :
  let m := fold_left (fun m y => match (y ?= m)%Q with Gt => y | _ => m end) rest m0 in
  (m = m0 \/ In m rest) /\ (m0 <= m)%Q /\ forall x, In x rest -> (x <= m)%Q.
Proof.
  revert m0.
  induction rest as [|y rest IH]; intros m0; simpl.
  - split; [now left|]. split; [apply Qle_refl | intros x []].
  - set (m1 := match (y ?= m0)%Q with Gt => y | _ => m0 end).
    destruct (IH m1) as (Hin & Hle & Hall).
    assert (H1 : (m0 <= m1)%Q /\ (y <= m1)%Q /\ (m1 = m0 \/ m1 = y)).
    { unfold m1. destruct (Qcompare_spec y m0) as [E|E|E].
      - repeat split; [apply Qle_refl | rewrite E; apply Qle_refl | now left].
      - repeat split; [apply Qle_refl | now apply Qlt_le_weak | now left].
      - repeat split; [now apply Qlt_le_weak | apply Qle_refl | now right]. }
    destruct H1 as (H0 & Hy & Hm1).
    split; [|split].
    + destruct Hin as [->|Hin]; [|right; now right].
      destruct Hm1 as [->| ->]; [now left | right; now left].
    + eapply Qle_trans; eassumption.
    + intros x [<-|Hx]; [eapply Qle_trans; eassumption | now apply Hall].
Qed.

(** [max] returns an item of the list, and no item is greater. *)
Lemma py_max_spec (xs : list Q) (m : Q) :
  py_max xs = Ok m -> In m xs /\ forall x, In x xs -> (x <= m)%Q.
Proof.
  destruct xs as [|x0 rest]; [discriminate|].
  simpl. intros [= <-].
  destruct (py_max_fold_spec rest x0) as (Hin & Hle & Hall).
  split.
  - destruct Hin as [->|Hin]; [now left | now right].
  - intros x [<-|Hx]; [exact Hle | now apply Hall].
Qed.

Lemma in_combine_exists_l {A B : Type} (l : list A) (l' : list B) (x : A) :
  List.length l' = List.length l -> In x l -> exists y, In (x, y) (combine l l').
Proof.
  revert l'.
  induction l as [|a l IH]; intros l' Hlen Hx; [contradiction|].
  destruct l' as [|b l']; [discriminate|].
  simpl in Hlen. injection Hlen as Hlen.
  destruct Hx as [->|Hx].
  - exists b. now left.
  - destruct (IH l' Hlen Hx) as [y Hy]. exists y. now right.
Qed.

Lemma in_combine_exists_r {A B : Type} (l : list A) (l' : list B) (y : B) :
  List.length l' = List.length l -> In y l' -> exists x, In (x, y) (combine l l').
Proof.
  revert l'.
  induction l as [|a l IH]; intros l' Hlen Hy.
  - destruct l'; [contradiction | discriminate].
  - destruct l' as [|b l']; [contradiction|].
    simpl in Hlen. injection Hlen as Hlen.
    destruct Hy as [->|Hy].
    + exists a. now left.
    + destruct (IH l' Hlen Hy) as [x Hx]. exists x. now right.
Qed.

Lemma unit_interval (x m : Q) :
  (0 <= x)%Q -> (x <= m)%Q -> ~ (m == 0)%Q -> (0 <= m)%Q ->
  (0 <= x / m)%Q /\ (x / m <= 1)%Q.
Proof.
  intros Hx Hxm Hm Hm0.
  assert (Hpos : (0 < m)%Q).
  { apply Qle_lteq in Hm0. destruct Hm0 as [H|H]; [exact H|].
    exfalso. apply Hm. now symmetry. }
  split.
  - apply Qle_shift_div_l; [exact Hpos|]. now rewrite Qmult_0_l.
  - apply Qle_shift_div_r; [exact Hpos|]. now rewrite Qmult_1_l.
Qed.

(** Normalized rows of features that are not negative. *)
Lemma normalize_bounds (data : list row) (n : list (Q * Q * Q)) (ws : list Q) :
  normalize data = Ok n ->
  word_count_column data = Ok ws ->
  Forall (fun w => 0 <= w)%Q ws ->
  Forall (fun p => 0 <= p)%Q (polysyllable_column data) ->
  Forall (fun g => 0 <= g)%Q (grade_column data) ->
  Forall (fun r : Q * Q * Q =>
            (0 <= fst (fst r) /\ fst (fst r) <= 1)
            /\ (0 <= snd (fst r) /\ snd (fst r) <= 1)
            /\ (0 <= snd r /\ snd r <= 1))%Q n
  /\ Exists (fun r : Q * Q * Q => fst (fst r) == 1)%Q n
  /\ Exists (fun r : Q * Q * Q => snd (fst r) == 1)%Q n
  /\ Exists (fun r : Q * Q * Q => snd r == 1)%Q n.
Proof.
  intros Hn Hws Hw Hp Hg.
  destruct (normalize_spec data n Hn)
    as (ws' & mw & mp & mg & Hws' & Hmw & Hmp & Hmg & -> & Hzw & Hzp & Hzg).
  rewrite Hws in Hws'. injection Hws' as <-.
  destruct (py_max_spec _ _ Hmw) as [Hinw Hmaxw].
  destruct (py_max_spec _ _ Hmp) as [Hinp Hmaxp].
  destruct (py_max_spec _ _ Hmg) as [Hing Hmaxg].
  rewrite Forall_forall in Hw, Hp, Hg.
  pose proof (word_count_column_length data ws Hws) as Hlen.
  assert (Hlp : List.length (polysyllable_column data) = List.length ws)
    by (unfold polysyllable_column; now rewrite length_map).
  assert (Hlg : List.length (grade_column data) = List.length (polysyllable_column data))
    by (unfold grade_column, polysyllable_column; now rewrite !length_map).
  assert (Hlc : List.length (combine (polysyllable_column data) (grade_column data))
                = List.length ws)
    by (rewrite length_combine; lia).
  split; [|split; [|split]].
  - apply Forall_forall. intros r Hr.
    apply in_map_iff in Hr. destruct Hr as ([w [p g]] & <- & Ht).
    pose proof (in_combine_l _ _ _ _ Ht) as Hw1.
    pose proof (in_combine_r _ _ _ _ Ht) as Hpg.
    pose proof (in_combine_l _ _ _ _ Hpg) as Hp1.
    pose proof (in_combine_r _ _ _ _ Hpg) as Hg1.
    simpl. repeat split;
      first [ apply (unit_interval w mw); auto
            | apply (unit_interval p mp); auto
            | apply (unit_interval g mg); auto ].
  - destruct (in_combine_exists_l ws _ mw Hlc Hinw) as [y Hy].
    apply Exists_exists. eexists. split; [apply in_map; exact Hy|].
    simpl. now apply Qdiv_self.
  - destruct (in_combine_exists_l _ (grade_column data) mp Hlg Hinp) as [g Hg1].
    destruct (in_combine_exists_r ws _ (mp, g) Hlc Hg1) as [w Hw1].
    apply Exists_exists. eexists. split; [apply in_map; exact Hw1|].
    simpl. now apply Qdiv_self.
  - destruct (in_combine_exists_r (polysyllable_column data) _ mg Hlg Hing) as [p Hp1].
    destruct (in_combine_exists_r ws _ (p, mg) Hlc Hp1) as [w Hw1].
    apply Exists_exists. eexists. split; [apply in_map; exact Hw1|].
    simpl. now apply Qdiv_self.
Qed.

(** X14. When the readability collaborators give no negative value on the
    texts of the batch (the distinct words of each selected document, joined
    by spaces), a heatmap returned for a well-formed corpus has all its
    normalized values between 0 and 1, and in each of the three columns some
    document of the batch has the value 1.  Nothing is asked of the
    collaborators on any other text. *)
Theorem complexity_heatmap_values_in_unit_interval :
  forall (grade : string -> Q) (poly : string -> Z) (k : Z)
         (data data' : corpus) (h : heatmap),
    well_formed data ->
    (forall (label : string) (c : counter),
        In label (batch_labels k data) ->
        entry data "wordcount" label = Some (VCounter c) ->
        (0 <= poly (PyStr.join " " (Dict.keys c)))%Z
        /\ (0 <= grade (PyStr.join " " (Dict.keys c)))%Q) ->
    complexity_heatmap grade poly k data = (Ok h, data') ->
    Forall (fun r : Q * Q * Q =>
              (0 <= fst (fst r) /\ fst (fst r) <= 1)
              /\ (0 <= snd (fst r) /\ snd (fst r) <= 1)
              /\ (0 <= snd r /\ snd r <= 1))%Q (normalized_data h)
    /\ Exists (fun r : Q * Q * Q => fst (fst r) == 1)%Q (normalized_data h)
    /\ Exists (fun r : Q * Q * Q => snd (fst r) == 1)%Q (normalized_data h)
    /\ Exists (fun r : Q * Q * Q => snd r == 1)%Q (normalized_data h).
Proof.
  intros grade poly k data data' h Hwf Hscores Hrun.
  destruct (well_formed_rows grade poly data (batch_labels k data) Hwf)
    as (rows & ws & Hrows & Hws & Hlen & Hpos & Hcol).
  { intros l Hl. exact (slice_to_incl k _ l Hl). }
  assert (Hne : rows <> []).
  { intros ->. simpl in Hlen. symmetry in Hlen. apply length_zero_iff_nil in Hlen.
    pose proof (complexity_heatmap_empty_batch grade poly k data Hlen) as H.
    rewrite Hrun in H. discriminate. }
  destruct (complexity_heatmap_outcome grade poly k data rows ws Hrows Hne Hws)
    as [H|(n & d' & Hrun' & Hn)].
  - rewrite Hrun in H. discriminate.
  - rewrite Hrun in Hrun'. injection Hrun' as -> _. simpl.
    rewrite Forall_forall in Hcol.
    apply (normalize_bounds rows n ws Hn Hws Hpos).
    + apply Forall_forall. intros p Hp. unfold polysyllable_column in Hp.
      apply in_map_iff in Hp. destruct Hp as (r & <- & Hr).
      destruct (Hcol r Hr) as (label & c & Hl & Hc & _ & -> & _).
      destruct (Hscores label c Hl Hc) as [Hpoly _]. unfold Qle. simpl. lia.
    + apply Forall_forall. intros g Hg. unfold grade_column in Hg.
      apply in_map_iff in Hg. destruct Hg as (r & <- & Hr).
      destruct (Hcol r Hr) as (label & c & Hl & Hc & _ & _ & ->).
      now destruct (Hscores label c Hl Hc).
Qed.

Lemma complexity_heatmap_values_in_unit_interval_witness :
  (Forall (fun r : Q * Q * Q =>
             (0 <= fst (fst r) /\ fst (fst r) <= 1)
             /\ (0 <= snd (fst r) /\ snd (fst r) <= 1)
             /\ (0 <= snd r /\ snd r <= 1))%Q
     (normalized_data
        {| normalized_data := [(6 # 6, 3 # 3, 17 # 17); (3 # 6, 2 # 3, 9 # 17)];
           labels := ["H"; "b.txt"] |})
   /\ Exists (fun r : Q * Q * Q => fst (fst r) == 1)%Q
        (normalized_data
           {| normalized_data := [(6 # 6, 3 # 3, 17 # 17); (3 # 6, 2 # 3, 9 # 17)];
              labels := ["H"; "b.txt"] |})
   /\ Exists (fun r : Q * Q * Q => snd (fst r) == 1)%Q
        (normalized_data
           {| normalized_data := [(6 # 6, 3 # 3, 17 # 17); (3 # 6, 2 # 3, 9 # 17)];
              labels := ["H"; "b.txt"] |})
   /\ Exists (fun r : Q * Q * Q => snd r == 1)%Q
        (normalized_data
           {| normalized_data := [(6 # 6, 3 # 3, 17 # 17); (3 # 6, 2 # 3, 9 # 17)];
              labels := ["H"; "b.txt"] |}))
  /\ ((fun text => if String.eqb text "H" then (-7 # 2)%Q
                   else inject_Z (count_chars text)) "H" < 0)%Q.
Proof.
  split; [|reflexivity].
  apply (complexity_heatmap_values_in_unit_interval
           (fun text => if String.eqb text "H" then (-7 # 2)%Q
                        else inject_Z (count_chars text))
           (fun text => if String.eqb text "a cat ran" then 2%Z else 3%Z)
           10 demo_corpus demo_corpus).
  - exact well_formed_demo_corpus.
  - intros label c Hl Hc.
    change (batch_labels 10 demo_corpus) with ["H"; "b.txt"] in Hl.
    destruct Hl as [<-|[<-|[]]]; vm_compute in Hc; injection Hc as <-;
      split; vm_compute; discriminate.
  - vm_compute. reflexivity.
Defined.

(** With negative grade levels the normalized values leave the unit
    interval: grades -1 and -2 give 1 and 2. *)
Lemma negative_grades_leave_unit_interval :
  normalize [(Some (VInt 4), 1%Z, (-1)%Q); (Some (VInt 2), 1%Z, (-2)%Q)]
  = Ok [(4 # 4, 1 # 1, 1 # 1); (2 # 4, 1 # 1, 2 # 1)]%Q.
Proof. vm_compute. reflexivity. Qed.

(** * Top-k selection in the adapters *)

Lemma normalize_rows_nonzero (mw mp mg : Q) (ws ps gs : list Q) :
  ~ (mw == 0)%Q -> ~ (mp == 0)%Q -> ~ (mg == 0)%Q ->
  exists rs, normalize_rows mw mp mg ws ps gs = Ok rs.
Proof.
  intros Hw Hp Hg. revert ps gs.
  induction ws as [|w ws IH]; intros ps gs; simpl; [eauto|].
  destruct ps as [|p ps]; [eauto|].
  destruct gs as [|g gs]; [eauto|].
  unfold normalize_row.
  rewrite (py_div_nonzero _ _ Hw), (py_div_nonzero _ _ Hp), (py_div_nonzero _ _ Hg).
  simpl. destruct (IH ps gs) as [rs ->]. simpl. eauto.
Qed.

Lemma py_max_positive (xs : list Q) :
  xs <> [] -> Forall (fun x => 0 < x)%Q xs ->
  exists m, py_max xs = Ok m /\ ~ (m == 0)%Q.
Proof.
  intros Hne Hpos.
  destruct (py_max_nonempty xs Hne) as [m Hm].
  exists m. split; [exact Hm|].
  destruct (py_max_spec xs m Hm) as [Hin _].
  rewrite Forall_forall in Hpos. specialize (Hpos m Hin).
  intros E. rewrite E in Hpos. exact (Qlt_irrefl 0 Hpos).
Qed.

(** Rows whose three features are all positive are normalized without a
    fault. *)
Lemma normalize_positive (data : list row) (ws : list Q) :
  data <> [] ->
  word_count_column data = Ok ws ->
  Forall (fun w => 0 < w)%Q ws ->
  Forall (fun p => 0 < p)%Q (polysyllable_column data) ->
  Forall (fun g => 0 < g)%Q (grade_column data) ->
  exists n, normalize data = Ok n.
Proof.
  intros Hne Hws Hw Hp Hg. unfold normalize. rewrite Hws. simpl.
  destruct (py_max_positive ws) as (mw & -> & Hmw); [|exact Hw|].
  { intros ->. apply word_count_column_length in Hws. destruct data; [congruence | discriminate]. }
  destruct (py_max_positive (polysyllable_column data)) as (mp & -> & Hmp); [|exact Hp|].
  { destruct data; [congruence | discriminate]. }
  destruct (py_max_positive (grade_column data)) as (mg & -> & Hmg); [|exact Hg|].
  { destruct data; [congruence | discriminate]. }
  simpl. now apply normalize_rows_nonzero.
Qed.

Lemma word_count_column_app (d1 d2 : list row) (ws : list Q) :
  word_count_column (d1 ++ d2) = Ok ws ->
  exists ws1 ws2,
    word_count_column d1 = Ok ws1 /\ word_count_column d2 = Ok ws2 /\ ws = ws1 ++ ws2.
Proof.
  revert ws.
  induction d1 as [|[[[[n|s|c]|] p] g] d1 IH]; intros ws H; simpl in *;
    try discriminate.
  - exists [], ws. auto.
  - destruct (word_count_column (d1 ++ d2)) as [ns|e] eqn:E; simpl in H; [|discriminate].
    injection H as <-.
    destruct (IH _ eq_refl) as (ws1 & ws2 & -> & -> & ->).
    exists (inject_Z n :: ws1), ws2. auto.
Qed.

(** The loop of [complexity_heatmap] on rows whose features are all
    positive: every label is visited, every normalization along the way
    succeeds, and the loop ends with all the labels and the normalization of
    all the rows. *)
Lemma heatmap_loop_positive (grade : string -> Q) (poly : string -> Z)
    (data0 : corpus) (todo : list string) :
  forall (rows data : list row) (labels : list string)
         (normalized : option (list (Q * Q * Q))) (c : corpus) (ws : list Q),
    (forall k, stat c k = stat data0 k) ->
    traverse (row_of grade poly data0) todo = Ok rows ->
    rows <> [] ->
    word_count_column (data ++ rows) = Ok ws ->
    Forall (fun w => 0 < w)%Q ws ->
    Forall (fun p => 0 < p)%Q (polysyllable_column (data ++ rows)) ->
    Forall (fun g => 0 < g)%Q (grade_column (data ++ rows)) ->
    exists (n : list (Q * Q * Q)) (c' : corpus),
      heatmap_loop grade poly todo data labels normalized c
      = (Ok (labels ++ todo, Some n), c')
      /\ normalize (data ++ rows) = Ok n.
Proof.
  induction todo as [|label rest IH];
    intros rows data labels normalized c ws Hc Hrows Hne Hws Hw Hp Hg.
  - simpl in Hrows. injection Hrows as <-. congruence.
  - simpl in Hrows.
    destruct (row_of grade poly data0 label) as [item|e] eqn:Hitem; simpl in Hrows;
      [|discriminate].
    destruct (traverse (row_of grade poly data0) rest) as [rows'|e] eqn:Hrest;
      simpl in Hrows; [|discriminate].
    injection Hrows as <-.
    simpl. unfold bind, lift.
    destruct (gather_row_spec grade poly label c) as (c1 & -> & Hc1).
    rewrite (row_of_ext grade poly c data0 label Hc), Hitem.
    assert (Happ : data ++ item :: rows' = (data ++ [item]) ++ rows')
      by (rewrite <- app_assoc; reflexivity).
    rewrite Happ in Hws, Hp, Hg. rewrite Happ.
    destruct (word_count_column_app _ _ _ Hws) as (ws1 & ws2 & Hws1 & Hws2 & ->).
    unfold polysyllable_column in Hp. unfold grade_column in Hg.
    rewrite map_app in Hp, Hg.
    apply Forall_app in Hw, Hp, Hg.
    destruct (normalize_positive (data ++ [item]) ws1) as [rs Hrs];
      [destruct data; discriminate | exact Hws1 | apply Hw | apply Hp | apply Hg |].
    rewrite Hrs.
    destruct rows' as [|item' rows'].
    + simpl in Hrest. destruct rest as [|l' rest'].
      * exists rs, c1. simpl. rewrite app_nil_r. split; [reflexivity | exact Hrs].
      * simpl in Hrest.
        destruct (row_of grade poly data0 l'); simpl in Hrest; [|discriminate].
        destruct (traverse (row_of grade poly data0) rest'); discriminate.
    + destruct (IH (item' :: rows') (data ++ [item]) (labels ++ [label]) (Some rs) c1
                  (ws1 ++ ws2))
        as (n & c' & Hrun & Hn).
      * intros k. now rewrite Hc1.
      * reflexivity.
      * discriminate.
      * exact Hws.
      * apply Forall_app. exact Hw.
      * unfold polysyllable_column. rewrite map_app. apply Forall_app. exact Hp.
      * unfold grade_column. rewrite map_app. apply Forall_app. exact Hg.
      * exists n, c'. split; [|exact Hn].
        rewrite Hrun, <- app_assoc. reflexivity.
Qed.

Lemma complexity_heatmap_positive (grade : string -> Q) (poly : string -> Z)
    (k : Z) (data : corpus) (rows : list row) (ws : list Q) :
  batch_rows grade poly k data = Ok rows ->
  rows <> [] ->
  word_count_column rows = Ok ws ->
  Forall (fun w => 0 < w)%Q ws ->
  Forall (fun p => 0 < p)%Q (polysyllable_column rows) ->
  Forall (fun g => 0 < g)%Q (grade_column rows) ->
  exists (n : list (Q * Q * Q)) (data' : corpus),
    complexity_heatmap grade poly k data
    = (Ok {| normalized_data := n; labels := batch_labels k data |}, data')
    /\ normalize rows = Ok n.
Proof.
  intros Hrows Hne Hws Hw Hp Hg.
  destruct (complexity_heatmap_unfold grade poly k data) as (d1 & Hd1 & ->).
  destruct (heatmap_loop_positive grade poly data (batch_labels k data) rows [] [] None d1 ws
              Hd1 Hrows Hne Hws Hw Hp Hg) as (n & c' & Hrun & Hn).
  exists n, c'. rewrite Hrun. simpl. split; [reflexivity | exact Hn].
Qed.

(** C8. A [k] at least as large as what is available selects all of it and
    raises nothing of its own.  [most_common k] of a vocabulary of at most
    [k] words is the whole vocabulary by decreasing count; the Sankey
    adapter then gives every document all its words.  The complexity
    heatmap with [k] at least the number of documents takes all documents
    and behaves as with [k] equal to that number; when the rows of the
    documents are gathered and their features are positive (so that no
    division of the normalization is by zero), it returns: the labels are
    all the documents, and the values are the normalization of the rows of
    all the documents, one row for each. *)
Theorem top_k_uses_all_available :
  (forall (k : Z) (c : counter),
      (Z.of_nat (List.length c) <= k)%Z ->
      most_common k c = sorted_desc c
      /\ Permutation (map fst (most_common k c)) (Dict.keys c))
  /\
  (forall (k : Z) (data : corpus),
      (forall label v,
          In (label, v) (stat data "wordcount") ->
          exists c, v = VCounter c /\ (Z.of_nat (List.length c) <= k)%Z) ->
      exists (top_words_per_file : Dict.t (list string)) (data' : corpus),
        sankey_top_words None k data = (Ok top_words_per_file, data')
        /\ forall label c,
             Dict.get label (stat data "wordcount") = Some (VCounter c) ->
             exists top_words,
               Dict.get label top_words_per_file = Some top_words
               /\ Permutation top_words (Dict.keys c))
  /\
  (forall (grade : string -> Q) (poly : string -> Z) (k : Z) (data : corpus),
      (Z.of_nat (List.length (documents data)) <= k)%Z ->
      batch_labels k data = documents data
      /\ complexity_heatmap grade poly k data
         = complexity_heatmap grade poly (Z.of_nat (List.length (documents data))) data
      /\ forall h data',
           complexity_heatmap grade poly k data = (Ok h, data') ->
           labels h = documents data)
  /\
  (forall (grade : string -> Q) (poly : string -> Z) (k : Z) (data : corpus)
          (rows : list row) (ws : list Q),
      (Z.of_nat (List.length (documents data)) <= k)%Z ->
      documents data <> [] ->
      traverse (row_of grade poly data) (documents data) = Ok rows ->
      word_count_column rows = Ok ws ->
      Forall (fun w => 0 < w)%Q ws ->
      Forall (fun p => 0 < p)%Q (polysyllable_column rows) ->
      Forall (fun g => 0 < g)%Q (grade_column rows) ->
      exists (n : list (Q * Q * Q)) (data' : corpus),
        complexity_heatmap grade poly k data
        = (Ok {| normalized_data := n; labels := documents data |}, data')
        /\ normalize rows = Ok n
        /\ List.length rows = List.length (documents data)
        /\ List.length n = List.length (documents data)).
Proof.
  split; [|split; [|split]].
  - intros k c Hk. rewrite (most_common_all k c Hk). split; [reflexivity|].
    unfold Dict.keys. apply Permutation_map, sorted_desc_perm.
  - intros k data Hwc.
    destruct (sankey_top_words_all k data Hwc) as (tw & d' & Hrun & Hall).
    exists tw, d'. split; [exact Hrun|].
    intros label c Hc. exists (map fst (sorted_desc c)). split; [now apply Hall|].
    unfold Dict.keys. apply Permutation_map, sorted_desc_perm.
  - intros grade poly k data Hk.
    assert (Hb : batch_labels k data = documents data)
      by (unfold batch_labels; now apply slice_to_all).
    split; [exact Hb|]. split.
    + unfold complexity_heatmap, bind.
      destruct (data_getitem "wordcount" data) as [[wordcounts|e] d1] eqn:E;
        [|reflexivity].
      destruct (data_getitem_stat "wordcount" data) as (d1' & E' & _).
      rewrite E in E'. injection E' as -> <-.
      rewrite documents_stat, !slice_to_all by lia. reflexivity.
    + intros h data' H.
      destruct (complexity_heatmap_unfold grade poly k data) as (d1 & _ & E).
      rewrite E, Hb in H.
      destruct (heatmap_loop grade poly (documents data) [] [] None d1) as [[out|e] d2] eqn:L;
        [|discriminate].
      apply heatmap_loop_labels in L.
      destruct (snd out); [|discriminate].
      injection H as <- _. simpl. exact L.
  - intros grade poly k data rows ws Hk Hdocs Hrows Hws Hw Hp Hg.
    assert (Hb : batch_labels k data = documents data)
      by (unfold batch_labels; now apply slice_to_all).
    assert (Hlen : List.length rows = List.length (documents data)).
    { clear - Hrows. revert rows Hrows.
      induction (documents data) as [|l ls IH]; intros rows Hrows; simpl in Hrows.
      - now injection Hrows as <-.
      - destruct (row_of grade poly data l); simpl in Hrows; [|discriminate].
        destruct (traverse (row_of grade poly data) ls) as [rs|e]; simpl in Hrows;
          [|discriminate].
        injection Hrows as <-. simpl. f_equal. now apply IH. }
    assert (Hne : rows <> []).
    { intros ->. simpl in Hlen. symmetry in Hlen. apply length_zero_iff_nil in Hlen.
      contradiction. }
    destruct (complexity_heatmap_positive grade poly k data rows ws)
      as (n & d' & Hrun & Hn); auto.
    { unfold batch_rows. now rewrite Hb. }
    exists n, d'. rewrite Hb in Hrun.
    split; [exact Hrun|]. split; [exact Hn|]. split; [exact Hlen|].
    now rewrite (normalize_length rows n Hn).
Qed.

Lemma top_k_uses_all_available_witness :
  (most_common 7 [("cat", 2%Z); ("sat", 1%Z); ("a", 3%Z)]
   = sorted_desc [("cat", 2%Z); ("sat", 1%Z); ("a", 3%Z)]
   /\ Permutation (map fst (most_common 7 [("cat", 2%Z); ("sat", 1%Z); ("a", 3%Z)]))
        (Dict.keys [("cat", 2%Z); ("sat", 1%Z); ("a", 3%Z)]))
  /\
  (exists (top_words_per_file : Dict.t (list string)) (data' : corpus),
      sankey_top_words None 5 demo_corpus = (Ok top_words_per_file, data')
      /\ forall label c,
           Dict.get label (stat demo_corpus "wordcount") = Some (VCounter c) ->
           exists top_words,
             Dict.get label top_words_per_file = Some top_words
             /\ Permutation top_words (Dict.keys c))
  /\
  (batch_labels 10 demo_corpus = documents demo_corpus
   /\ complexity_heatmap (fun _ => 1%Q) (fun _ => 1%Z) 10 demo_corpus
      = complexity_heatmap (fun _ => 1%Q) (fun _ => 1%Z)
          (Z.of_nat (List.length (documents demo_corpus))) demo_corpus
   /\ forall h data',
        complexity_heatmap (fun _ => 1%Q) (fun _ => 1%Z) 10 demo_corpus = (Ok h, data') ->
        labels h = documents demo_corpus)
  /\
  (exists (n : list (Q * Q * Q)) (data' : corpus),
      complexity_heatmap (fun text => inject_Z (count_chars text))
        (fun text => if String.eqb text "a cat ran" then 2%Z else 3%Z) 10 demo_corpus
      = (Ok {| normalized_data := n; labels := documents demo_corpus |}, data')
      /\ normalize [(Some (VInt 6), 3%Z, 17%Q); (Some (VInt 3), 2%Z, 9%Q)] = Ok n
      /\ List.length [(Some (VInt 6), 3%Z, 17%Q); (Some (VInt 3), 2%Z, 9%Q)]
         = List.length (documents demo_corpus)
      /\ List.length n = List.length (documents demo_corpus)).
Proof.
  split; [|split; [|split]].
  - apply (proj1 top_k_uses_all_available 7%Z [("cat", 2%Z); ("sat", 1%Z); ("a", 3%Z)]).
    simpl. lia.
  - apply (proj1 (proj2 top_k_uses_all_available) 5%Z demo_corpus).
    intros label v Hin. vm_compute in Hin.
    destruct Hin as [E|[E|[]]]; injection E as <- <-; eexists; (split; [reflexivity|]);
      simpl; lia.
  - apply (proj1 (proj2 (proj2 top_k_uses_all_available)) (fun _ => 1%Q) (fun _ => 1%Z) 10%Z
             demo_corpus).
    vm_compute. discriminate.
  - apply (proj2 (proj2 (proj2 top_k_uses_all_available))
             (fun text => inject_Z (count_chars text))
             (fun text => if String.eqb text "a cat ran" then 2%Z else 3%Z)
             10%Z demo_corpus
             [(Some (VInt 6), 3%Z, 17%Q); (Some (VInt 3), 2%Z, 9%Q)]
             [6%Q; 3%Q]).
    + vm_compute. discriminate.
    + vm_compute. discriminate.
    + vm_compute. reflexivity.
    + reflexivity.
    + repeat constructor.
    + repeat constructor.
    + repeat constructor.
Defined.

(** * The Sankey links *)

Lemma links_of_words_run (label : string) (c : counter) (words : list string)
    (links : list link) :
  links_of_words label (VCounter c) words links = Ok (links ++ links_for label c words).
Proof.
  revert links.
  induction words as [|w words IH]; intros links; simpl.
  - now rewrite app_nil_r.
  - unfold links_for in *. simpl flat_map.
    destruct (Dict.get w c) as [n|]; simpl; rewrite IH.
    + now rewrite <- app_assoc.
    + now rewrite app_nil_r.
Qed.

Lemma links_for_items (label : string) (c : counter) (items : list (string * Z)) :
  NoDup (Dict.keys c) ->
  (forall it, In it items -> In it c) ->
  links_for label c (map fst items)
  = map (fun it : string * Z => (label, fst it, snd it)) items.
Proof.
  intros Hnd.
  induction items as [|[w n] items IH]; intros Hin; [reflexivity|].
  unfold links_for in *. simpl.
  rewrite (In_get_nodup w n c Hnd (Hin _ (or_introl eq_refl))). simpl.
  f_equal. apply IH. intros it H. apply Hin. now right.
Qed.

Lemma most_common_incl (k : Z) (c : counter) (it : string * Z) :
  In it (most_common k c) -> In it c.
Proof.
  unfold most_common. destruct (k <=? 0)%Z; [intros []|].
  intros H.
  apply (Permutation_in it (sorted_desc_perm c)).
  rewrite <- (firstn_skipn (Z.to_nat k) (sorted_desc c)). apply in_or_app. now left.
Qed.

Lemma links_loop_run (f : string * pyval -> list link)
    (top_words_per_file : Dict.t (list string)) (items : Dict.t pyval) :
  (forall label v,
      In (label, v) items ->
      exists c top_words,
        v = VCounter c
        /\ Dict.get label top_words_per_file = Some top_words
        /\ links_for label c top_words = f (label, v)) ->
  forall links : list link,
    links_loop items top_words_per_file links = Ok (links ++ flat_map f items).
Proof.
  induction items as [|[label v] items IH]; intros Hitems links; simpl.
  - now rewrite app_nil_r.
  - destruct (Hitems label v (or_introl eq_refl)) as (c & tw & -> & Htw & Hf).
    unfold getitem. rewrite Htw. simpl.
    rewrite links_of_words_run. simpl.
    rewrite IH by (intros l v' H; apply Hitems; now right).
    now rewrite Hf, <- app_assoc.
Qed.

Lemma sankey_top_words_run (k : Z) (data : corpus) :
  (forall label v, In (label, v) (stat data "wordcount") -> exists c, v = VCounter c) ->
  exists (top_words_per_file : Dict.t (list string)) (data1 : corpus),
    sankey_top_words None k data = (Ok top_words_per_file, data1)
    /\ (forall s, stat data1 s = stat data s)
    /\ forall label c,
         Dict.get label (stat data "wordcount") = Some (VCounter c) ->
         Dict.get label top_words_per_file = Some (map fst (most_common k c)).
Proof.
  intros Hwc.
  destruct (data_getitem_recorded "wordcount" data) as (d1 & Hget & Hrec).
  destruct (data_getitem_stat "wordcount" data) as (d1' & Hget' & Hstat).
  rewrite Hget in Hget'. injection Hget' as <-.
  destruct (top_words_loop_spec k d1 (stat data "wordcount")
              (Dict.keys (stat data "wordcount")) Hrec) with (acc := @Dict.empty (list string))
    as (tw & Hrun & Hin & _).
  - intros label Hl.
    destruct (Dict.get label (stat data "wordcount")) as [v|] eqn:E.
    + destruct (Hwc label v (get_Some_In _ _ _ E)) as (c & ->). now exists c.
    + apply get_None_keys in E. contradiction.
  - exists tw, d1. split; [|split; [exact Hstat|]].
    + unfold sankey_top_words, bind. rewrite Hget. exact Hrun.
    + intros label c Hc. apply Hin; [|exact Hc].
      destruct (in_dec string_dec label (Dict.keys (stat data "wordcount"))) as [H|H];
        [exact H|].
      apply get_None_keys in H. congruence.
Qed.

Lemma word_list_top_words (word_list : list string) (files : list string) :
  forall (acc : Dict.t (list string)) (label : string),
    In label files ->
    Dict.get label (fold_left (fun d l => Dict.set l word_list d) files acc)
    = Some word_list.
Proof.
  induction files as [|f files IH]; intros acc label Hin; [contradiction|].
  simpl. destruct (in_dec string_dec label files) as [H|H]; [now apply IH|].
  destruct Hin as [->|Hin]; [|contradiction].
  assert (Hkeep : forall (fs' : list string) (a : Dict.t (list string)),
             ~ In label fs' ->
             Dict.get label (fold_left (fun d l => Dict.set l word_list d) fs' a)
             = Dict.get label a).
  { induction fs' as [|g fs' IHf]; intros a Hg; [reflexivity|].
    simpl. rewrite IHf by (intros Hx; apply Hg; now right).
    apply get_set_other. intros ->. apply Hg. now left. }
  rewrite Hkeep by exact H. apply get_set_same.
Qed.

(** X15. Without a word list, on a well-formed corpus, the Sankey adapter
    emits for each document, in registration order, one link for each of
    its [k] most common words, in the order of [most_common]: source the
    label, target the word, value the count of the word in that document
    (at least 1).  The test [word in wordcount] drops none of them. *)
Theorem sankey_links_of_top_words :
  forall (k : Z) (data : corpus),
    well_formed data ->
    exists data' : corpus,
      sankey_links None k data
      = (Ok (flat_map (top_links k) (stat data "wordcount")), data')
      /\ forall (label word : string) (n : Z),
           In (label, word, n) (flat_map (top_links k) (stat data "wordcount")) ->
           exists c : counter,
             entry data "wordcount" label = Some (VCounter c)
             /\ Dict.get word c = Some n
             /\ (1 <= n)%Z.
Proof.
  intros k data [Hnd Hwf].
  rewrite <- documents_stat in Hnd.
  destruct (sankey_top_words_run k data) as (tw & d1 & Htw & Hstat & Hget).
  { intros label v Hin. destruct (Hwf label v Hin) as (c & -> & _). now exists c. }
  destruct (data_getitem_stat "wordcount" d1) as (d2 & Hd2 & _).
  exists d2. split.
  - unfold sankey_links, bind, lift. rewrite Htw, Hd2, Hstat.
    rewrite (links_loop_run (top_links k) tw (stat data "wordcount")); [reflexivity|].
    intros label v Hin.
    destruct (Hwf label v Hin) as (c & -> & Hndc & _).
    exists c, (map fst (most_common k c)). split; [reflexivity|]. split.
    + apply Hget. now apply In_get_nodup.
    + unfold top_links. simpl. apply links_for_items; [exact Hndc|].
      intros it. apply most_common_incl.
  - intros label word n Hin.
    apply in_flat_map in Hin. destruct Hin as ([l v] & Hitem & Hlink).
    destruct (Hwf l v Hitem) as (c & -> & Hndc & Hpos & _).
    unfold top_links in Hlink. simpl in Hlink.
    apply in_map_iff in Hlink. destruct Hlink as ([w m] & [= <- <- <-] & Hit).
    apply most_common_incl in Hit.
    exists c. split; [|split].
    + rewrite entry_stat. now apply In_get_nodup.
    + now apply In_get_nodup.
    + unfold positive in Hpos. rewrite Forall_forall in Hpos. exact (Hpos _ Hit).
Qed.

Lemma sankey_links_of_top_words_witness :
  exists data' : corpus,
    sankey_links None 2 demo_corpus
    = (Ok (flat_map (top_links 2) (stat demo_corpus "wordcount")), data')
    /\ forall (label word : string) (n : Z),
         In (label, word, n) (flat_map (top_links 2) (stat demo_corpus "wordcount")) ->
         exists c : counter,
           entry demo_corpus "wordcount" label = Some (VCounter c)
           /\ Dict.get word c = Some n
           /\ (1 <= n)%Z.
Proof.
  apply (sankey_links_of_top_words 2 demo_corpus).
  exact well_formed_demo_corpus.
Defined.

(** X16. With a word list, the Sankey adapter ignores [k]: for each
    document, in registration order, it emits one link for each word of
    the list that the document has, in the order of the list, with the
    count of the word as value; a word the document does not have gives no
    link and raises nothing. *)
Theorem sankey_links_of_word_list :
  forall (word_list : list string) (k : Z) (data : corpus),
    (forall label v,
        In (label, v) (stat data "wordcount") -> exists c, v = VCounter c) ->
    exists data' : corpus,
      sankey_links (Some word_list) k data
      = (Ok (flat_map (word_list_links word_list) (stat data "wordcount")), data').
Proof.
  intros word_list k data Hwc.
  destruct (data_getitem_stat "wordcount" data) as (d1 & Hd1 & Hs1).
  destruct (data_getitem_stat "wordcount" d1) as (d2 & Hd2 & _).
  exists d2.
  unfold sankey_links, sankey_top_words, bind, lift, ret.
  rewrite Hd1, Hd2, Hs1.
  rewrite (links_loop_run (word_list_links word_list) _ (stat data "wordcount"));
    [reflexivity|].
  intros label v Hin.
  destruct (Hwc label v Hin) as (c & ->).
  exists c, word_list. split; [reflexivity|]. split; [|reflexivity].
  apply word_list_top_words.
  change label with (fst (label, VCounter c)). now apply in_map.
Qed.

Lemma sankey_links_of_word_list_witness :
  exists data' : corpus,
    sankey_links (Some ["cat"; "dog"; "ran"]) 5 demo_corpus
    = (Ok (flat_map (word_list_links ["cat"; "dog"; "ran"]) (stat demo_corpus "wordcount")),
       data').
Proof.
  apply (sankey_links_of_word_list ["cat"; "dog"; "ran"] 5 demo_corpus).
  intros label v Hin. vm_compute in Hin.
  destruct Hin as [E|[E|[]]]; injection E as <- <-; eexists; reflexivity.
Defined.

(** * The frequency heatmap *)

Lemma getd_set (e w : string) (n : Z) (c : counter) :
  getd w (Dict.set e n c) = if String.eqb e w then n else getd w c.
Proof. unfold getd. rewrite get_set. now destruct (String.eqb e w). Qed.

Lemma getd_absent (w : string) (c : counter) :
  ~ In w (Dict.keys c) -> getd w c = 0%Z.
Proof. intros H. apply get_None_keys in H. unfold getd. now rewrite H. Qed.

Lemma fold_update_getd (w : string) (items : list (string * Z)) :
  NoDup (map fst items) ->
  forall acc : counter,
    getd w (fold_left update_item items acc) = (getd w acc + getd w items)%Z.
Proof.
  induction items as [|[e n] items IH]; intros Hnd acc.
  - simpl. unfold getd at 3. simpl. lia.
  - simpl in Hnd. inversion Hnd as [|? ? Hnotin Hnd']; subst.
    simpl fold_left. rewrite IH by exact Hnd'.
    unfold update_item. simpl fst. simpl snd. rewrite getd_set.
    assert (Hcons : getd w ((e, n) :: items)
                    = if String.eqb e w then n else getd w items).
    { unfold getd. simpl. rewrite (String.eqb_sym w e).
      now destruct (String.eqb e w). }
    rewrite Hcons.
    destruct (String.eqb_spec e w) as [->|Hne].
    + rewrite (getd_absent w items Hnotin). lia.
    + reflexivity.
Qed.

Lemma fold_update_keys (w : string) (items : list (string * Z)) :
  forall acc : counter,
    In w (Dict.keys (fold_left update_item items acc))
    <-> In w (Dict.keys acc) \/ In w (map fst items).
Proof.
  induction items as [|[e n] items IH]; intros acc; simpl.
  - tauto.
  - rewrite IH. unfold update_item. simpl fst. rewrite in_keys_set. intuition.
Qed.

Lemma fold_update_nodup (items : list (string * Z)) :
  forall acc : counter,
    NoDup (Dict.keys acc) -> NoDup (Dict.keys (fold_left update_item items acc)).
Proof.
  induction items as [|[e n] items IH]; intros acc Hnd; simpl; [exact Hnd|].
  apply IH. unfold update_item. now apply nodup_keys_set.
Qed.

(** [Counter.update] with a [Counter] adds the counts, word by word. *)
Lemma counter_update_counter (self c : counter) :
  NoDup (Dict.keys self) -> NoDup (Dict.keys c) ->
  exists merged : counter,
    counter_update self (VCounter c) = Ok merged
    /\ NoDup (Dict.keys merged)
    /\ (forall w, getd w merged = (getd w self + getd w c)%Z)
    /\ (forall w, In w (Dict.keys merged) <-> In w (Dict.keys self) \/ In w (Dict.keys c)).
Proof.
  intros Hself Hc. simpl.
  destruct self as [|item self'] eqn:E.
  - exists c. repeat split; auto.
    + intros [[]|H]; exact H.
  - rewrite <- E in *. exists (fold_left update_item c self).
    split; [reflexivity|]. split; [now apply fold_update_nodup|]. split.
    + intros w. now apply fold_update_getd.
    + intros w. apply fold_update_keys.
Qed.

Lemma well_formed_entry (data : corpus) (label : string) :
  well_formed data ->
  In label (documents data) ->
  exists c : counter,
    entry data "wordcount" label = Some (VCounter c)
    /\ NoDup (Dict.keys c) /\ positive c.
Proof.
  intros [_ Hwf] Hin. rewrite <- documents_stat in Hin.
  destruct (Dict.get label (stat data "wordcount")) as [v|] eqn:E;
    [|apply get_None_keys in E; contradiction].
  destruct (Hwf label v (get_Some_In _ _ _ E)) as (c & -> & Hnd & Hpos & _).
  exists c. rewrite entry_stat. auto.
Qed.

Section FrequencyHeatmap.

Variable data0 : corpus.

Lemma word_freq_loop_run (files : list string) :
  (forall label, In label files ->
                 exists c, entry data0 "wordcount" label = Some (VCounter c)
                           /\ NoDup (Dict.keys c)) ->
  forall (acc : counter) (d : corpus),
    NoDup (Dict.keys acc) ->
    (forall s, stat d s = stat data0 s) ->
    exists (word_freq : counter) (d' : corpus),
      word_freq_loop files acc d = (Ok word_freq, d')
      /\ (forall s, stat d' s = stat data0 s)
      /\ NoDup (Dict.keys word_freq)
      /\ (forall w, getd w word_freq
                    = (getd w acc
                       + fold_right Z.add 0 (map (doc_count data0 w) files))%Z)
      /\ (forall w, In w (Dict.keys word_freq)
                    <-> In w (Dict.keys acc)
                        \/ exists label c,
                             In label files
                             /\ entry data0 "wordcount" label = Some (VCounter c)
                             /\ In w (Dict.keys c)).
Proof.
  induction files as [|label rest IH]; intros Hfiles acc d Hacc Hd.
  - exists acc, d. simpl. repeat split; auto.
    + intros w. lia.
    + intros [H|(l & c & [] & _)]. exact H.
  - destruct (Hfiles label (or_introl eq_refl)) as (c & Hentry & Hndc).
    destruct (counter_update_counter acc c Hacc Hndc) as (merged & Hup & Hndm & Hget & Hkeys).
    destruct (data_getitem_stat "wordcount" d) as (d1 & Hd1 & Hs1).
    destruct (IH (fun l H => Hfiles l (or_intror H)) merged d1 Hndm)
      as (wf & d' & Hrun & Hs' & Hndw & Hgetw & Hkeysw).
    { intros s. now rewrite Hs1. }
    exists wf, d'. split; [|split; [exact Hs'|split; [exact Hndw|split]]].
    + simpl. unfold bind, lift, getitem. rewrite Hd1, Hd.
      rewrite entry_stat in Hentry. rewrite Hentry, Hup. exact Hrun.
    + intros w. rewrite Hgetw, Hget. simpl.
      unfold doc_count at 2. rewrite Hentry. lia.
    + intros w. rewrite Hkeysw, Hkeys. split.
      * intros [[H|H]|(l & c' & Hl & He & Hw)].
        -- now left.
        -- right. exists label, c. repeat split; auto. now left.
        -- right. exists l, c'. repeat split; auto. now right.
      * intros [H|(l & c' & [<-|Hl] & He & Hw)].
        -- left. now left.
        -- left. right. congruence.
        -- right. exists l, c'. auto.
Qed.

Lemma mapM_run {A B : Type} (f : A -> M B) (g : A -> B) (l : list A) :
  (forall x, In x l ->
             forall d, (forall s, stat d s = stat data0 s) ->
                       exists d', f x d = (Ok (g x), d')
                                  /\ forall s, stat d' s = stat data0 s) ->
  forall d, (forall s, stat d s = stat data0 s) ->
            exists d', mapM f l d = (Ok (map g l), d')
                       /\ forall s, stat d' s = stat data0 s.
Proof.
  induction l as [|x l IH]; intros Hf d Hd.
  - exists d. split; [reflexivity | exact Hd].
  - destruct (Hf x (or_introl eq_refl) d Hd) as (d1 & Hx & Hd1).
    destruct (IH (fun y H => Hf y (or_intror H)) d1 Hd1) as (d2 & Hl & Hd2).
    exists d2. split; [|exact Hd2].
    simpl. unfold bind. rewrite Hx, Hl. reflexivity.
Qed.

Lemma freq_cell_run (word file : string) (c : counter) (d : corpus) :
  entry data0 "wordcount" file = Some (VCounter c) ->
  (forall s, stat d s = stat data0 s) ->
  exists d', freq_cell word file d = (Ok (doc_count data0 word file), d')
             /\ forall s, stat d' s = stat data0 s.
Proof.
  intros Hentry Hd.
  destruct (data_getitem_stat "wordcount" d) as (d1 & Hd1 & Hs1).
  exists d1. split; [|intros s; now rewrite Hs1].
  unfold freq_cell, bind, lift, getitem. rewrite Hd1, Hd.
  unfold doc_count. rewrite Hentry. rewrite entry_stat in Hentry. now rewrite Hentry.
Qed.

End FrequencyHeatmap.

Lemma sum_ge_item {A : Type} (f : A -> Z) (l : list A) (y : A) :
  (forall x, In x l -> (0 <= f x)%Z) -> In y l ->
  (f y <= fold_right Z.add 0 (map f l))%Z.
Proof.
  induction l as [|a l IH]; intros Hpos Hy; [contradiction|].
  simpl.
  assert (Hrest : (0 <= fold_right Z.add 0 (map f l))%Z).
  { clear IH Hy. induction l as [|b l IHl]; simpl; [lia|].
    pose proof (Hpos b (or_intror (or_introl eq_refl))).
    assert (0 <= fold_right Z.add 0 (map f l))%Z; [|lia].
    apply IHl. intros x [->|Hx]; apply Hpos; [now left | right; now right]. }
  destruct Hy as [->|Hy].
  - lia.
  - pose proof (Hpos a (or_introl eq_refl)).
    pose proof (IH (fun x H => Hpos x (or_intror H)) Hy). lia.
Qed.

Lemma getd_positive (w : string) (c : counter) :
  positive c -> (0 <= getd w c)%Z /\ (In w (Dict.keys c) -> (1 <= getd w c)%Z).
Proof.
  intros Hpos. unfold getd.
  destruct (Dict.get w c) as [n|] eqn:E.
  - pose proof (positive_get w n c Hpos E). split; [lia | intros _; lia].
  - split; [lia|]. intros H. apply get_None_keys in E. contradiction.
Qed.

(** X17. On a well-formed corpus the frequency heatmap has the documents
    as columns and, as rows, the [k] most common words of a counter that
    holds each word of the corpus once, with the sum of its counts over
    all documents (at least 1); the cell of a word and a document is the
    count of the word in the document, 0 when the document does not have
    it. *)
Theorem frequency_heatmap_counts :
  forall (k : Z) (data : corpus),
    well_formed data ->
    exists (h : freq_heatmap) (data' : corpus) (word_freq : counter),
      frequency_heatmap k data = (Ok h, data')
      /\ freq_files h = documents data
      /\ freq_words h = map fst (most_common k word_freq)
      /\ freq_matrix h
         = map (fun word => map (doc_count data word) (documents data)) (freq_words h)
      /\ NoDup (Dict.keys word_freq)
      /\ (forall w, In w (Dict.keys word_freq)
                    <-> exists label, In label (documents data)
                                      /\ (1 <= doc_count data w label)%Z)
      /\ (forall w n, In (w, n) word_freq -> n = corpus_count data w /\ (1 <= n)%Z).
Proof.
  intros k data Hwf.
  destruct (data_getitem_stat "wordcount" data) as (d1 & Hd1 & Hs1).
  destruct (word_freq_loop_run data (documents data)) with (acc := @Dict.empty Z) (d := d1)
    as (wf & d2 & Hloop & Hs2 & Hndw & Hgetw & Hkeysw).
  { intros label Hl. destruct (well_formed_entry data label Hwf Hl) as (c & He & Hnd & _).
    now exists c. }
  { constructor. }
  { exact Hs1. }
  destruct (mapM_run data
              (fun word => mapM (fun file => freq_cell word file) (documents data))
              (fun word => map (doc_count data word) (documents data))
              (map fst (most_common k wf))) with (d := d2) as (d3 & Hmat & _).
  { intros word _ d Hd.
    apply (mapM_run data (fun file => freq_cell word file) (doc_count data word)
             (documents data)); [|exact Hd].
    intros file Hfile d' Hd'.
    destruct (well_formed_entry data file Hwf Hfile) as (c & He & _).
    exact (freq_cell_run data word file c d' He Hd'). }
  { exact Hs2. }
  assert (Hdoc_nonneg : forall w label, In label (documents data) ->
                                       (0 <= doc_count data w label)%Z).
  { intros w label Hl.
    destruct (well_formed_entry data label Hwf Hl) as (c & He & _ & Hpos).
    unfold doc_count. rewrite He. apply (getd_positive w c Hpos). }
  assert (Hkeys : forall w, In w (Dict.keys wf)
                            <-> exists label, In label (documents data)
                                              /\ (1 <= doc_count data w label)%Z).
  { intros w. rewrite Hkeysw. split.
    - intros [[]|(label & c & Hl & He & Hw)].
      exists label. split; [exact Hl|].
      destruct (well_formed_entry data label Hwf Hl) as (c' & He' & _ & Hpos).
      rewrite He in He'. injection He' as <-.
      unfold doc_count. rewrite He. now apply (getd_positive w c Hpos).
    - intros (label & Hl & Hcount). right.
      destruct (well_formed_entry data label Hwf Hl) as (c & He & _ & Hpos).
      exists label, c. repeat split; auto.
      unfold doc_count in Hcount. rewrite He in Hcount.
      destruct (in_dec string_dec w (Dict.keys c)) as [H|H]; [exact H|].
      rewrite (getd_absent w c H) in Hcount. lia. }
  exists {| freq_matrix :=
              map (fun word => map (doc_count data word) (documents data))
                (map fst (most_common k wf));
            freq_files := documents data;
            freq_words := map fst (most_common k wf) |}, d3, wf.
  split; [|split; [reflexivity|split; [reflexivity|split; [reflexivity|split;
    [exact Hndw|split; [exact Hkeys|]]]]]].
  - unfold frequency_heatmap, bind. rewrite Hd1, documents_stat, Hloop, Hmat.
    reflexivity.
  - intros w n Hin.
    assert (Hn : n = corpus_count data w).
    { pose proof (Hgetw w) as H. unfold getd at 1 in H.
      rewrite (In_get_nodup w n wf Hndw Hin) in H. unfold corpus_count.
      rewrite H. unfold getd. simpl. lia. }
    split; [exact Hn|]. subst n.
    assert (Hw : In w (Dict.keys wf)).
    { change w with (fst (w, corpus_count data w)). now apply in_map. }
    apply Hkeys in Hw. destruct Hw as (label & Hl & Hcount).
    unfold corpus_count.
    pose proof (sum_ge_item (doc_count data w) (documents data) label
                  (fun x H => Hdoc_nonneg w x H) Hl). lia.
Qed.

Lemma frequency_heatmap_counts_witness :
  exists (h : freq_heatmap) (data' : corpus) (word_freq : counter),
    frequency_heatmap 2 demo_corpus = (Ok h, data')
    /\ freq_files h = documents demo_corpus
    /\ freq_words h = map fst (most_common 2 word_freq)
    /\ freq_matrix h
       = map (fun word => map (doc_count demo_corpus word) (documents demo_corpus))
           (freq_words h)
    /\ NoDup (Dict.keys word_freq)
    /\ (forall w, In w (Dict.keys word_freq)
                  <-> exists label, In label (documents demo_corpus)
                                    /\ (1 <= doc_count demo_corpus w label)%Z)
    /\ (forall w n, In (w, n) word_freq -> n = corpus_count demo_corpus w /\ (1 <= n)%Z).
Proof.
  apply (frequency_heatmap_counts 2 demo_corpus).
  exact well_formed_demo_corpus.
Defined.

(** * The bar chart grid *)

Lemma barchart_loop_run (data0 : corpus) (k : Z) (files : list string) :
  (forall label, In label files ->
                 exists c, entry data0 "wordcount" label = Some (VCounter c)) ->
  forall (idx : Z) (traces : list bar) (d : corpus),
    (forall s, stat d s = stat data0 s) ->
    exists d' : corpus,
      barchart_loop k 2 idx files traces d
      = (Ok (traces ++ bars_from data0 k idx files), d').
Proof.
  induction files as [|label rest IH]; intros Hfiles idx traces d Hd.
  - exists d. simpl. now rewrite app_nil_r.
  - destruct (Hfiles label (or_introl eq_refl)) as (c & Hentry).
    destruct (data_getitem_stat "wordcount" d) as (d1 & Hd1 & Hs1).
    destruct (IH (fun l H => Hfiles l (or_intror H)) (idx + 1)%Z
                (traces ++ [bar_of data0 k idx label]) d1) as (d' & Hrun).
    { intros s. now rewrite Hs1. }
    exists d'. simpl. unfold bind, lift, getitem. rewrite Hd1, Hd.
    pose proof Hentry as Hentry'. rewrite entry_stat in Hentry'. rewrite Hentry'.
    simpl. unfold bar_of in Hrun. rewrite Hentry in Hrun.
    rewrite Hrun, <- app_assoc. simpl. unfold bar_of. now rewrite Hentry.
Qed.

Lemma bars_from_names (data : corpus) (k : Z) (files : list string) :
  forall idx, map bar_name (bars_from data k idx files) = files.
Proof.
  induction files as [|label rest IH]; intros idx; simpl; [reflexivity|].
  now rewrite IH.
Qed.

Lemma bars_from_index (data : corpus) (k : Z) (files : list string) :
  forall (idx : Z) (t : bar),
    In t (bars_from data k idx files) ->
    exists i : Z,
      (idx <= i < idx + Z.of_nat (List.length files))%Z
      /\ In (bar_name t) files
      /\ t = bar_of data k i (bar_name t).
Proof.
  induction files as [|label rest IH]; intros idx t Hin; [contradiction|].
  destruct Hin as [<-|Hin].
  - exists idx. simpl List.length. split; [lia|]. split; [now left | reflexivity].
  - destruct (IH (idx + 1)%Z t Hin) as (i & Hi & Hname & Ht).
    exists i. simpl List.length. split; [lia|]. split; [now right | exact Ht].
Qed.

Lemma grid_position_injective (i j : Z) :
  (i / 2 + 1 = j / 2 + 1)%Z -> (i mod 2 + 1 = j mod 2 + 1)%Z -> i = j.
Proof.
  intros Hd Hm.
  rewrite (Z.div_mod i 2), (Z.div_mod j 2) by lia.
  replace (i / 2)%Z with (j / 2)%Z by lia.
  replace (i mod 2)%Z with (j mod 2)%Z by lia.
  reflexivity.
Qed.

Lemma bars_from_positions_nodup (data : corpus) (k : Z) (files : list string) :
  forall idx,
    NoDup (map (fun t => (bar_row t, bar_col t)) (bars_from data k idx files)).
Proof.
  induction files as [|label rest IH]; intros idx; simpl; [constructor|].
  constructor; [|apply IH].
  intros Hin. apply in_map_iff in Hin. destruct Hin as (t & Hpos & Ht).
  destruct (bars_from_index data k rest (idx + 1)%Z t Ht) as (i & Hi & _ & Heq).
  rewrite Heq in Hpos. simpl in Hpos. injection Hpos as Hrow Hcol.
  pose proof (grid_position_injective i idx Hrow Hcol). lia.
Qed.

Lemma grid_position_in_range (n i : Z) :
  (0 <= i < n)%Z ->
  (1 <= i / 2 + 1 <= (n + 1) / 2)%Z /\ (1 <= i mod 2 + 1 <= 2)%Z.
Proof.
  intros Hi.
  pose proof (Z.div_pos i 2 ltac:(lia) ltac:(lia)) as Hq.
  pose proof (Z.mod_pos_bound i 2 ltac:(lia)) as Hr.
  assert (Hle : (i / 2 <= (n - 1) / 2)%Z) by (apply Z.div_le_mono; lia).
  assert (Hn : ((n + 1) / 2 = (n - 1) / 2 + 1)%Z).
  { replace (n + 1)%Z with (n - 1 + 1 * 2)%Z by lia. apply Z.div_add. lia. }
  lia.
Qed.

Lemma make_subplots_rows (n : Z) :
  (0 <= n)%Z ->
  make_subplots ((n + 1) / 2) 2
  = if (n =? 0)%Z then Err ValueError else Ok tt.
Proof.
  intros Hn. unfold make_subplots.
  destruct (Z.eqb_spec n 0) as [->|Hne]; [reflexivity|].
  assert (H : (1 <= (n + 1) / 2)%Z).
  { apply Z.div_le_lower_bound; lia. }
  destruct ((n + 1) / 2 <=? 0)%Z eqn:E; [apply Z.leb_le in E; lia | reflexivity].
Qed.

(** X18. When every registered ['wordcount'] is a [Counter]: without any
    document, the bar chart adapter asks [make_subplots] for a grid of no
    rows, which raises [ValueError].  With documents, it asks for a grid of
    two columns and as many rows (at least one) as it takes for one cell
    per document, and adds one trace per document, in registration order,
    holding the words and counts of [most_common(k)] for that document;
    every trace goes to a cell inside the grid, and no two traces go to the
    same cell. *)
Theorem frequency_barchart_grid :
  forall (k : Z) (data : corpus),
    (forall label, In label (documents data) ->
                   exists c, entry data "wordcount" label = Some (VCounter c)) ->
    (documents data = []
     /\ fst (frequency_barchart k data) = Err ValueError)
    \/ (documents data <> []
        /\ exists (b : barchart) (data' : corpus),
             frequency_barchart k data = (Ok b, data')
             /\ grid_cols b = 2%Z
             /\ grid_rows b = ((Z.of_nat (List.length (documents data)) + 1) / 2)%Z
             /\ (1 <= grid_rows b)%Z
             /\ subplot_titles b = documents data
             /\ map bar_name (traces b) = documents data
             /\ NoDup (map (fun t => (bar_row t, bar_col t)) (traces b))
             /\ Forall (fun t =>
                          (1 <= bar_row t <= grid_rows b)%Z
                          /\ (1 <= bar_col t <= grid_cols b)%Z
                          /\ exists c,
                               entry data "wordcount" (bar_name t) = Some (VCounter c)
                               /\ bar_words t = map fst (most_common k c)
                               /\ bar_counts t = map snd (most_common k c))
                  (traces b)).
Proof.
  intros k data Hdocs.
  destruct (data_getitem_stat "wordcount" data) as (d1 & Hd1 & Hs1).
  pose proof (make_subplots_rows (Z.of_nat (List.length (documents data)))
                ltac:(lia)) as Hgrid.
  destruct (documents data) as [|doc docs] eqn:Hlist.
  - left. split; [reflexivity|].
    unfold frequency_barchart, bind, lift. rewrite Hd1, documents_stat, Hlist.
    reflexivity.
  - right. split; [discriminate|]. rewrite <- Hlist in *.
    assert (Hpos : (Z.of_nat (List.length (documents data)) =? 0)%Z = false).
    { rewrite Hlist. reflexivity. }
    rewrite Hpos in Hgrid.
    destruct (barchart_loop_run data k (documents data) Hdocs 0%Z [] d1 Hs1)
      as (d2 & Hrun).
    simpl app in Hrun.
    exists {| grid_rows := ((Z.of_nat (List.length (documents data)) + 1) / 2)%Z;
              grid_cols := 2%Z;
              subplot_titles := documents data;
              traces := bars_from data k 0 (documents data) |}, d2.
    split; [|split; [reflexivity|split; [reflexivity|split; [|split; [reflexivity|split;
      [apply bars_from_names|split; [apply bars_from_positions_nodup|]]]]]]].
    + unfold frequency_barchart, bind, lift.
      rewrite Hd1, documents_stat, Hgrid, Hrun. reflexivity.
    + simpl. apply Z.div_le_lower_bound; [lia|]. rewrite Hlist. simpl List.length. lia.
    + simpl. apply Forall_forall. intros t Ht.
      destruct (bars_from_index data k (documents data) 0%Z t Ht)
        as (i & Hi & Hname & Heq).
      destruct (Hdocs _ Hname) as (c & Hc).
      destruct (grid_position_in_range (Z.of_nat (List.length (documents data))) i)
        as [Hrow Hcol]; [lia|].
      rewrite Heq. simpl bar_row. simpl bar_col. simpl bar_name.
      split; [exact Hrow|]. split; [exact Hcol|].
      exists c. split; [exact Hc|]. unfold bar_of. simpl. rewrite Hc. split; reflexivity.
Qed.

Lemma frequency_barchart_grid_witness :
  ((documents demo_corpus = []
    /\ fst (frequency_barchart 2 demo_corpus) = Err ValueError)
   \/ (documents demo_corpus <> []
       /\ exists (b : barchart) (data' : corpus),
            frequency_barchart 2 demo_corpus = (Ok b, data')
            /\ grid_cols b = 2%Z
            /\ grid_rows b = ((Z.of_nat (List.length (documents demo_corpus)) + 1) / 2)%Z
            /\ (1 <= grid_rows b)%Z
            /\ subplot_titles b = documents demo_corpus
            /\ map bar_name (traces b) = documents demo_corpus
            /\ NoDup (map (fun t => (bar_row t, bar_col t)) (traces b))
            /\ Forall (fun t =>
                         (1 <= bar_row t <= grid_rows b)%Z
                         /\ (1 <= bar_col t <= grid_cols b)%Z
                         /\ exists c,
                              entry demo_corpus "wordcount" (bar_name t)
                              = Some (VCounter c)
                              /\ bar_words t = map fst (most_common 2 c)
                              /\ bar_counts t = map snd (most_common 2 c))
                 (traces b)))
  /\ documents demo_corpus <> []
  /\ fst (frequency_barchart 2 Dict.empty) = Err ValueError.
Proof.
  split; [|split; [vm_compute; discriminate | reflexivity]].
  apply (frequency_barchart_grid 2 demo_corpus).
  intros label Hl.
  destruct (well_formed_entry demo_corpus label well_formed_demo_corpus Hl) as (c & Hc & _).
  now exists c.
Defined.

(** * Stop words given as a string *)

Lemma prefix_spec (a b : string) :
  String.prefix a b = true <-> exists post, b = (a ++ post)%string.
Proof.
  revert b.
  induction a as [|x a IH]; intros b.
  - split; [intros _; now exists b | intros _; now destruct b].
  - destruct b as [|y b]; simpl.
    + split; [discriminate | intros [post H]; discriminate].
    + destruct (Ascii.ascii_dec x y) as [->|Hne].
      * rewrite IH. split; intros [post H]; exists post; [now rewrite H | now injection H].
      * split; [discriminate | intros [post H]; injection H as H1 _; congruence].
Qed.

Lemma contains_spec (sub s : string) :
  PyStr.contains sub s = true
  <-> exists pre post, s = (pre ++ sub ++ post)%string.
Proof.
  induction s as [|y s IH].
  - change (PyStr.contains sub EmptyString)
      with (String.prefix sub EmptyString || false)%bool.
    rewrite orb_false_r, prefix_spec. split.
    + intros [post H]. now exists EmptyString, post.
    + intros (pre & post & H).
      destruct pre as [|p pre]; [now exists post | discriminate].
  - change (PyStr.contains sub (String y s))
      with (String.prefix sub (String y s) || PyStr.contains sub s)%bool.
    rewrite orb_true_iff, prefix_spec, IH. split.
    + intros [[post H]|(pre & post & H)].
      * now exists EmptyString, post.
      * exists (String y pre), post. simpl. now rewrite H.
    + intros (pre & post & H).
      destruct pre as [|p pre].
      * left. now exists post.
      * right. simpl in H. injection H as _ H. now exists pre, post.
Qed.

(** X19. When [stop_words] is a string (such as the path of the stop-word
    file, which [pdf_parser] expects) the plain-text parser does not read
    it as a file: [word not in stop_words] is a substring test, and a token
    is kept iff it is alphabetic and occurs nowhere inside that string. *)
Theorem stop_words_string_is_substring_filter :
  forall (raw s w : string),
    In w (filter_words raw (AStr s))
    <-> In w (PyStr.split raw)
        /\ PyStr.isalpha w = true
        /\ ~ exists pre post, s = (pre ++ w ++ post)%string.
Proof.
  intros raw s w.
  unfold filter_words, keep_word. rewrite filter_In, andb_true_iff, negb_true_iff.
  simpl py_in. rewrite <- contains_spec.
  destruct (PyStr.contains w s).
  - split; [intros (_ & _ & H); discriminate | intros (_ & _ & H); now elim H].
  - split; intros (H1 & H2 & _); repeat split; auto; discriminate.
Qed.

(** * The statistics of a corpus *)

Lemma mem_keys {V W : Type} (k : string) (d : Dict.t V) (d' : Dict.t W) :
  Dict.keys d = Dict.keys d' -> Dict.mem k d = Dict.mem k d'.
Proof.
  intros H. unfold Dict.mem.
  destruct (Dict.get k d) eqn:E, (Dict.get k d') eqn:E'; try reflexivity.
  - apply get_None_keys in E'. rewrite <- H in E'.
    apply get_None_keys in E'. congruence.
  - apply get_None_keys in E. rewrite H in E.
    apply get_None_keys in E. congruence.
Qed.

Lemma class_parser_keys (fs : filesystem) (parser : parser_fn) (stats : list string)
    (filename : string) (sw : pyarg) (results : Dict.t pyval) :
  (parser = simple_text_parser fs /\ stats = ["wordcount"; "num_words"])
  \/ (parser = pdf_parser fs
      /\ stats = ["wordcount"; "num_words"; "num_pages"; "raw_text"]) ->
  parser filename sw = Ok results ->
  Dict.keys results = stats.
Proof.
  intros [[-> ->]|[-> ->]] H.
  - unfold simple_text_parser in H.
    destruct (open_read fs filename) as [content|e]; simpl in H; [|discriminate].
    now injection H as <-.
  - unfold pdf_parser in H.
    destruct (load_stop_words fs sw) as [l|e]; simpl in H; [|discriminate].
    destruct (pdf_open fs filename) as [pages|e]; simpl in H; [|discriminate].
    now injection H as <-.
Qed.

(** X20. The statistics a parser of the class produces stay on the same
    labels: if each of them holds the labels of ['wordcount'], in the same
    order, before a registration with that parser, it does so after it;
    and every other statistic is left as it was.  The statistics are
    ['wordcount'] and ['num_words'] for the plain-text parser, and these
    with ['num_pages'] and ['raw_text'] for the paginated parser. *)
Theorem load_text_keeps_statistics_aligned :
  forall (fs : filesystem) (filename : string) (label : option string)
         (stop_words : option pyarg) (parser : parser_fn) (stats : list string)
         (data data' : corpus),
    (parser = simple_text_parser fs /\ stats = ["wordcount"; "num_words"])
    \/ (parser = pdf_parser fs
        /\ stats = ["wordcount"; "num_words"; "num_pages"; "raw_text"]) ->
    aligned stats data ->
    load_text fs filename label stop_words (Some parser) data = (Ok tt, data') ->
    aligned stats data'
    /\ forall s, ~ In s stats -> stat data' s = stat data s.
Proof.
  intros fs filename label stop_words parser stats data data' Hparser Halign Hrun.
  destruct (load_text_run _ _ _ _ _ _ _ Hrun) as (sw & results & _ & Hp & ->).
  pose proof (class_parser_keys fs parser stats filename sw results Hparser Hp) as Hkeys.
  assert (Hnd : NoDup (Dict.keys results)).
  { rewrite Hkeys. destruct Hparser as [[_ ->]|[_ ->]];
      repeat constructor; simpl; intuition discriminate. }
  assert (Hwc : In "wordcount" stats).
  { destruct Hparser as [[_ ->]|[_ ->]]; now left. }
  set (name := match label with Some l => l | None => filename end).
  assert (Hin : forall s, In s stats ->
                  exists v, stat (snd (store_results name results data)) s
                            = Dict.set name v (stat data s)).
  { intros s Hs. rewrite stat_store_results by exact Hnd.
    destruct (Dict.get s results) as [v|] eqn:E; [now exists v|].
    apply get_None_keys in E. rewrite Hkeys in E. contradiction. }
  split.
  - intros s Hs. unfold aligned in Halign.
    destruct (Hin s Hs) as (v & Hv). destruct (Hin "wordcount" Hwc) as (v0 & Hv0).
    rewrite <- documents_stat, Hv, Hv0, !keys_set.
    rewrite (mem_keys name (stat data s) (stat data "wordcount"))
      by (rewrite (Halign s Hs), documents_stat; reflexivity).
    rewrite (Halign s Hs), documents_stat. reflexivity.
  - intros s Hs. rewrite stat_store_results by exact Hnd.
    destruct (Dict.get s results) as [v|] eqn:E; [|reflexivity].
    exfalso. apply Hs. rewrite <- Hkeys.
    destruct (in_dec string_dec s (Dict.keys results)) as [H|H]; [exact H|].
    apply get_None_keys in H. congruence.
Qed.

Lemma load_text_keeps_statistics_aligned_witness :
  aligned ["wordcount"; "num_words"; "num_pages"; "raw_text"]
    (snd (load_text demo_fs "script.pdf" (Some "H") (Some (AStr "stop_words.txt"))
            (Some (pdf_parser demo_fs)) Dict.empty))
  /\ forall s, ~ In s ["wordcount"; "num_words"; "num_pages"; "raw_text"] ->
               stat (snd (load_text demo_fs "script.pdf" (Some "H")
                            (Some (AStr "stop_words.txt"))
                            (Some (pdf_parser demo_fs)) Dict.empty)) s
               = stat Dict.empty s.
Proof.
  apply (load_text_keeps_statistics_aligned demo_fs "script.pdf" (Some "H")
           (Some (AStr "stop_words.txt")) (pdf_parser demo_fs)
           ["wordcount"; "num_words"; "num_pages"; "raw_text"] Dict.empty).
  - right. split; reflexivity.
  - intros s _. reflexivity.
  - vm_compute. reflexivity.
Defined.

(** Mixing the parsers breaks the alignment: after a script and a text,
    ['num_pages'] holds the script only. *)
Lemma mixed_parsers_not_aligned :
  documents demo_corpus = ["H"; "b.txt"]
  /\ Dict.keys (stat demo_corpus "num_pages") = ["H"].
Proof. split; vm_compute; reflexivity. Qed.

(** X21. A document registered without an integer ['num_words'] (by a
    parser that does not return one) breaks the complexity heatmap: when
    it is the first document of the batch, the call raises [TypeError],
    whatever the other documents are. *)
Theorem complexity_heatmap_missing_num_words :
  forall (grade : string -> Q) (poly : string -> Z) (k : Z) (data : corpus)
         (label : string) (rest : list string) (c : counter),
    batch_labels k data = label :: rest ->
    entry data "wordcount" label = Some (VCounter c) ->
    (forall n, entry data "num_words" label <> Some (VInt n)) ->
    fst (complexity_heatmap grade poly k data) = Err TypeError.
Proof.
  intros grade poly k data label rest c Hbatch Hwc Hnw.
  destruct (complexity_heatmap_unfold grade poly k data) as (d1 & Hd1 & ->).
  rewrite Hbatch. simpl. unfold bind, lift.
  destruct (gather_row_spec grade poly label d1) as (d2 & -> & _).
  rewrite (row_of_ext grade poly d1 data label Hd1).
  unfold row_of, getitem. rewrite <- !entry_stat, Hwc. simpl.
  unfold normalize. simpl.
  destruct (entry data "num_words" label) as [[n|s|c']|] eqn:E; try reflexivity.
  exfalso. exact (Hnw n eq_refl).
Qed.

Lemma complexity_heatmap_missing_num_words_witness :
  fst (complexity_heatmap (fun _ => 5%Q) (fun _ => 1%Z) 10
         [("wordcount", [("doc", VCounter [("cat", 1%Z)])])])
  = Err TypeError.
Proof.
  apply (complexity_heatmap_missing_num_words (fun _ => 5%Q) (fun _ => 1%Z) 10
           [("wordcount", [("doc", VCounter [("cat", 1%Z)])])] "doc" [] [("cat", 1%Z)]).
  - reflexivity.
  - reflexivity.
  - intros n. vm_compute. discriminate.
Defined.
